(** * opencode-brain: compression, write coordination and store recovery

    A shallow embedding of the plugin's TypeScript sources:
    - [src/utils/compression.ts]  (tool-output compression),
    - [src/utils/helpers.ts]      (observation classification, tokens,
                                   timestamps),
    - [src/utils/lock.ts]         (advisory locking wrapper),
    - [src/utils/dedup.ts]        (cross-process deduplication log),
    - [src/utils/session.ts]      (session files per source),
    - [src/core/mind.ts]          (open / recovery / backup pruning / remember,
                                   the singleton),
    - [src/hooks/tool-capture.ts] (capture of tool outputs, in its two
                                   revisions),
    - [src/hooks/session-end.ts]  (the summary of a session),
    - [src/plugin.ts]             (the context text, the plugin's instance).

    Conventions of the embedding.
    - A JavaScript string is a [string]; every [ascii] stands for one UTF-16
      code unit in the range 0..255, so [String.length] is [.length].
    - A JavaScript value of JSON shape (plus [undefined]) is a [value];
      numbers are the integers, printed in decimal.
    - A call that may throw returns a [result]; [Throw] carries the error. *)

From Stdlib Require Import ZArith NArith Ascii String List Lia Bool.
From Stdlib Require Import Numbers.DecimalString.
From Stdlib Require Numbers.DecimalFacts Numbers.DecimalPos.
From stdpp Require Import base option list gmap strings sorting.

Local Open Scope stdpp_scope.

(** ** Results of calls that may throw *)

Record exn := Err { ename : string; emessage : string }.

Inductive result (A : Type) :=
| Ok (a : A)
| Throw (e : exn).
Arguments Ok {A} a.
Arguments Throw {A} e.

Definition rbind {A B} (r : result A) (f : A → result B) : result B :=
  match r with
  | Ok a => f a
  | Throw e => Throw e
  end.

Definition TypeError (msg : string) : exn := Err "TypeError" msg.

#[global] Instance result_ret : MRet result := λ A a, Ok a.
#[global] Instance result_bind : MBind result := λ A B f r, rbind r f.

(** ** JavaScript strings *)

Module Js.

Definition LF : ascii := ascii_of_nat 10.
Definition nl : string := String LF "".

(** [s.slice(0, n)] *)
Fixpoint slice0 (n : nat) (s : string) : string :=
  match n, s with
  | S n', String a s' => String a (slice0 n' s')
  | _, _ => ""
  end.

(** [s.slice(n)] *)
Fixpoint slice_from (n : nat) (s : string) : string :=
  match n, s with
  | S n', String _ s' => slice_from n' s'
  | _, _ => s
  end.

(** [s.repeat(n)] for a one-character [s] *)
Fixpoint repeat_char (a : ascii) (n : nat) : string :=
  match n with
  | 0 => ""
  | S n' => String a (repeat_char a n')
  end.

(** [s.split(sep)] for a one-character separator: never the empty list. *)
Fixpoint split_go (sep : ascii) (cur : string) (s : string) : list string :=
  match s with
  | "" => [String.rev cur]
  | String a s' =>
      if Ascii.eqb a sep then String.rev cur :: split_go sep "" s'
      else split_go sep (String a cur) s'
  end.
Definition split (sep : ascii) (s : string) : list string := split_go sep "" s.

(** [l.join(sep)] *)
Fixpoint join (sep : string) (l : list string) : string :=
  match l with
  | [] => ""
  | [x] => x
  | x :: l' => x +:+ sep +:+ join sep l'
  end.

(** [l.slice(-n)] on arrays *)
Definition last_n {A} (n : nat) (l : list A) : list A :=
  drop (length l - n) l.

(** [l.slice(0, -1)] on arrays *)
Definition but_last {A} (l : list A) : list A :=
  take (length l - 1) l.

Fixpoint prefix (p s : string) : bool :=
  match p, s with
  | "", _ => true
  | String a p', String b s' => Ascii.eqb a b && prefix p' s'
  | _, _ => false
  end.

(** [s.includes(p)] *)
Fixpoint includes (p s : string) : bool :=
  prefix p s ||
  match s with
  | "" => false
  | String _ s' => includes p s'
  end.

(** [toLowerCase] on a code unit below 256: A-Z and the Latin-1 capitals. *)
Definition lower_char (a : ascii) : ascii :=
  let n := nat_of_ascii a in
  if ((65 <=? n) && (n <=? 90)) || ((192 <=? n) && (n <=? 222) && negb (n =? 215))
  then ascii_of_nat (n + 32) else a.

Fixpoint toLowerCase (s : string) : string :=
  match s with
  | "" => ""
  | String a s' => String (lower_char a) (toLowerCase s')
  end.

(** White space and line terminators, as [trim] and [\s] see them. *)
Definition is_space (a : ascii) : bool :=
  let n := nat_of_ascii a in
  ((9 <=? n) && (n <=? 13)) || (n =? 32) || (n =? 160).

Fixpoint trimStart (s : string) : string :=
  match s with
  | String a s' => if is_space a then trimStart s' else s
  | "" => ""
  end.

Definition trim (s : string) : string :=
  String.rev (trimStart (String.rev (trimStart s))).

(** [path.dirname] and [path.resolve], on normalised paths: no empty,
    [.] or [..] segment, no trailing slash. *)
Definition dirname (p : string) : string :=
  match but_last (split "/" p) with
  | [] => "."
  | [""] => "/"
  | segs => join "/" segs
  end.

Definition dir_prefix (dir : string) : string :=
  if String.eqb dir "/" then "/" else dir +:+ "/".

Definition resolve (base rel : string) : string :=
  if prefix "/" rel then rel else dir_prefix base +:+ rel.

(** Decimal printing of numbers, as in a template literal. *)
Definition of_nat (n : nat) : string := NilEmpty.string_of_uint (Nat.to_uint n).
Definition of_N (n : N) : string := NilEmpty.string_of_uint (N.to_uint n).
Definition of_Z (z : Z) : string :=
  match z with
  | Zneg p => "-" +:+ of_N (Npos p)
  | _ => of_N (Z.to_N z)
  end.

Definition digit_value (a : ascii) : option N :=
  let n := N_of_ascii a in
  if ((48 <=? n) && (n <=? 57))%N then Some (n - 48)%N else None.

(** the value of the longest prefix of digits, and how many there were *)
Fixpoint digits_go (acc : N) (count : nat) (s : string) : N * nat :=
  match s with
  | String a s' =>
      match digit_value a with
      | Some d => digits_go (10 * acc + d)%N (S count) s'
      | None => (acc, count)
      end
  | "" => (acc, count)
  end.

(** [parseInt(s, 10)]; [None] is [NaN]. *)
Definition parseInt (s : string) : option Z :=
  let s := trimStart s in
  let '(neg, s) :=
    match s with
    | String "-" s' => (true, s')
    | String "+" s' => (false, s')
    | _ => (false, s)
    end in
  let '(n, count) := digits_go 0 0 s in
  if count =? 0 then None
  else Some (if neg then - Z.of_N n else Z.of_N n)%Z.

(** A canonical array index: the decimal form of an integer below 2^32 - 1. *)
Definition array_index (k : string) : option N :=
  let '(n, count) := digits_go 0 0 k in
  if (count =? String.length k) && (0 <? count)
     && (String.eqb k "0" || negb (prefix "0" k))
     && (n <? 4294967295)%N
  then Some n else None.

(** the character does not occur in the string *)
Fixpoint free_of (a : ascii) (s : string) : bool :=
  match s with
  | "" => true
  | String b s' => negb (Ascii.eqb b a) && free_of a s'
  end.

(** [l.filter(Boolean)] on an array of strings *)
Definition nonempty (s : string) : bool := negb (String.eqb s "").
Definition filter_Boolean (l : list string) : list string :=
  List.filter nonempty l.

(** [x || d] on strings *)
Definition or_else (s d : string) : string := if nonempty s then s else d.

(** [[...new Set(l)]]: first occurrences, in order. *)
Fixpoint dedupe_go (seen : list string) (l : list string) : list string :=
  match l with
  | [] => []
  | x :: l' =>
      if existsb (String.eqb x) seen then dedupe_go seen l'
      else x :: dedupe_go (x :: seen) l'
  end.
Definition dedupe (l : list string) : list string := dedupe_go [] l.

End Js.

(** ** JavaScript values of JSON shape *)

#[warnings="-register-all"]
Inductive value :=
| VUndefined
| VNull
| VBool (b : bool)
| VNum (z : Z)
| VStr (s : string)
| VArr (items : list value)
| VObj (props : list (string * value)).

(** An object is its own properties in enumeration order. *)
Definition object := list (string * value).

Fixpoint get (k : string) (o : object) : value :=
  match o with
  | [] => VUndefined
  | (k', v) :: o' => if String.eqb k k' then v else get k o'
  end.

Definition has_own (k : string) (o : object) : bool :=
  existsb (λ kv, String.eqb k kv.1) o.

(** [o[k] = v]: a new key goes last, a known key keeps its place. *)
Fixpoint obj_set {A} (k : string) (v : A) (o : list (string * A)) : list (string * A) :=
  match o with
  | [] => [(k, v)]
  | (k', v') :: o' =>
      if String.eqb k k' then (k, v) :: o' else (k', v') :: obj_set k v o'
  end.

(** [Object.assign(a, b)], the effect of a spread of [b] after [a] *)
Definition assign {A} (a b : list (string * A)) : list (string * A) :=
  foldl (λ o kv, obj_set kv.1 kv.2 o) a b.

(** [toolInput?.k] *)
Definition opt_get (k : string) (o : option object) : value :=
  match o with
  | Some o => get k o
  | None => VUndefined
  end.

Definition truthy (v : value) : bool :=
  match v with
  | VUndefined | VNull => false
  | VBool b => b
  | VNum z => negb (z =? 0)%Z
  | VStr s => Js.nonempty s
  | VArr _ | VObj _ => true
  end.

(** [a || b] *)
Definition vor (a b : value) : value := if truthy a then a else b.

(** [ToString], as a template literal applies it.  An object with an own
    [toString] property that is not callable has no primitive value. *)
Fixpoint ToString (v : value) : result string :=
  match v with
  | VUndefined => Ok "undefined"
  | VNull => Ok "null"
  | VBool true => Ok "true"
  | VBool false => Ok "false"
  | VNum z => Ok (Js.of_Z z)
  | VStr s => Ok s
  | VArr items =>
      rbind
      ((fix go (l : list value) : result (list string) :=
         match l with
         | [] => Ok []
         | x :: l' =>
             rbind (match x with
                    | VUndefined | VNull => Ok ""
                    | _ => ToString x
                    end)
                   (λ s, rbind (go l') (λ r, Ok (s :: r)))
         end) items)
      (λ l, Ok (Js.join "," l))
  | VObj props =>
      if has_own "toString" props
      then Throw (TypeError "Cannot convert object to primitive value")
      else Ok "[object Object]"
  end.

(** ** Regular expressions

    A backtracking matcher for the operators the sources use: character
    classes, [^] and [$] under the [m] flag, [\b], sequence, alternation,
    greedy repetition and capture groups.  Alternatives are tried left to
    right and a repetition first tries one more round, as in ECMAScript. *)

Module Regex.

Record pos := Pos { before : option ascii; rest : string; idx : nat }.

Definition start (s : string) : pos := Pos None s 0.

Definition step (p : pos) : option pos :=
  match rest p with
  | String a s' => Some (Pos (Some a) s' (S (idx p)))
  | "" => None
  end.

Definition caps := list (nat * string).

Definition is_line_terminator (a : ascii) : bool :=
  let n := nat_of_ascii a in (n =? 10) || (n =? 13).

Definition is_digit (a : ascii) : bool :=
  let n := nat_of_ascii a in (48 <=? n) && (n <=? 57).

Definition is_word (a : ascii) : bool :=
  let n := nat_of_ascii a in
  ((65 <=? n) && (n <=? 90)) || ((97 <=? n) && (n <=? 122))
  || is_digit a || (n =? 95).

Inductive re :=
| Chr (f : ascii → bool)
| Bos
| Eos
| Bol
| Eol
| WordB
| Eps
| Cat (a b : re)
| Alt (a b : re)
| Star (a : re)
| Grp (i : nat) (a : re).

Definition at_bol (p : pos) : bool :=
  match before p with
  | None => true
  | Some a => is_line_terminator a
  end.

Definition at_eol (p : pos) : bool :=
  match rest p with
  | "" => true
  | String a _ => is_line_terminator a
  end.

Definition at_wordb (p : pos) : bool :=
  xorb (match before p with Some a => is_word a | None => false end)
       (match rest p with String a _ => is_word a | "" => false end).

Definition text (p p' : pos) : string := Js.slice0 (idx p' - idx p) (rest p).

Definition cont := pos → caps → option (pos * caps).

(** One more round of the body, provided it consumed input; else go on. *)
Fixpoint star (body : pos → caps → cont → option (pos * caps))
    (fuel : nat) (p : pos) (c : caps) (k : cont) : option (pos * caps) :=
  match fuel with
  | 0 => k p c
  | S fuel' =>
      match body p c (λ p' c',
              if idx p <? idx p' then star body fuel' p' c' k else None) with
      | Some r => Some r
      | None => k p c
      end
  end.

Fixpoint rmatch (r : re) (p : pos) (c : caps) (k : cont) : option (pos * caps) :=
  match r with
  | Chr f =>
      match rest p with
      | String a s' => if f a then k (Pos (Some a) s' (S (idx p))) c else None
      | "" => None
      end
  | Bos => match before p with None => k p c | Some _ => None end
  | Eos => match rest p with "" => k p c | String _ _ => None end
  | Bol => if at_bol p then k p c else None
  | Eol => if at_eol p then k p c else None
  | WordB => if at_wordb p then k p c else None
  | Eps => k p c
  | Cat a b => rmatch a p c (λ p' c', rmatch b p' c' k)
  | Alt a b =>
      match rmatch a p c k with
      | Some x => Some x
      | None => rmatch b p c k
      end
  | Star a => star (rmatch a) (String.length (rest p)) p c k
  | Grp i a => rmatch a p c (λ p' c', k p' ((i, text p p') :: c'))
  end.

Definition match_at (r : re) (p : pos) : option (pos * caps) :=
  rmatch r p [] (λ p' c', Some (p', c')).

(** All matches from [p] on, as [String.prototype.match] with the [g] flag
    collects them: the search resumes where the last match ended, one
    character further after an empty match. *)
Fixpoint scan (r : re) (fuel : nat) (p : pos) : list (string * caps) :=
  match fuel with
  | 0 => []
  | S fuel' =>
      let next := match step p with Some q => scan r fuel' q | None => [] end in
      match match_at r p with
      | Some (p', c') =>
          (text p p', c') :: (if idx p <? idx p' then scan r fuel' p' else next)
      | None => next
      end
  end.

Definition match_all (r : re) (s : string) : list string :=
  (scan r (S (String.length s)) (start s)).*1.

(** The capture group [i] of every match, as an [exec] loop reads it. *)
Definition group (i : nat) (c : caps) : string :=
  match List.find (λ kv, kv.1 =? i) c with
  | Some kv => kv.2
  | None => ""
  end.

Definition exec_all (r : re) (i : nat) (s : string) : list string :=
  (λ m, group i m.2) <$> scan r (S (String.length s)) (start s).

(** [r.test(s)] *)
Definition test (r : re) (s : string) : bool :=
  negb (bool_decide (scan r (S (String.length s)) (start s) = [])).

(** Building blocks. *)
Definition seq (l : list re) : re := foldr Cat Eps l.
Definition alts (l : list re) : re :=
  match l with
  | [] => Eps
  | x :: l' => foldl Alt x l'
  end.
Definition plus (a : re) : re := Cat a (Star a).
Definition opt (a : re) : re := Alt a Eps.
Definition ch (a : ascii) : re := Chr (Ascii.eqb a).
Fixpoint lit (s : string) : re :=
  match s with
  | "" => Eps
  | String a s' => Cat (ch a) (lit s')
  end.
(** a literal under the [i] flag *)
Fixpoint lit_i (s : string) : re :=
  match s with
  | "" => Eps
  | String a s' =>
      Cat (Chr (λ b, Ascii.eqb (Js.lower_char a) (Js.lower_char b))) (lit_i s')
  end.
Definition words (l : list string) : re := alts (lit <$> l).
Definition dot : re := Chr (λ a, negb (is_line_terminator a)).
Definition s_ : re := Chr Js.is_space.
Definition w_ : re := Chr is_word.
Definition d_ : re := Chr is_digit.
Definition not_ch (a : ascii) : re := Chr (λ b, negb (Ascii.eqb a b)).
Definition one_of (s : string) : re :=
  Chr (λ b, existsb (Ascii.eqb b) (list_ascii_of_string s)).

End Regex.

(** ** Sorting, as [Array.prototype.sort] with a comparator

    The sort is stable, so its result is the one a stable insertion gives:
    [cmp a b ≤ 0] keeps [a] before [b]. *)

Section Sort.
Context {A : Type} (cmp : A → A → Z).

Fixpoint sort_insert (x : A) (l : list A) : list A :=
  match l with
  | [] => [x]
  | y :: l' => if (cmp x y <=? 0)%Z then x :: y :: l' else y :: sort_insert x l'
  end.

Fixpoint sort_by (l : list A) : list A :=
  match l with
  | [] => []
  | x :: l' => sort_insert x (sort_by l')
  end.
End Sort.

(** Own property keys enumerate array indices first, in ascending order,
    then the other keys in insertion order ([Object.entries],
    [JSON.stringify], spread). *)
Definition own_order {A} (o : list (string * A)) : list (string * A) :=
  let index_of (e : string * A) := Js.array_index e.1 in
  sort_by (λ a b, match index_of a, index_of b with
                  | Some i, Some j => Z.of_N i - Z.of_N j
                  | _, _ => 0
                  end%Z)
          (List.filter (λ e, bool_decide (is_Some (index_of e))) o)
  ++ List.filter (λ e, bool_decide (index_of e = None)) o.

(** ** compression.ts *)

Module Compression.
Import Js Regex.

Definition TARGET_COMPRESSED_SIZE : nat := 2000.
Definition COMPRESSION_THRESHOLD : nat := 3000.

Record CompressionResult := {
  compressed : string;
  wasCompressed : bool;
  originalSize : nat
}.

(** *** Helper functions *)

Definition import_patterns : list re :=
  [ seq [Bol; lit "import"; plus s_; plus dot; Eol];
    seq [Bol; lit "const"; plus s_; plus w_; Star s_; ch "=";
         Star s_; lit "require("; plus dot; ch ")"; Eol];
    seq [Bol; lit "use"; plus s_; plus dot; ch ";"; Eol] ].

Definition extractImports (code : string) : list string :=
  concat ((λ r, match_all r code) <$> import_patterns).

Definition export_patterns : list re :=
  [ seq [Bol; lit "export"; plus s_;
         opt (Grp 1 (seq [lit "default"; plus s_]));
         Grp 2 (words ["function"; "class"; "const"; "let"; "var";
                       "interface"; "type"]);
         plus s_; plus w_];
    seq [Bol; lit "pub"; plus s_;
         Grp 1 (words ["fn"; "struct"; "enum"; "trait"]); plus s_; plus w_];
    seq [Bol; lit "module.exports"; Star s_; ch "="] ].

Definition extractExports (code : string) : list string :=
  concat ((λ r, match_all r code) <$> export_patterns).

Definition function_patterns : list re :=
  [ seq [Bol; opt (Grp 1 (seq [lit "export"; plus s_]));
         opt (Grp 2 (seq [lit "async"; plus s_]));
         lit "function"; plus s_; plus w_; Star s_;
         ch "("; Star (not_ch ")"); ch ")"];
    seq [Bol; Star s_;
         opt (Grp 1 (words ["public"; "private"; "protected"])); Star s_;
         opt (Grp 2 (seq [lit "async"; plus s_]));
         plus w_; Star s_; ch "("; Star (not_ch ")"); ch ")"; Star s_;
         one_of ":{"];
    seq [Bol; opt (Grp 1 (seq [lit "pub"; plus s_]));
         lit "fn"; plus s_; plus w_; Star s_; one_of "<("];
    seq [Bol; lit "def"; plus s_; plus w_; Star s_; ch "("] ].

Definition extractFunctionSignatures (code : string) : list string :=
  dedupe (concat ((λ r, trim <$> match_all r code) <$> function_patterns)).

Definition class_pattern : re :=
  seq [Bol; opt (Grp 1 (seq [lit "export"; plus s_]));
       opt (Grp 2 (seq [lit "abstract"; plus s_]));
       lit "class"; plus s_; Grp 3 (plus w_)].

Definition extractClassNames (code : string) : list string :=
  exec_all class_pattern 3 code.

Definition note_pattern : re :=
  seq [Bol; Star dot; WordB;
       Grp 1 (words ["TODO"; "FIXME"; "HACK"; "XXX"; "BUG"; "NOTE"]);
       WordB; Star dot; Eol].

Definition extractErrorPatterns (code : string) : list string :=
  trim <$> match_all note_pattern code.

Definition truncateToTarget (text : string) : string :=
  if String.length text <=? TARGET_COMPRESSED_SIZE then text
  else slice0 TARGET_COMPRESSED_SIZE text +:+ nl +:+ "... (truncated)".

(** *** Compression functions *)

(** a section pushed onto [parts] when the condition holds *)
Definition when (b : bool) (part : list string) : list string :=
  if b then part else [].

Definition has_items (l : list string) : bool := 0 <? length l.

Definition compressFileRead (toolInput : option object) (output : string)
    : result string :=
  let lines := split LF output in
  let filePath := vor (opt_get "file_path" toolInput) (opt_get "filePath" toolInput) in
  file ← (if truthy filePath
          then p ← ToString filePath; Ok ["File: " +:+ p]
          else Ok []);
  let imports := extractImports output in
  let exports := extractExports output in
  let functions := extractFunctionSignatures output in
  let classes := extractClassNames output in
  let errors := extractErrorPatterns output in
  let parts :=
    file
    ++ when (has_items imports)
         [nl +:+ "Imports:" +:+ nl +:+ join nl (take 10 imports)]
    ++ when (has_items exports)
         [nl +:+ "Exports:" +:+ nl +:+ join nl (take 10 exports)]
    ++ when (has_items functions)
         [nl +:+ "Functions:" +:+ nl +:+ join nl (take 15 functions)]
    ++ when (has_items classes)
         [nl +:+ "Classes: " +:+ join ", " classes]
    ++ when (has_items errors)
         [nl +:+ "Notes:" +:+ nl +:+ join nl (take 5 errors)]
    ++ when (15 <? length lines)
         [nl +:+ "First 10 lines:" +:+ nl +:+ join nl (take 10 lines);
          nl +:+ "Last 5 lines:" +:+ nl +:+ join nl (last_n 5 lines)] in
  Ok (join nl parts).

Definition error_line : re :=
  alts [lit_i "error"; lit_i "failed"; lit_i "exception"; lit_i "warning"].
Definition success_line : re :=
  alts [lit_i "success"; lit_i "passed"; lit_i "completed"; lit_i "done"].

Definition compressBashOutput (toolInput : option object) (output : string)
    : result string :=
  let lines := split LF output in
  let command := opt_get "command" toolInput in
  cmd ← (if truthy command
         then match command with
              | VStr c => Ok ["Command: " +:+ slice0 100 (hd "" (split LF c))]
              | _ => Throw (TypeError "command.split is not a function")
              end
         else Ok []);
  let errorLines := List.filter (test error_line) lines in
  let successLines := List.filter (test success_line) lines in
  let parts :=
    cmd
    ++ when (has_items errorLines)
         [nl +:+ "Errors/Warnings:" +:+ nl +:+ join nl (take 10 errorLines)]
    ++ when (has_items successLines)
         [nl +:+ "Success:" +:+ nl +:+ join nl (take 5 successLines)]
    ++ (if 20 <? length lines
        then [nl +:+ "Output (" +:+ of_nat (length lines) +:+ " lines):";
              join nl (take 10 lines);
              "...";
              join nl (last_n 5 lines)]
        else [nl +:+ "Output:" +:+ nl +:+ output]) in
  Ok (join nl parts).

Definition compressGrepOutput (toolInput : option object) (output : string)
    : result string :=
  let lines := filter_Boolean (split LF output) in
  let pattern := opt_get "pattern" toolInput in
  pat ← (if truthy pattern
         then p ← ToString pattern; Ok ["Pattern: " +:+ p]
         else Ok []);
  let files := dedupe (filter_Boolean ((λ l, hd "" (split ":" l)) <$> lines)) in
  let parts :=
    pat
    ++ ["Found " +:+ of_nat (length lines) +:+ " matches in "
        +:+ of_nat (length files) +:+ " files"]
    ++ [nl +:+ "Top matches:" +:+ nl +:+ join nl (take 10 lines)]
    ++ when (10 <? length lines)
         [nl +:+ "... and " +:+ of_nat (length lines - 10) +:+ " more matches"] in
  Ok (join nl parts).

(** Property names every object inherits from [Object.prototype]: reading
    one of them on a fresh [{}] gives a function (or the prototype). *)
Definition Object_prototype_keys : list string :=
  ["constructor"; "__defineGetter__"; "__defineSetter__"; "hasOwnProperty";
   "__lookupGetter__"; "__lookupSetter__"; "isPrototypeOf";
   "propertyIsEnumerable"; "toString"; "valueOf"; "__proto__";
   "toLocaleString"].

Definition dirs_t := list (string * list string).

Definition has_dir (dir : string) (dirs : dirs_t) : bool :=
  existsb (λ e, String.eqb dir e.1) dirs.

(** [dirs[dir].push(file)], creating the array on first use *)
Fixpoint dirs_push (dir file : string) (dirs : dirs_t) : dirs_t :=
  match dirs with
  | [] => [(dir, [file])]
  | (d, fs) :: rest =>
      if String.eqb d dir then (d, fs ++ [file]) :: rest
      else (d, fs) :: dirs_push dir file rest
  end.

(** [line.split("/").slice(0, -1).join("/") || "."] *)
Definition glob_dir (line : string) : string :=
  or_else (join "/" (but_last (split "/" line))) ".".

(** [line.split("/").pop() || line] *)
Definition glob_file (line : string) : string :=
  or_else (List.last (split "/" line) "") line.

Fixpoint group_by_dir (lines : list string) (dirs : dirs_t) : result dirs_t :=
  match lines with
  | [] => Ok dirs
  | line :: rest =>
      let dir := glob_dir line in
      let file := glob_file line in
      if negb (has_dir dir dirs) && existsb (String.eqb dir) Object_prototype_keys
      then Throw (TypeError "dirs[dir].push is not a function")
      else group_by_dir rest (dirs_push dir file dirs)
  end.

Definition compressGlobOutput (toolInput : option object) (output : string)
    : result string :=
  let lines := filter_Boolean (split LF output) in
  let pattern := opt_get "pattern" toolInput in
  pat ← (if truthy pattern
         then p ← ToString pattern; Ok ["Pattern: " +:+ p]
         else Ok []);
  dirs ← group_by_dir lines [];
  let sortedDirs :=
    take 5 (sort_by (λ a b, Z.of_nat (length b.2) - Z.of_nat (length a.2))%Z
                    (own_order dirs)) in
  let parts :=
    pat
    ++ ["Found " +:+ of_nat (length lines) +:+ " files"]
    ++ concat ((λ e : string * list string,
          let '(dir, files) := e in
          [nl +:+ dir +:+ "/ (" +:+ of_nat (length files) +:+ " files)";
           join nl ((λ f, "  " +:+ f) <$> take 5 files)]
          ++ when (5 <? length files)
               ["  ... and " +:+ of_nat (length files - 5) +:+ " more"])
        <$> sortedDirs) in
  Ok (join nl parts).

Definition compressEditOutput (toolInput : option object) (output : string)
    : result string :=
  let filePath := vor (opt_get "file_path" toolInput) (opt_get "filePath" toolInput) in
  fileName ← match filePath with
             | VUndefined | VNull => Ok "file"
             | VStr p => Ok (or_else (List.last (split "/" p) "") "file")
             | _ => Throw (TypeError "filePath?.split is not a function")
             end;
  path ← (if truthy filePath then ToString filePath else Ok "unknown");
  Ok ("File: " +:+ fileName +:+ nl +:+ "Path: " +:+ path +:+ nl
      +:+ "Changes applied." +:+ nl +:+ nl +:+ slice0 500 output).

Definition compressGeneric (output : string) : string :=
  let lines := split LF output in
  if length lines <=? 30 then output
  else join nl (take 15 lines
                ++ [nl +:+ "... (" +:+ of_nat (length lines - 25)
                    +:+ " lines omitted) ..." +:+ nl]
                ++ last_n 10 lines).

(** The strategy [compressToolOutput] selects for the lower-cased name. *)
Definition strategy (tool : string) (toolInput : option object) (output : string)
    : result string :=
  if String.eqb tool "read" then compressFileRead toolInput output
  else if String.eqb tool "bash" then compressBashOutput toolInput output
  else if String.eqb tool "grep" then compressGrepOutput toolInput output
  else if String.eqb tool "glob" then compressGlobOutput toolInput output
  else if String.eqb tool "edit" || String.eqb tool "write" || String.eqb tool "update"
  then compressEditOutput toolInput output
  else Ok (compressGeneric output).

Definition compressToolOutput (toolName : string) (toolInput : option object)
    (output : string) (autoCompress : bool) : result CompressionResult :=
  let originalSize := String.length output in
  if negb autoCompress || (originalSize <? COMPRESSION_THRESHOLD)
  then Ok {| compressed := output; wasCompressed := false;
             originalSize := originalSize |}
  else
    let tool := toLowerCase toolName in
    compressed ← strategy tool toolInput output;
    Ok {| compressed := truncateToTarget compressed; wasCompressed := true;
          originalSize := originalSize |}.

(** *** Inputs on which no strategy throws *)

(** a descriptor field holds a string when it is present, as its cast says *)
Definition string_or_absent (v : value) : bool :=
  match v with
  | VUndefined | VStr _ => true
  | _ => false
  end.

Definition typed_input (toolInput : option object) : bool :=
  forallb (λ k, string_or_absent (opt_get k toolInput))
          ["file_path"; "filePath"; "command"; "pattern"].

(** no listed path lies directly in a directory named like a property of
    [Object.prototype] *)
Definition plain_dirs (output : string) : bool :=
  forallb (λ line, negb (existsb (String.eqb (glob_dir line)) Object_prototype_keys))
          (filter_Boolean (split LF output)).

End Compression.

(** ** helpers.ts *)

Module Helpers.
Import Js.

Inductive ObservationType :=
| discovery | decision | problem | solution | pattern
| warning | success | refactor | bugfix | feature.

Definition tag (t : ObservationType) : string :=
  match t with
  | discovery => "discovery" | decision => "decision" | problem => "problem"
  | solution => "solution" | pattern => "pattern" | warning => "warning"
  | success => "success" | refactor => "refactor" | bugfix => "bugfix"
  | feature => "feature"
  end.

Definition ObservationTypes : list string :=
  ["discovery"; "decision"; "problem"; "solution"; "pattern";
   "warning"; "success"; "refactor"; "bugfix"; "feature"].

Definition classifyObservationType (toolName output : string) : ObservationType :=
  let lower := toLowerCase output in
  if includes "error" lower || includes "failed" lower || includes "exception" lower
  then problem
  else if includes "success" lower || includes "passed" lower
          || includes "completed" lower
  then success
  else if includes "warning" lower || includes "deprecated" lower
  then warning
  else
    let tool := toLowerCase toolName in
    if String.eqb tool "read" || String.eqb tool "glob" || String.eqb tool "grep"
    then discovery
    else if String.eqb tool "edit" || String.eqb tool "update"
    then (if includes "fix" lower || includes "bug" lower then bugfix else refactor)
    else if String.eqb tool "write" then feature
    else discovery.

(** The lower-cased output contains one of the words. *)
Definition mentions (words : list string) (output : string) : Prop :=
  ∃ w a b, w ∈ words ∧ toLowerCase output = a +:+ w +:+ b.

(** [Math.ceil(a / b)] for integers with [0 < b] *)
Definition ceil_div (a b : Z) : Z := (- ((- a) / b))%Z.

Definition estimateTokens (text : string) : Z :=
  ceil_div (Z.of_nat (String.length text)) 4.

(** [s.slice(0, e)]: a negative end counts from the end of the string *)
Definition slice_to (e : Z) (s : string) : string :=
  if (e <? 0)%Z then slice0 (String.length s - Z.to_nat (- e)) s
  else slice0 (Z.to_nat e) s.

Definition truncateToTokens (text : string) (maxTokens : Z) : string :=
  let maxChars := (maxTokens * 4)%Z in
  if (Z.of_nat (String.length text) <=? maxChars)%Z then text
  else slice_to maxChars text +:+ "...".

Definition normalizeTimestamp (ts : Z) : Z :=
  if ((0 <? ts) && (ts <? 4102444800))%Z then (ts * 1000)%Z else ts.

(** [now] is the reading of [Date.now()]; [toLocaleDateString] prints a
    date in the locale and time zone of the process. *)
Definition formatTimestamp (toLocaleDateString : Z → string) (now ts : Z) : string :=
  if ((ts =? 0) || (ts <=? 0))%Z then "unknown"
  else
    let normalized := if ((0 <? ts) && (ts <? 4102444800))%Z then (ts * 1000)%Z else ts in
    let diff := (now - normalized)%Z in
    if (diff <? 60000)%Z then "just now"
    else if (diff <? 3600000)%Z then of_Z (diff / 60000) +:+ "m ago"
    else if (diff <? 86400000)%Z then of_Z (diff / 3600000) +:+ "h ago"
    else if (diff <? 604800000)%Z then of_Z (diff / 86400000) +:+ "d ago"
    else toLocaleDateString normalized.

End Helpers.

(** ** MD5 (RFC 1321), as [createHash("md5").update(s).digest("hex")] *)

Module Md5.
Local Open Scope N_scope.

Definition mask32 (x : N) : N := N.land x 4294967295.
Definition add32 (x y : N) : N := mask32 (x + y).
Definition rotl32 (x : N) (c : N) : N :=
  mask32 (N.lor (N.shiftl x c) (N.shiftr x (32 - c))).
Definition not32 (x : N) : N := N.lxor x 4294967295.

Definition K : list N :=
  [ 3614090360; 3905402710; 606105819; 3250441966; 4118548399; 1200080426; 2821735955; 4249261313; 1770035416; 2336552879; 4294925233; 2304563134; 1804603682; 4254626195; 2792965006; 1236535329; 4129170786; 3225465664; 643717713; 3921069994; 3593408605; 38016083; 3634488961; 3889429448; 568446438; 3275163606; 4107603335; 1163531501; 2850285829; 4243563512; 1735328473; 2368359562; 4294588738; 2272392833; 1839030562; 4259657740; 2763975236; 1272893353; 4139469664; 3200236656; 681279174; 3936430074; 3572445317; 76029189; 3654602809; 3873151461; 530742520; 3299628645; 4096336452; 1126891415; 2878612391; 4237533241; 1700485571; 2399980690; 4293915773; 2240044497; 1873313359; 4264355552; 2734768916; 1309151649; 4149444226; 3174756917; 718787259; 3951481745 ].

Definition shifts : list N :=
  [ 7; 12; 17; 22; 7; 12; 17; 22; 7; 12; 17; 22; 7; 12; 17; 22;
    5; 9; 14; 20; 5; 9; 14; 20; 5; 9; 14; 20; 5; 9; 14; 20;
    4; 11; 16; 23; 4; 11; 16; 23; 4; 11; 16; 23; 4; 11; 16; 23;
    6; 10; 15; 21; 6; 10; 15; 21; 6; 10; 15; 21; 6; 10; 15; 21 ].

(** UTF-8 bytes of a string of code units below 256 *)
Fixpoint utf8 (s : string) : list N :=
  match s with
  | EmptyString => []
  | String a s' =>
      let n := N_of_ascii a in
      if n <? 128 then n :: utf8 s'
      else N.lor 192 (N.shiftr n 6) :: N.lor 128 (N.land n 63) :: utf8 s'
  end.

Definition le_bytes (count : nat) (x : N) : list N :=
  (λ i, N.land (N.shiftr x (8 * N.of_nat i)) 255) <$> seq 0 count.

Definition pad (msg : list N) : list N :=
  let len := N.of_nat (length msg) in
  let zeros := N.to_nat ((119 - len mod 64) mod 64) in
  msg ++ [128] ++ replicate zeros 0 ++ le_bytes 8 (8 * len).

Fixpoint le_word (bytes : list N) : N :=
  match bytes with
  | [] => 0
  | b :: bs => b + 256 * le_word bs
  end.

(** the sixteen little-endian words of a 64-byte block *)
Fixpoint words (count : nat) (block : list N) : list N :=
  match count with
  | O => []
  | S c => le_word (take 4 block) :: words c (drop 4 block)
  end.

Definition round (M : list N) (st : N * N * N * N) (i : nat) : N * N * N * N :=
  let '(A, B, C, D) := st in
  let i' := N.of_nat i in
  let '(F, g) :=
    if i' <? 16 then (N.lor (N.land B C) (N.land (not32 B) D), i')
    else if i' <? 32 then (N.lor (N.land D B) (N.land (not32 D) C), (5 * i' + 1) mod 16)
    else if i' <? 48 then (N.lxor B (N.lxor C D), (3 * i' + 5) mod 16)
    else (N.lxor C (N.lor B (not32 D)), (7 * i') mod 16) in
  let F := add32 (add32 (add32 F A) (K !!! i)) (M !!! N.to_nat g) in
  (D, add32 B (rotl32 F (shifts !!! i)), B, C).

Definition block (st : N * N * N * N) (bytes : list N) : N * N * N * N :=
  let M := words 16 bytes in
  let '(A, B, C, D) := foldl (round M) st (seq 0 64) in
  let '(a0, b0, c0, d0) := st in
  (add32 a0 A, add32 b0 B, add32 c0 C, add32 d0 D).

Fixpoint blocks (count : nat) (st : N * N * N * N) (bytes : list N) : N * N * N * N :=
  match count with
  | O => st
  | S c => blocks c (block st (take 64 bytes)) (drop 64 bytes)
  end.

Definition hex_digit (n : N) : ascii :=
  if n <? 10 then ascii_of_N (48 + n) else ascii_of_N (87 + n).

Fixpoint hex (bytes : list N) : string :=
  match bytes with
  | [] => EmptyString
  | b :: bs => String (hex_digit (b / 16)) (String (hex_digit (b mod 16)) (hex bs))
  end.

Definition digest (s : string) : string :=
  let bytes := pad (utf8 s) in
  let '(a, b, c, d) :=
    blocks (length bytes / 64)%nat
           (1732584193, 4023233417, 2562383102, 271733878) bytes in
  hex (le_bytes 4 a ++ le_bytes 4 b ++ le_bytes 4 c ++ le_bytes 4 d).

End Md5.

(** ** JSON text: [JSON.stringify] and [JSON.parse] *)

Module Json.
Import Js.

Definition dq : ascii := ascii_of_nat 34.
Definition bsl : ascii := ascii_of_nat 92.

Definition hex_digit (n : nat) : ascii :=
  if n <? 10 then ascii_of_nat (48 + n) else ascii_of_nat (87 + n).

(** QuoteJSONString, one code unit at a time *)
Definition escape (a : ascii) : string :=
  let n := nat_of_ascii a in
  if n =? 34 then String bsl (String dq "")
  else if n =? 92 then String bsl (String bsl "")
  else if n =? 8 then String bsl "b"
  else if n =? 9 then String bsl "t"
  else if n =? 10 then String bsl "n"
  else if n =? 12 then String bsl "f"
  else if n =? 13 then String bsl "r"
  else if n <? 32
  then String bsl (String "u" (String "0" (String "0"
         (String (hex_digit (n / 16)) (String (hex_digit (n mod 16)) "")))))
  else String a "".

Fixpoint quote_body (s : string) : string :=
  match s with
  | "" => String dq ""
  | String a s' => escape a +:+ quote_body s'
  end.

Definition quote (s : string) : string := String dq (quote_body s).

(** [JSON.stringify]; [None] is [undefined]. *)
Fixpoint stringify (v : value) : option string :=
  match v with
  | VUndefined => None
  | VNull => Some "null"
  | VBool true => Some "true"
  | VBool false => Some "false"
  | VNum z => Some (of_Z z)
  | VStr s => Some (quote s)
  | VArr items =>
      Some ("[" +:+ join ","
             ((fix go (l : list value) : list string :=
                 match l with
                 | [] => []
                 | x :: l' => default "null" (stringify x) :: go l'
                 end) items) +:+ "]")
  | VObj props =>
      Some ("{" +:+ join ","
             ((fix go (l : list (string * value)) : list string :=
                 match l with
                 | [] => []
                 | (k, x) :: l' =>
                     match stringify x with
                     | Some t => (quote k +:+ ":" +:+ t) :: go l'
                     | None => go l'
                     end
                 end) props) +:+ "}")
  end.

Definition stringify_object (o : object) : string :=
  default "" (stringify (VObj o)).

(** *** Parsing *)

Definition is_ws (a : ascii) : bool :=
  let n := nat_of_ascii a in (n =? 32) || (n =? 9) || (n =? 10) || (n =? 13).

Fixpoint skip_ws (s : string) : string :=
  match s with
  | String a s' => if is_ws a then skip_ws s' else s
  | "" => ""
  end.

Definition hex_value (a : ascii) : option nat :=
  let n := nat_of_ascii a in
  if (48 <=? n) && (n <=? 57) then Some (n - 48)
  else if (97 <=? n) && (n <=? 102) then Some (n - 87)
  else if (65 <=? n) && (n <=? 70) then Some (n - 55)
  else None.

(** the code unit of [\uXXXX], when it is below 256 *)
Definition unicode (h1 h2 h3 h4 : ascii) : option ascii :=
  a ← hex_value h1; b ← hex_value h2; c ← hex_value h3; d ← hex_value h4;
  let n := ((a * 16 + b) * 16 + c) * 16 + d in
  if n <? 256 then Some (ascii_of_nat n) else None.

(** the characters of a string literal, after its opening quote *)
Fixpoint string_body (s : string) : option (string * string) :=
  match s with
  | "" => None
  | String a s' =>
      if Ascii.eqb a dq then Some ("", s')
      else if Ascii.eqb a bsl then
        match s' with
        | String "u" (String h1 (String h2 (String h3 (String h4 s'')))) =>
            c ← unicode h1 h2 h3 h4;
            r ← string_body s'';
            Some (String c r.1, r.2)
        | String e s'' =>
            c ← (if Ascii.eqb e dq then Some dq
                 else if Ascii.eqb e bsl then Some bsl
                 else match e with
                      | "/" => Some "/" | "b" => Some (ascii_of_nat 8)
                      | "f" => Some (ascii_of_nat 12) | "n" => Some LF
                      | "r" => Some (ascii_of_nat 13) | "t" => Some (ascii_of_nat 9)
                      | _ => None
                      end)%char;
            r ← string_body s'';
            Some (String c r.1, r.2)
        | "" => None
        end
      else if nat_of_ascii a <? 32 then None
      else r ← string_body s'; Some (String a r.1, r.2)
  end.

(** An integer numeral; a fraction or an exponent is outside the integers
    of this embedding and is refused. *)
Definition number (s : string) : option (Z * string) :=
  let '(neg, s) :=
    match s with
    | String "-" s' => (true, s')
    | _ => (false, s)
    end in
  r ← match s with
      | String "0" s' => Some (0%N, s')
      | _ => let '(n, count) := digits_go 0 0 s in
             if count =? 0 then None else Some (n, slice_from count s)
      end;
  match r.2 with
  | String "." _ | String "e" _ | String "E" _ => None
  | _ => Some (if neg then - Z.of_N r.1 else Z.of_N r.1, r.2)%Z
  end.

(** what may follow a value inside an object *)
Definition ends_number (rest : string) : Prop :=
  ∃ c r, rest = String c r ∧ (c = ","%char ∨ c = "}"%char).

Definition keyword (k : string) (v : value) (s : string) : option (value * string) :=
  if prefix k s then Some (v, slice_from (String.length k) s) else None.

Fixpoint value_ (fuel : nat) (s : string) : option (value * string) :=
  match fuel with
  | 0 => None
  | S fuel =>
      match skip_ws s with
      | "" => None
      | String a s' as t =>
          if Ascii.eqb a dq then r ← string_body s'; Some (VStr r.1, r.2)
          else if Ascii.eqb a "[" then
            match skip_ws s' with
            | String "]" r => Some (VArr [], r)
            | _ => r ← elements fuel s'; Some (VArr r.1, r.2)
            end
          else if Ascii.eqb a "{" then
            match skip_ws s' with
            | String "}" r => Some (VObj [], r)
            | _ => r ← members fuel [] s'; Some (VObj (own_order r.1), r.2)
            end
          else if Ascii.eqb a "n" then keyword "null" VNull t
          else if Ascii.eqb a "t" then keyword "true" (VBool true) t
          else if Ascii.eqb a "f" then keyword "false" (VBool false) t
          else r ← number t; Some (VNum r.1, r.2)
      end
  end
with elements (fuel : nat) (s : string) : option (list value * string) :=
  match fuel with
  | 0 => None
  | S fuel =>
      v ← value_ fuel s;
      match skip_ws v.2 with
      | String "," r => vs ← elements fuel r; Some (v.1 :: vs.1, vs.2)
      | String "]" r => Some ([v.1], r)
      | _ => None
      end
  end
with members (fuel : nat) (acc : object) (s : string) : option (object * string) :=
  match fuel with
  | 0 => None
  | S fuel =>
      match skip_ws s with
      | String a s' =>
          if Ascii.eqb a dq then
            k ← string_body s';
            match skip_ws k.2 with
            | String ":" r =>
                v ← value_ fuel r;
                let acc := obj_set k.1 v.1 acc in
                match skip_ws v.2 with
                | String "," r' => members fuel acc r'
                | String "}" r' => Some (acc, r')
                | _ => None
                end
            | _ => None
            end
          else None
      | "" => None
      end
  end.

(** [JSON.parse]; [None] is a [SyntaxError]. *)
Definition parse (s : string) : option value :=
  r ← value_ (2 * String.length s + 2) s;
  match skip_ws r.2 with
  | "" => Some r.1
  | _ => None
  end.

End Json.

(** ** The process: a state and error monad over the files it touches

    [held] lists the lock files that are locked and fresh when the process
    asks for them, [lockfiles] the lock files that exist; they are kept
    apart from the data files [data], which no lock operation reads.
    [trace] records the lock operations of this process in order. *)

Module Proc.

Inductive event :=
| Acquired (p : string)
| Released (p : string).

Record world (Σ : Type) := World {
  held : gset string;
  lockfiles : gset string;
  trace : list event;
  data : Σ
}.
Arguments World {Σ}.
Arguments held {Σ}.
Arguments lockfiles {Σ}.
Arguments trace {Σ}.
Arguments data {Σ}.

Definition M (Σ A : Type) : Type := world Σ → result A * world Σ.

Section Monad.
Context {Σ : Type}.

Definition ret {A} (a : A) : M Σ A := λ w, (Ok a, w).

Definition throw {A} (e : exn) : M Σ A := λ w, (Throw e, w).

Definition bind {A B} (m : M Σ A) (f : A → M Σ B) : M Σ B :=
  λ w, match m w with
       | (Ok a, w') => f a w'
       | (Throw e, w') => (Throw e, w')
       end.

Definition lift {A} (r : result A) : M Σ A := λ w, (r, w).

(** [try { m } catch (e) { h e }] *)
Definition try_catch {A} (m : M Σ A) (h : exn → M Σ A) : M Σ A :=
  λ w, match m w with
       | (Ok a, w') => (Ok a, w')
       | (Throw e, w') => h e w'
       end.

(** [try { m } finally { fin }]: an error of [fin] replaces the outcome. *)
Definition try_finally {A} (m : M Σ A) (fin : M Σ unit) : M Σ A :=
  λ w, let '(r, w') := m w in
       match fin w' with
       | (Ok _, w'') => (r, w'')
       | (Throw e, w'') => (Throw e, w'')
       end.

(** an operation on the data files *)
Definition action {A} (f : Σ → result A * Σ) : M Σ A :=
  λ w, let '(r, d) := f (data w) in
       (r, World (held w) (lockfiles w) (trace w) d).

Definition gets {A} (f : Σ → A) : M Σ A := action (λ d, (Ok (f d), d)).
Definition modify (f : Σ → Σ) : M Σ unit := action (λ d, (Ok tt, f d)).

(** [mkdir(p, { recursive: true })]: directories are implicit. *)
Definition mkdir (p : string) : M Σ unit := ret tt.
End Monad.

(** a computation on one component of the data, run on the whole *)
Definition zoom {Σ Σ' A} (get : Σ → Σ') (set : Σ' → Σ → Σ) (m : M Σ' A) : M Σ A :=
  λ w, let '(r, w') := m (World (held w) (lockfiles w) (trace w) (get (data w))) in
       (r, World (held w') (lockfiles w') (trace w') (set (data w') (data w))).

End Proc.

Notation "'do' x <- m ; k" := (Proc.bind m (λ x, k))
  (at level 10, x name, m at level 100, k at level 200,
   format "'[v' 'do'  x  <-  m ; '/' k ']'").

(** ** lock.ts *)

Module Lock.
Import Proc.

Record RetryOptions := { retries : N; minTimeout : N; maxTimeout : N }.
Record LockOptions := { stale : N; retry : RetryOptions }.

Definition LOCK_OPTIONS : LockOptions :=
  {| stale := 30000;
     retry := {| retries := 1000; minTimeout := 5; maxTimeout := 50 |} |}.

Section Lock.
Context {Σ : Type}.

(** [open(lockPath, "a")] then [close]: the lock file exists afterwards. *)
Definition touch (lockPath : string) : M Σ unit :=
  λ w, (Ok tt, World (held w) ({[lockPath]} ∪ lockfiles w) (trace w) (data w)).

(** the function [lockfile.lock] resolves to *)
Definition release (lockPath : string) : M Σ unit :=
  λ w, if decide (lockPath ∈ held w)
       then (Ok tt, World (held w ∖ {[lockPath]}) (lockfiles w)
                          (trace w ++ [Released lockPath]) (data w))
       else (Throw (Err "Error" "Lock is already released"), w).

(** [lockfile.lock(lockPath, options)]: a lock that stays held and fresh
    through every retry makes the call fail. *)
Definition lockfile_lock (lockPath : string) (options : LockOptions)
    : M Σ (M Σ unit) :=
  λ w, if decide (lockPath ∈ lockfiles w)
       then if decide (lockPath ∈ held w)
            then (Throw (Err "Error" "Lock file is already being held"), w)
            else (Ok (release lockPath),
                  World ({[lockPath]} ∪ held w) (lockfiles w)
                        (trace w ++ [Acquired lockPath]) (data w))
       else (Throw (Err "Error" "ENOENT: no such file or directory"), w).

Definition withMindLock {T} (memoryPath : string) (fn : M Σ T) : M Σ T :=
  let lockPath := memoryPath +:+ ".lock" in
  do _ <- mkdir (Js.dirname lockPath);
  do _ <- touch lockPath;
  do release <- lockfile_lock lockPath LOCK_OPTIONS;
  try_finally fn release.
End Lock.

End Lock.

(** ** dedup.ts *)

Module Dedup.
Import Js Proc Lock.

(** the text files, by path *)
Abbreviation files := (gmap string string).

Definition DEDUP_WINDOW_MS : Z := 60000.

Definition getDedupPath (directory : string) : string :=
  directory +:+ "/.claude/mind-dedup.log".

Definition readFile (path : string) : M files string :=
  action (λ fs : files, match fs !! path with
                | Some content => (Ok content, fs)
                | None => (Throw (Err "Error" "ENOENT: no such file or directory"), fs)
                end).

Definition writeFile (path content : string) : M files unit :=
  modify (λ fs : files, <[path := content]> fs).

(** [e.k] on a value that is not [null] *)
Definition prop (k : string) (e : value) : value :=
  match e with
  | VObj o => get k o
  | _ => VUndefined
  end.

(** StringToNumber on integer numerals; [None] is [NaN].  The other
    numeric forms of a string are outside the integers of this embedding. *)
Definition StringToNumber (s : string) : option Z :=
  let t := trim s in
  if String.eqb t "" then Some 0%Z
  else
    let '(neg, u) :=
      match t with
      | String "-" u => (true, u)
      | String "+" u => (false, u)
      | _ => (false, t)
      end in
    let '(n, count) := digits_go 0 0 u in
    if (count =? String.length u) && (0 <? count)
    then Some (if neg then - Z.of_N n else Z.of_N n)%Z
    else None.

(** [ToNumber]; [None] is [NaN]. *)
Definition ToNumber (v : value) : result (option Z) :=
  match v with
  | VUndefined => Ok None
  | VNull => Ok (Some 0%Z)
  | VBool b => Ok (Some (if b then 1 else 0)%Z)
  | VNum z => Ok (Some z)
  | VStr s => Ok (StringToNumber s)
  | VArr _ | VObj _ => s ← ToString v; Ok (StringToNumber s)
  end.

(** [e !== null && now - e.timestamp < DEDUP_WINDOW_MS], on the outcome
    of parsing a line ([None]: the line did not parse) *)
Definition is_fresh (now : Z) (e : option value) : result bool :=
  match e with
  | None | Some VNull => Ok false
  | Some e =>
      rbind (ToNumber (prop "timestamp" e)) (λ t : option Z,
      Ok match t with
         | Some t => (now - t <? DEDUP_WINDOW_MS)%Z
         | None => false
         end)
  end.

Fixpoint fresh_entries (now : Z) (l : list (option value)) : result (list value) :=
  match l with
  | [] => Ok []
  | e :: l' =>
      rbind (is_fresh now e) (λ keep : bool,
      rbind (fresh_entries now l') (λ rest : list value,
      Ok match e with
         | Some v => if keep then v :: rest else rest
         | None => rest
         end))
  end.

(** [e.hash === hash] *)
Definition has_hash (hash : string) (e : value) : bool :=
  match prop "hash" e with
  | VStr h => String.eqb h hash
  | _ => false
  end.

(** the entries that survive the read-and-filter step *)
Definition survivors (now : Z) (content : string) : result (list value) :=
  fresh_entries now (Json.parse <$> filter_Boolean (split LF (trim content))).

(** [entries.map(e => JSON.stringify(e)).join("\n")] *)
Definition log_text (entries : list value) : string :=
  join nl ((λ e, default "" (Json.stringify e)) <$> entries).

Definition new_entry (now : Z) (hash source : string) : value :=
  VObj [("timestamp", VNum now); ("hash", VStr hash); ("source", VStr source)].

(** the JSON text of an entry, as [JSON.stringify] prints it *)
Definition entry_line (now : Z) (hash source : string) : string :=
  "{" +:+ Json.quote "timestamp" +:+ ":" +:+ of_Z now +:+ ","
  +:+ Json.quote "hash" +:+ ":" +:+ Json.quote hash +:+ ","
  +:+ Json.quote "source" +:+ ":" +:+ Json.quote source +:+ "}".

(** a directory without files, and one whose log holds a line that
    another tool wrote *)
Definition empty_world : world files := World ∅ ∅ [] ∅.

Definition logged_world : world files :=
  World ∅ ∅ []
    {[ "/p/.claude/mind-dedup.log" :=
         entry_line 900 "d41d8cd98f00b204e9800998ecf8427e" "claude-code" ]}.

Definition dedup_key (source toolName : string) (toolInput : object) : string :=
  source +:+ ":" +:+ toolName +:+ ":" +:+ slice0 200 (Json.stringify_object toolInput).

(** [now] is the reading of [Date.now()] inside the lock. *)
Definition isDuplicateAcrossProcesses (now : Z) (directory source toolName : string)
    (toolInput : object) : M files bool :=
  let hash := Md5.digest (dedup_key source toolName toolInput) in
  let dedupPath := getDedupPath directory in
  let lockPath := dedupPath +:+ ".lock" in
  do _ <- mkdir (dirname dedupPath);
  withMindLock lockPath (
    do content <- try_catch (readFile dedupPath) (λ _, ret "");
    do entries <- lift (survivors now content);
    if existsb (has_hash hash) entries then ret true
    else
      let entries := entries ++ [new_entry now hash source] in
      do _ <- writeFile dedupPath (log_text entries);
      ret false).

End Dedup.

(** ** session.ts *)

Module Session.
Import Js Proc Lock Dedup.

(** The environment variables the sources read; an unset variable is
    [None]. *)
Record Env := {
  OPENCODE_SESSION_ID : option string;
  OPENCODE_DIR : option string;
  CLAUDE_PROJECT_DIR : option string
}.

(** the truth value of [process.env.X] *)
Definition is_set (v : option string) : bool := nonempty (default "" v).

Definition getSessionPath (directory source : string) : string :=
  directory +:+ "/.claude/mind-session-" +:+ source +:+ ".json".

Definition detectSource (env : Env) : string :=
  if is_set (OPENCODE_SESSION_ID env) then "opencode"
  else if is_set (OPENCODE_DIR env) then "opencode"
  else if is_set (CLAUDE_PROJECT_DIR env) && negb (is_set (OPENCODE_SESSION_ID env))
  then "claude-code"
  else "opencode".

Definition session_info (sessionId source : string) (startTime : Z) : value :=
  VObj [("sessionId", VStr sessionId); ("source", VStr source);
        ("startTime", VNum startTime)].

(** [now] is the reading of [Date.now()] inside the lock. *)
Definition writeSessionInfo (now : Z) (directory sessionId source : string)
    : M files unit :=
  let sessionPath := getSessionPath directory source in
  let lockPath := sessionPath +:+ ".lock" in
  do _ <- mkdir (dirname sessionPath);
  withMindLock lockPath (
    let info := session_info sessionId source now in
    writeFile sessionPath (default "" (Json.stringify info))).

(** [null] when the file is missing or does not parse *)
Definition readSessionInfo (directory source : string) : M files value :=
  let sessionPath := getSessionPath directory source in
  try_catch
    (do content <- readFile sessionPath;
     match Json.parse content with
     | Some info => ret info
     | None => throw (Err "SyntaxError" "Unexpected token in JSON")
     end)
    (λ _, ret VNull).

(** [random] is the text of [Math.random().toString(36)]; the stored
    [sessionId] is returned as it is, whatever its type. *)
Definition getSessionId (env : Env) (now : Z) (random : string)
    (directory : string) (fallbackId : option string) : M files value :=
  let source := detectSource env in
  do info <- readSessionInfo directory source;
  if truthy (prop "sessionId" info) then ret (prop "sessionId" info)
  else ret (VStr (or_else (default "" fallbackId)
                    (source +:+ "-" +:+ of_Z now +:+ "-"
                     +:+ slice0 6 (slice_from 2 random)))).

End Session.

(** ** mind.ts *)

Module Mind.
Import Js Proc Lock Helpers.

(** *** The external engine, as far as the sources use it

    A store file either opens, holding its frames, or makes the engine's
    open call fail with a message.  [create] leaves a fresh store at the
    path, [use] opens the store that is there, [put] appends a frame. *)

Record Frame := {
  title : string;
  label : string;
  text : string;
  metadata : object;
  tags : list string
}.

Inductive store :=
| Valid (frames : list Frame)
| Broken (msg : string).

Inductive node :=
| File (size : N) (content : store)
| Dir.

Abbreviation fs := (gmap string node).

Record Memvid := { handle_path : string }.

Definition create (path kind : string) : M fs Memvid :=
  action (λ d : fs, match d !! path with
               | Some Dir => (Throw (Err "Error" "is a directory"), d)
               | _ => (Ok {| handle_path := path |}, <[path := File 0 (Valid [])]> d)
               end).

Definition use (kind path : string) : M fs Memvid :=
  action (λ d : fs, match d !! path with
               | Some (File _ (Valid _)) => (Ok {| handle_path := path |}, d)
               | Some (File _ (Broken msg)) => (Throw (Err "Error" msg), d)
               | Some Dir => (Throw (Err "Error" "is a directory"), d)
               | None => (Throw (Err "Error" "no such file"), d)
               end).

Definition put (memvid : Memvid) (frame : Frame) : M fs string :=
  action (λ d : fs, match d !! handle_path memvid with
               | Some (File size (Valid frames)) =>
                   (Ok (of_nat (length frames)),
                    <[handle_path memvid := File size (Valid (frames ++ [frame]))]> d)
               | _ => (Throw (Err "Error" "store is not open"), d)
               end).

(** *** node:fs *)

Definition existsSync (path : string) : M fs bool :=
  gets (λ d : fs, bool_decide (is_Some (d !! path))).

Definition statSync_size (path : string) : M fs N :=
  action (λ d : fs, match d !! path with
               | Some (File size _) => (Ok size, d)
               | Some Dir => (Ok 0%N, d)
               | None => (Throw (Err "Error" "ENOENT: no such file or directory"), d)
               end).

Definition renameSync (old new : string) : M fs unit :=
  action (λ d : fs, match d !! old, d !! new with
               | None, _ => (Throw (Err "Error" "ENOENT: no such file or directory"), d)
               | Some (File _ _), Some Dir =>
                   (Throw (Err "Error" "EISDIR: illegal operation on a directory"), d)
               | Some Dir, Some _ => (Throw (Err "Error" "ENOTDIR: not a directory"), d)
               | Some n, _ => (Ok tt, <[new := n]> (delete old d))
               end).

Definition unlinkSync (path : string) : M fs unit :=
  action (λ d : fs, match d !! path with
               | Some (File _ _) => (Ok tt, delete path d)
               | Some Dir => (Throw (Err "Error" "EISDIR: illegal operation on a directory"), d)
               | None => (Throw (Err "Error" "ENOENT: no such file or directory"), d)
               end).

(** the name of [path] inside [dir], when it is one of its entries *)
Definition child_name (dir path : string) : option string :=
  let pre := dir_prefix dir in
  if prefix pre path
  then let name := slice_from (String.length pre) path in
       if nonempty name && negb (includes "/" name) then Some name else None
  else None.

Definition entries_of (dir : string) (d : fs) : list string :=
  omap (child_name dir) (map_to_list d).*1.

Definition readdirSync (dir : string) : M fs (list string) :=
  gets (entries_of dir).

(** *** Configuration ([minConfidence], a fraction that no function here
    reads, is left out) *)

Record MindConfig := {
  memoryPath : string;
  maxContextObservations : nat;
  maxContextTokens : nat;
  autoCompress : bool;
  debug : bool
}.

Definition DEFAULT_CONFIG : MindConfig :=
  {| memoryPath := ".claude/mind.mv2";
     maxContextObservations := 20;
     maxContextTokens := 2000;
     autoCompress := true;
     debug := false |}.

Definition CORRUPTION_PATTERNS : list string :=
  ["Deserialization"; "UnexpectedVariant"; "Invalid"; "corrupt";
   "validation failed"; "unable to recover"; "table of contents";
   "version mismatch"].

Definition MAX_FILE_SIZE_MB : N := 100.

(** *** pruneBackups *)

(** The source [baseName.replace(".", "\\.")] read as a regular
    expression: the first dot is escaped, a later dot matches any
    character, and a character that is no operator stands for itself. *)
Fixpoint base_re (escaped : bool) (s : string) : Regex.re :=
  match s with
  | "" => Regex.Eps
  | String a s' =>
      if Ascii.eqb a "."
      then Regex.Cat (if escaped then Regex.dot else Regex.ch ".") (base_re true s')
      else Regex.Cat (Regex.ch a) (base_re escaped s')
  end.

(** no operator of the pattern language other than the dot occurs *)
Definition plain_base (s : string) : bool :=
  forallb (λ a, negb (existsb (Ascii.eqb a) (list_ascii_of_string "\^$*+?()[]{}|")))
          (list_ascii_of_string s).

Definition backupPattern (baseName : string) : Regex.re :=
  Regex.seq [Regex.Bos; base_re false baseName; Regex.lit ".backup-";
             Regex.plus Regex.d_; Regex.Eos].

Record Backup := { name : string; path : string; time : option Z }.

Definition baseName_of (memoryPath : string) : string :=
  or_else (List.last (split "/" memoryPath) "") "mind.mv2".

Definition backups_of (memoryPath : string) (files : list string) : list Backup :=
  let dir := dirname memoryPath in
  sort_by (λ a b, match time b, time a with
                  | Some tb, Some ta => tb - ta
                  | _, _ => 0
                  end%Z)
    ((λ f, {| name := f; path := resolve dir f;
              time := parseInt (or_else (List.last (split "-" f) "") "0") |})
       <$> List.filter (Regex.test (backupPattern (baseName_of memoryPath))) files).

(** the entries of the store's directory that the pattern takes for backups *)
Definition backup_entries (memoryPath : string) (d : fs) : list string :=
  List.filter (Regex.test (backupPattern (baseName_of memoryPath)))
              (entries_of (dirname memoryPath) d).

Definition is_dir (d : fs) (path : string) : bool :=
  match d !! path with
  | Some Dir => true
  | _ => false
  end.

Definition is_file (d : fs) (path : string) : bool :=
  match d !! path with
  | Some (File _ _) => true
  | _ => false
  end.

(** the backup entries that are regular files *)
Definition backup_files (memoryPath : string) (d : fs) : list string :=
  List.filter (λ f, is_file d (resolve (dirname memoryPath) f))
              (backup_entries memoryPath d).

(** every backup entry is a regular file *)
Definition backups_are_files (memoryPath : string) (d : fs) : bool :=
  forallb (λ f, negb (is_dir d (resolve (dirname memoryPath) f)))
          (backup_entries memoryPath d).

Fixpoint unlink_each (l : list Backup) : M fs unit :=
  match l with
  | [] => ret tt
  | b :: l' =>
      do _ <- try_catch (unlinkSync (path b)) (λ _, ret tt);
      unlink_each l'
  end.

(** the files left when each backup is unlinked in turn: a directory or a
    missing path fails to unlink and stays as it is *)
Fixpoint after_unlinks (l : list Backup) (d : fs) : fs :=
  match l with
  | [] => d
  | b :: l' =>
      after_unlinks l' match d !! path b with
                       | Some (File _ _) => delete (path b) d
                       | _ => d
                       end
  end.

Definition pruneBackups (memoryPath : string) (keepCount : nat) : M fs unit :=
  try_catch
    (do files <- readdirSync (dirname memoryPath);
     unlink_each (drop keepCount (backups_of memoryPath files)))
    (λ _, ret tt).

(** *** Mind *)

Record Mind := {
  memvid : Memvid;
  config : MindConfig;
  sessionId : string;
  directory : string;
  initialized : bool;
  sessionStartTime : Z
}.

Definition backupPath_of (memoryPath : string) (now : Z) : string :=
  memoryPath +:+ ".backup-" +:+ of_Z now.

(** The unit of work [open] runs under the lock; it yields the handle the
    source assigns to [memvid]. *)
Definition open_locked (now : Z) (memoryPath : string) : M fs Memvid :=
  do present <- existsSync memoryPath;
  if negb present then create memoryPath "basic"
  else
    do fileSize <- statSync_size memoryPath;
    if (MAX_FILE_SIZE_MB * (1024 * 1024) <? fileSize)%N
    then
      do _ <- try_catch (renameSync memoryPath (backupPath_of memoryPath now))
                        (λ _, ret tt);
      create memoryPath "basic"
    else
      try_catch (use "basic" memoryPath) (λ err,
        let msg := emessage err in
        if existsb (λ p, includes p msg) CORRUPTION_PATTERNS
        then
          do _ <- try_catch (renameSync memoryPath (backupPath_of memoryPath now))
                    (λ _, try_catch (unlinkSync memoryPath) (λ _, ret tt));
          create memoryPath "basic"
        else throw err).

(** [new Mind(memvid, config, directory)] with [initialized] set *)
Definition mind_of (now : Z) (id directory : string) (config : MindConfig)
    (memvid : Memvid) : Mind :=
  {| memvid := memvid; config := config; sessionId := id; directory := directory;
     initialized := true; sessionStartTime := now |}.

(** [now] is the reading of [Date.now()], [id] the outcome of
    [generateId()], [config] the defaults with the overrides applied. *)
Definition open (now : Z) (id : string) (directory : string) (config : MindConfig)
    : M fs Mind :=
  let memoryPath := resolve directory (memoryPath config) in
  let memoryDir := dirname memoryPath in
  do _ <- mkdir memoryDir;
  do memvid <- withMindLock memoryPath (open_locked now memoryPath);
  let mind := mind_of now id directory config memvid in
  do _ <- pruneBackups memoryPath 3;
  ret mind.

(** *** Sample worlds *)

(** a corrupt store with five backups beside it *)
Definition corrupt_world : world fs :=
  World ∅ ∅ []
    (list_to_map
       [("/p/.claude/mind.mv2", File 4096 (Broken "Deserialization error: bad header"));
        ("/p/.claude/mind.mv2.backup-1700000000001", File 10 (Valid []));
        ("/p/.claude/mind.mv2.backup-1700000000005", File 10 (Valid []));
        ("/p/.claude/mind.mv2.backup-1700000000003", File 10 (Valid []));
        ("/p/.claude/mind.mv2.backup-1700000000002", File 10 (Valid []));
        ("/p/.claude/mind.mv2.backup-1700000000004", File 10 (Valid []));
        ("/p/.claude/mind-dedup.log", File 80 (Broken "not a store"))]).

(** a store on which the engine fails for another reason *)
Definition unreadable_world : world fs :=
  World ∅ ∅ []
    (list_to_map
       [("/p/.claude/mind.mv2", File 4096 (Broken "Permission denied (os error 13)"))]).

(** no store yet, and four directories named like backups *)
Definition directories_world : world fs :=
  World ∅ ∅ []
    (list_to_map
       [("/p/.claude/mind.mv2.backup-1700000000001", Dir);
        ("/p/.claude/mind.mv2.backup-1700000000002", Dir);
        ("/p/.claude/mind.mv2.backup-1700000000003", Dir);
        ("/p/.claude/mind.mv2.backup-1700000000004", Dir)]).

Definition getMemoryPath (mind : Mind) : string :=
  resolve (directory mind) (memoryPath (config mind)).

Definition withLock {T} (mind : Mind) (fn : M fs T) : M fs T :=
  withMindLock (getMemoryPath mind) fn.

(** *** remember *)

Record RememberInput := {
  input_type : ObservationType;
  input_summary : string;
  input_content : string;
  input_tool : option string;
  input_metadata : option object
}.

Record Observation := {
  obs_id : string;
  obs_timestamp : Z;
  obs_type : ObservationType;
  obs_tool : option string;
  obs_summary : string;
  obs_content : string;
  obs_metadata : object
}.

Definition VALID_SOURCES : list string := ["opencode"; "claude-code"].

Definition effectiveSessionId (mind : Mind) (input : RememberInput) : value :=
  vor (opt_get "sessionId" (input_metadata input)) (VStr (sessionId mind)).

Definition effectiveSource (input : RememberInput) : string :=
  match opt_get "source" (input_metadata input) with
  | VStr raw =>
      if nonempty raw && existsb (String.eqb raw) VALID_SOURCES then raw
      else "opencode"
  | _ => "opencode"
  end.

(** [{ ...a, ...b }] *)
Definition spread (a b : object) : object := own_order (assign a b).

Definition observation_of (mind : Mind) (input : RememberInput) (id : string)
    (now : Z) : Observation :=
  {| obs_id := id;
     obs_timestamp := now;
     obs_type := input_type input;
     obs_tool := input_tool input;
     obs_summary := input_summary input;
     obs_content := input_content input;
     obs_metadata :=
       spread (default [] (input_metadata input))
              [("sessionId", effectiveSessionId mind input);
               ("source", VStr (effectiveSource input))] |}.

Definition opt_str (s : option string) : value :=
  match s with
  | Some s => VStr s
  | None => VUndefined
  end.

Definition frame_of (mind : Mind) (input : RememberInput) (id : string) (now : Z)
    : Frame :=
  let observation := observation_of mind input id now in
  {| title := "[" +:+ tag (obs_type observation) +:+ "] " +:+ obs_summary observation;
     label := tag (obs_type observation);
     text := obs_content observation;
     metadata :=
       spread [("observationId", VStr (obs_id observation));
               ("timestamp", VNum (obs_timestamp observation));
               ("tool", opt_str (obs_tool observation));
               ("sessionId", effectiveSessionId mind input);
               ("source", VStr (effectiveSource input))]
              (obs_metadata observation);
     tags := filter_Boolean [tag (obs_type observation);
                             default "" (obs_tool observation)] |}.

Definition remember (mind : Mind) (input : RememberInput) (id : string) (now : Z)
    : M fs string :=
  withLock mind (
    do freshMemvid <- use "basic" (getMemoryPath mind);
    put freshMemvid (frame_of mind input id now)).

(** *** The variables that outlive a call: [mindInstance] of mind.ts,
    [recentObservations] of tool-capture.ts and [mind] of the plugin's
    closure, beside the files *)

Record state := State {
  mindInstance : option Mind;
  recentObservations : gmap string Z;
  pluginMind : option Mind;
  disk : fs
}.

Definition on_disk {A} (m : M fs A) : M state A :=
  zoom disk (λ d s, State (mindInstance s) (recentObservations s) (pluginMind s) d) m.

(** [now] and [id] are read when the instance is opened; [config] is the
    defaults with the overrides applied. *)
Definition getMind (now : Z) (id directory : string) (config : MindConfig)
    : M state Mind :=
  do instance <- gets mindInstance;
  match instance with
  | Some mind => ret mind
  | None =>
      do mind <- on_disk (open now id directory config);
      do _ <- modify (λ s, State (Some mind) (recentObservations s) (pluginMind s)
                                 (disk s));
      ret mind
  end.

Definition resetMind : M state unit :=
  modify (λ s, State None (recentObservations s) (pluginMind s) (disk s)).

End Mind.

(** ** tool-capture.ts *)

Module ToolCapture.
Import Js Proc Helpers Compression Mind.

Definition OBSERVED_TOOLS : list string :=
  ["read"; "edit"; "write"; "bash"; "grep"; "glob"; "webfetch"; "websearch";
   "task"; "codesearch"; "notebookedit"; "update"].

Definition ALWAYS_CAPTURE_TOOLS : list string :=
  ["edit"; "write"; "update"; "notebookedit"].

Definition MIN_OUTPUT_LENGTH : nat := 50.
Definition MAX_OUTPUT_LENGTH : nat := 2500.

Definition SKIP_PATTERNS : list string :=
  ["<system-reminder>"; "<memvid-mind-context>"; "<opencode-mind-context>"].

Definition DEDUP_WINDOW_MS : Z := 60000.
Definition CACHE_MAX_SIZE : nat := 100.
Definition CACHE_STALE_MS : Z := 120000.

Definition getObservationKey (toolName callId : string) : string :=
  toolName +:+ ":" +:+ callId.

(** [now] is read when the key has a last time that is not [0]. *)
Definition isDuplicate (now : Z) (key : string) (recent : gmap string Z) : bool :=
  match recent !! key with
  | None => false
  | Some lastSeen =>
      if (lastSeen =? 0)%Z then false else (now - lastSeen <? DEDUP_WINDOW_MS)%Z
  end.

(** [t_set] and [t_prune] are the two readings of [Date.now()], in order. *)
Definition markObserved (t_set t_prune : Z) (key : string) (recent : gmap string Z)
    : gmap string Z :=
  let recent := <[key := t_set]> recent in
  if CACHE_MAX_SIZE <? size recent
  then filter (λ kv : string * Z, ¬ (CACHE_STALE_MS < t_prune - kv.2)%Z) recent
  else recent.

Record ToolInput := { tool : string; sessionID : string; callID : string }.

Record ToolOutput := {
  out_title : string;
  out_output : string;
  out_metadata : option object
}.

Definition observed (toolName : string) : bool :=
  existsb (String.eqb toolName) OBSERVED_TOOLS.

Definition always_captured (toolName : string) : bool :=
  existsb (String.eqb toolName) ALWAYS_CAPTURE_TOOLS.

Definition skipped (toolOutput : string) : bool :=
  existsb (λ p, includes p toolOutput) SKIP_PATTERNS.

(** the text that stands for the short output of a file modification *)
Definition effective_output (toolName toolOutput : string) (metadata : option object)
    : result string :=
  if always_captured toolName && (String.length toolOutput <? MIN_OUTPUT_LENGTH)
  then
    match vor (vor (opt_get "filePath" metadata) (opt_get "file_path" metadata))
              (VStr "unknown") with
    | VStr filePath =>
        let fileName := or_else (List.last (split "/" filePath) "") "file" in
        Ok ("File modified: " +:+ fileName +:+ nl +:+ "Path: " +:+ filePath +:+ nl
            +:+ "Tool: " +:+ toolName)
    | _ => Throw (TypeError "filePath.split is not a function")
    end
  else Ok toolOutput.

(** the argument of [mind.remember] *)
Definition capture_input (toolName : string) (output : ToolOutput)
    (c : CompressionResult) : RememberInput :=
  {| input_type := classifyObservationType toolName (compressed c);
     input_summary := or_else (out_title output) (toolName +:+ " completed");
     input_content := slice0 MAX_OUTPUT_LENGTH (compressed c);
     input_tool := Some toolName;
     input_metadata :=
       Some (spread (default [] (out_metadata output))
               [("compressed", VBool (wasCompressed c));
                ("originalSize", if wasCompressed c
                                 then VNum (Z.of_nat (originalSize c))
                                 else VUndefined)]) |}.

(** [t_dup] is the time read by [isDuplicate], [id] and [t_obs] the
    identifier and the time [remember] gives the observation, [t_set] and
    [t_prune] the times read by [markObserved]. *)
Definition handleToolCapture (t_dup : Z) (id : string) (t_obs t_set t_prune : Z)
    (input : ToolInput) (output : ToolOutput) (getMind : M state Mind)
    : M state unit :=
  let toolName := toLowerCase (tool input) in
  if negb (observed toolName) then ret tt
  else
    let key := getObservationKey toolName (callID input) in
    do dup <- gets (λ s, isDuplicate t_dup key (recentObservations s));
    if dup then ret tt
    else
      let toolOutput := or_else (out_output output) "" in
      if negb (always_captured toolName)
         && (String.length toolOutput <? MIN_OUTPUT_LENGTH)
      then ret tt
      else if skipped toolOutput then ret tt
      else
        do effectiveOutput <-
          lift (effective_output toolName toolOutput (out_metadata output));
        do c <- lift (compressToolOutput toolName (out_metadata output)
                                         effectiveOutput true);
        do mind <- getMind;
        do _ <- on_disk (remember mind (capture_input toolName output c) id t_obs);
        do _ <- modify (λ s, State (mindInstance s)
                                   (markObserved t_set t_prune key (recentObservations s))
                                   (pluginMind s) (disk s));
        ret tt.

End ToolCapture.

(** ** tool-capture.ts, the revision with the cross-process check

    The constants, the filters and the text for a short file modification
    are those of the revision above. *)

Module CrossCapture.
Import Js Proc Helpers Compression Mind ToolCapture Session.

(** The text files of the deduplication log and of the sessions, beside
    the state of the revision above; no function reads a path in both. *)
Record host := Host {
  texts : gmap string string;
  proc : state
}.

Definition on_texts {A} (m : M (gmap string string) A) : M host A :=
  zoom texts (λ t s, Host t (proc s)) m.

Definition on_proc {A} (m : M state A) : M host A :=
  zoom proc (λ p s, Host (texts s) p) m.

(** the argument of [mind.remember] *)
Definition capture_input (toolName : string) (output : ToolOutput)
    (c : CompressionResult) (sessionId : value) (source : string) : RememberInput :=
  {| input_type := classifyObservationType toolName (compressed c);
     input_summary := or_else (out_title output) (toolName +:+ " completed");
     input_content := slice0 MAX_OUTPUT_LENGTH (compressed c);
     input_tool := Some toolName;
     input_metadata :=
       Some (spread (default [] (out_metadata output))
               [("compressed", VBool (wasCompressed c));
                ("originalSize", if wasCompressed c
                                 then VNum (Z.of_nat (originalSize c))
                                 else VUndefined);
                ("sessionId", sessionId);
                ("source", VStr source)]) |}.

(** [env] and [cwd] are the environment and the working directory of the
    process; [t_dup] is the time read by the duplicate check, [t_sid] and
    [random] the time and the random text read by [getSessionId], [id] and
    [t_obs] the identifier and the time [remember] gives the observation. *)
Definition handleToolCapture (env : Env) (cwd : string) (t_dup t_sid : Z)
    (random id : string) (t_obs : Z) (input : ToolInput) (output : ToolOutput)
    (getMind : M host Mind) (directory : option string) : M host unit :=
  let toolName := toLowerCase (tool input) in
  if negb (observed toolName) then ret tt
  else
    let dir := or_else (default "" directory)
                 (or_else (default "" (OPENCODE_DIR env)) cwd) in
    let source := detectSource env in
    let toolInput := default [] (out_metadata output) in
    do dup <- on_texts (Dedup.isDuplicateAcrossProcesses t_dup dir source toolName
                          toolInput);
    if dup then ret tt
    else
      let toolOutput := or_else (out_output output) "" in
      if negb (always_captured toolName)
         && (String.length toolOutput <? MIN_OUTPUT_LENGTH)
      then ret tt
      else if skipped toolOutput then ret tt
      else
        do effectiveOutput <-
          lift (effective_output toolName toolOutput (out_metadata output));
        do mind <- getMind;
        do sessionId <- on_texts (getSessionId env t_sid random dir
                                    (Some (sessionID input)));
        do c <- lift (compressToolOutput toolName (out_metadata output)
                                         effectiveOutput
                                         (autoCompress (config mind)));
        do _ <- on_proc (on_disk (remember mind
                                    (capture_input toolName output c sessionId source)
                                    id t_obs));
        ret tt.

End CrossCapture.

(** ** session-end.ts *)

Module SessionEnd.
Import Js.

(** An observation, as [generateSessionSummary] declares it; [o_files] is
    [metadata?.files]. *)
Record Obs := {
  o_type : string;
  o_summary : string;
  o_content : string;
  o_files : option (list string)
}.

Record Summary := {
  keyDecisions : list string;
  filesModified : list string;
  summary : string
}.

(** [set.add(f)]: a set keeps the order of first insertion *)
Definition set_add (f : string) (l : list string) : list string :=
  if existsb (String.eqb f) l then l else l ++ [f].

(** [counts[t]] on the numeric own properties; no key read below is a
    property of [Object.prototype] *)
Fixpoint count_of (t : string) (counts : list (string * Z)) : Z :=
  match counts with
  | [] => 0
  | (k, n) :: rest => if String.eqb t k then n else count_of t rest
  end.

(** [counts[t] = (counts[t] || 0) + 1].  Under a key that [Object.prototype]
    answers for, the sum is a text that nothing reads, and the numeric
    properties stay as they are. *)
Definition count_type (t : string) (counts : list (string * Z)) : list (string * Z) :=
  if existsb (String.eqb t) Compression.Object_prototype_keys then counts
  else
    let n := count_of t counts in
    obj_set t ((if n =? 0 then 0 else n) + 1)%Z counts.

Definition is_decision (obs : Obs) : bool :=
  String.eqb (o_type obs) "decision"
  || includes "chose" (toLowerCase (o_summary obs))
  || includes "decided" (toLowerCase (o_summary obs)).

(** the three accumulators of the loop *)
Record Acc := {
  decisions : list string;
  files : list string;
  typeCounts : list (string * Z)
}.

Definition visit (a : Acc) (obs : Obs) : Acc :=
  {| decisions := if is_decision obs then decisions a ++ [o_summary obs]
                  else decisions a;
     files := match o_files obs with
              | Some fs => foldl (λ l f, set_add f l) (files a) fs
              | None => files a
              end;
     typeCounts := count_type (o_type obs) (typeCounts a) |}.

Definition part (counts : list (string * Z)) (t before after : string) : list string :=
  let n := count_of t counts in
  if (n =? 0)%Z then [] else [before +:+ of_Z n +:+ after].

Definition summary_text (counts : list (string * Z)) (total : nat) : string :=
  let parts :=
    part counts "feature" "Added " " feature(s)"
    ++ part counts "bugfix" "Fixed " " bug(s)"
    ++ part counts "refactor" "Refactored " " item(s)"
    ++ part counts "discovery" "Made " " discovery(ies)"
    ++ part counts "problem" "Encountered " " problem(s)"
    ++ part counts "solution" "Found " " solution(s)" in
  if 0 <? length parts then join ". " parts +:+ "."
  else "Session with " +:+ of_nat total +:+ " observations.".

Definition generateSessionSummary (observations : list Obs) : Summary :=
  let a := foldl visit {| decisions := []; files := []; typeCounts := [] |}
                 observations in
  {| keyDecisions := take 10 (decisions a);
     filesModified := take 20 (files a);
     summary := summary_text (typeCounts a) (length observations) |}.

(** the number of observations of a type *)
Definition occurrences (t : string) (observations : list Obs) : nat :=
  length (List.filter (λ obs, String.eqb (o_type obs) t) observations).

End SessionEnd.

(** ** plugin.ts *)

Module Plugin.
Import Js Proc Mind.

(** An observation of the context, as [formatContextForSystem] reads it;
    [c_source] is [metadata?.source]. *)
Record ContextObservation := {
  c_type : string;
  c_summary : string;
  c_source : option string
}.

Definition context_line (obs : ContextObservation) : string :=
  let source := or_else (default "" (c_source obs)) "unknown" in
  "- [" +:+ c_type obs +:+ "] " +:+ c_summary obs +:+ " (via " +:+ source +:+ ")".

Definition formatContextForSystem (recentObservations : list ContextObservation)
    : string :=
  join nl
    (["<opencode-mind-context>";
      "# Memory Context";
      "";
      "Recent observations (" +:+ of_nat (length recentObservations) +:+ "):"]
     ++ (context_line <$> take 10 recentObservations)
     ++ [""; "Use mind_search or mind_ask to query memories.";
         "</opencode-mind-context>"]).

(** [ensureMind] of the plugin's closure, for the plugin's [directory] *)
Definition ensureMind (now : Z) (id directory : string) : M state Mind :=
  do mind <- gets pluginMind;
  match mind with
  | Some mind => ret mind
  | None =>
      do mind <- getMind now id directory DEFAULT_CONFIG;
      do _ <- modify (λ s, State (mindInstance s) (recentObservations s) (Some mind)
                                 (disk s));
      ret mind
  end.

End Plugin.

(** * Properties *)

#[local] Set Warnings "-clear-no-such-hyp".

(** ** Strings *)

Module JsFacts.
Import Js.

Lemma str_length_app (s t : string) :
  String.length (s +:+ t) = String.length s + String.length t.
Proof. induction s as [|a s IH]; simpl; [done | by rewrite IH]. Qed.

Lemma length_slice0 (n : nat) (s : string) :
  String.length (slice0 n s) = n `min` String.length s.
Proof.
  revert s; induction n as [|n IH]; intros [|a s]; simpl; try done.
  by rewrite IH.
Qed.

Lemma slice0_all (n : nat) (s : string) :
  String.length s ≤ n → slice0 n s = s.
Proof.
  revert s; induction n as [|n IH]; intros [|a s]; simpl; try done; try lia.
  intros H. f_equal. apply IH. lia.
Qed.

Lemma str_app_nil_l (s : string) : "" +:+ s = s.
Proof. reflexivity. Qed.

Lemma str_app_cons (a : ascii) (s t : string) : String a s +:+ t = String a (s +:+ t).
Proof. reflexivity. Qed.

Lemma str_app_nil_r (s : string) : s +:+ "" = s.
Proof. induction s as [|a s IH]; [done | by rewrite str_app_cons, IH]. Qed.

Lemma str_app_assoc (s t u : string) : (s +:+ t) +:+ u = s +:+ t +:+ u.
Proof. induction s as [|a s IH]; [done | by rewrite !str_app_cons, IH]. Qed.

Lemma slice_from_app (pre s : string) :
  slice_from (String.length pre) (pre +:+ s) = s.
Proof.
  induction pre as [|a pre IH]; [by destruct s |].
  rewrite str_app_cons. cbn [String.length slice_from]. exact IH.
Qed.

Lemma prefix_spec (p s : string) :
  prefix p s = true ↔ ∃ b, s = p +:+ b.
Proof.
  revert s. induction p as [|a p IH]; intros s.
  - split; [by exists s | by destruct s].
  - destruct s as [|c s]; cbn [prefix].
    + split; [done | by intros [b Hb]].
    + rewrite andb_true_iff, Ascii.eqb_eq, IH. split.
      * intros [-> [b ->]]. by exists b.
      * intros [b Hb]. rewrite str_app_cons in Hb. injection Hb as -> ->. eauto.
Qed.

Lemma includes_spec (p s : string) :
  includes p s = true ↔ ∃ a b, s = a +:+ p +:+ b.
Proof.
  induction s as [|c s IH]; cbn [includes]; rewrite orb_true_iff, prefix_spec.
  - split.
    + intros [[b Hb] | ?]; [by exists "", b | done].
    + intros [[|a0 a] [b Hb]]; [left; by exists b | done].
  - rewrite IH. split.
    + intros [[b Hb] | (a & b & ->)]; [by exists "", b | by exists (String c a), b].
    + intros [[|a0 a] [b Hb]]; [left; by exists b |].
      rewrite str_app_cons in Hb. injection Hb as -> ->. right. eauto.
Qed.

End JsFacts.

(** ** helpers.ts *)

Module HelpersFacts.
Import Js Helpers JsFacts.

Lemma mentions_existsb (words : list string) (output : string) :
  mentions words output ↔
  existsb (λ w, includes w (toLowerCase output)) words = true.
Proof.
  unfold mentions. rewrite existsb_exists. split.
  - intros (w & a & b & Hw & Heq). exists w. split; [by apply list_elem_of_In |].
    apply includes_spec. eauto.
  - intros (w & Hw & Hinc). apply includes_spec in Hinc as (a & b & Heq).
    exists w, a, b. split; [by apply list_elem_of_In | done].
Qed.

Lemma not_mentions_existsb (words : list string) (output : string) :
  ¬ mentions words output ↔
  existsb (λ w, includes w (toLowerCase output)) words = false.
Proof. rewrite mentions_existsb. by destruct (existsb _ _). Qed.

(** C10.  [classifyObservationType] returns one of the ten category tags,
    and its rules apply in a fixed order: an output that mentions "error",
    "failed" or "exception", in any letter case, is a "problem" whatever the
    tool; otherwise one that mentions "success", "passed" or "completed" is
    a "success"; otherwise one that mentions "warning" or "deprecated" is a
    "warning"; otherwise the lower-cased tool decides (read, glob, grep:
    "discovery"; edit, update: "bugfix" when the output mentions "fix" or
    "bug" and "refactor" when not; write: "feature"), and "discovery" is
    the default. *)
Theorem classify_priority (toolName output : string) :
  let t := classifyObservationType toolName output in
  let tool := toLowerCase toolName in
  let errors := mentions ["error"; "failed"; "exception"] output in
  let successes := mentions ["success"; "passed"; "completed"] output in
  let warnings := mentions ["warning"; "deprecated"] output in
  tag t ∈ ObservationTypes
  ∧ (errors → t = problem)
  ∧ (¬ errors → successes → t = success)
  ∧ (¬ errors → ¬ successes → warnings → t = warning)
  ∧ (¬ errors → ¬ successes → ¬ warnings →
       (tool ∈ ["read"; "glob"; "grep"] → t = discovery)
       ∧ (tool ∈ ["edit"; "update"] → mentions ["fix"; "bug"] output → t = bugfix)
       ∧ (tool ∈ ["edit"; "update"] → ¬ mentions ["fix"; "bug"] output → t = refactor)
       ∧ (tool = "write" → t = feature)
       ∧ (tool ∉ ["read"; "glob"; "grep"; "edit"; "update"; "write"] → t = discovery)).
Proof.
  cbn zeta. split.
  { destruct (classifyObservationType toolName output); cbn; set_solver. }
  rewrite !not_mentions_existsb, !mentions_existsb.
  unfold classifyObservationType. cbn [existsb]. rewrite !orb_false_r, <- !orb_assoc.
  generalize (toLowerCase output) (toLowerCase toolName). intros lower tool.
  split; [by intros -> |]. split; [by intros -> -> |].
  split; [by intros -> -> -> |]. intros -> -> ->. cbn [orb]. repeat split.
  - intros Ht.
    repeat (apply elem_of_cons in Ht as [-> | Ht]; [reflexivity |]).
    by apply elem_of_nil in Ht.
  - intros Ht ->.
    repeat (apply elem_of_cons in Ht as [-> | Ht]; [reflexivity |]).
    by apply elem_of_nil in Ht.
  - intros Ht ->.
    repeat (apply elem_of_cons in Ht as [-> | Ht]; [reflexivity |]).
    by apply elem_of_nil in Ht.
  - by intros ->.
  - intros Ht.
    repeat match goal with
           | |- context [String.eqb tool ?k] =>
               destruct (String.eqb_spec tool k) as [Heq | _];
               [exfalso; apply Ht; rewrite Heq; set_solver |]
           end.
    reflexivity.
Qed.

End HelpersFacts.

(** ** Sorting and objects *)

Module ObjectFacts.

Section Sort.
Context {A : Type} (cmp : A → A → Z).

Lemma sort_insert_perm (x : A) (l : list A) : sort_insert cmp x l ≡ₚ x :: l.
Proof.
  induction l as [|y l IH]; [done |]. cbn [sort_insert].
  destruct (cmp x y <=? 0)%Z; [done |]. rewrite IH. apply Permutation_swap.
Qed.

Lemma sort_by_perm (l : list A) : sort_by cmp l ≡ₚ l.
Proof.
  induction l as [|x l IH]; [done |]. cbn [sort_by].
  by rewrite sort_insert_perm, IH.
Qed.

Lemma sort_by_length (l : list A) : length (sort_by cmp l) = length l.
Proof. by rewrite sort_by_perm. Qed.
End Sort.

Lemma filter_split_perm {A} (f g : A → bool) (l : list A) :
  (∀ x, g x = negb (f x)) → List.filter f l ++ List.filter g l ≡ₚ l.
Proof.
  intros Hfg. induction l as [|x l IH]; [done |]. cbn [List.filter].
  rewrite Hfg. destruct (f x); cbn [negb app].
  - by rewrite IH.
  - rewrite <- Permutation_middle. by rewrite IH.
Qed.

Lemma own_order_perm {A} (o : list (string * A)) : own_order o ≡ₚ o.
Proof.
  unfold own_order. rewrite sort_by_perm. apply filter_split_perm.
  intros [k v]. cbn [fst]. destruct (Js.array_index k) as [i|].
  - rewrite bool_decide_eq_false_2 by done. by rewrite bool_decide_eq_true_2.
  - rewrite bool_decide_eq_true_2 by done.
    rewrite bool_decide_eq_false_2; [done | by intros [? ?]].
Qed.

Lemma get_cons_ne k k' v o : k ≠ k' → get k ((k', v) :: o) = get k o.
Proof. intros H. cbn [get]. by destruct (String.eqb_spec k k'). Qed.

Lemma get_cons_eq k v o : get k ((k, v) :: o) = v.
Proof. cbn [get]. by rewrite String.eqb_refl. Qed.

Lemma get_app_notin k (o1 o2 : object) : k ∉ o1.*1 → get k (o1 ++ o2) = get k o2.
Proof.
  induction o1 as [|[k' v] o1 IH]; [done |]. intros Hnot.
  rewrite fmap_cons, not_elem_of_cons in Hnot. destruct Hnot as [Hne Hnot].
  rewrite <- app_comm_cons, get_cons_ne by done. by apply IH.
Qed.

Lemma get_filter k (f : string * value → bool) (o : object) :
  (∀ v, f (k, v) = true) → get k (List.filter f o) = get k o.
Proof.
  intros Hf. induction o as [|[k' v] o IH]; [done |]. cbn [List.filter].
  destruct (decide (k = k')) as [<- | Hne].
  - by rewrite Hf, !get_cons_eq.
  - rewrite (get_cons_ne k k') by done. destruct (f _); [|done].
    by rewrite get_cons_ne.
Qed.

(** a key that is no array index is read through [own_order] unchanged *)
Lemma get_own_order k (o : object) :
  Js.array_index k = None → get k (own_order o) = get k o.
Proof.
  intros Hk. unfold own_order. rewrite get_app_notin.
  - apply get_filter. intros v. cbn. by rewrite Hk, bool_decide_eq_true.
  - rewrite sort_by_perm. intros Hin.
    apply list_elem_of_fmap in Hin as ([k' v] & -> & Hin).
    apply list_elem_of_In, filter_In in Hin as [_ Hin]. cbn [fst] in Hin, Hk.
    rewrite Hk in Hin. apply bool_decide_eq_true in Hin. by destruct Hin.
Qed.

Lemma obj_set_keys {A} k (v : A) (o : list (string * A)) :
  (obj_set k v o).*1 = if decide (k ∈ o.*1) then o.*1 else o.*1 ++ [k].
Proof.
  induction o as [|[k' v'] o IH]; [done |]. cbn [obj_set].
  destruct (String.eqb_spec k k') as [<- | Hne]; rewrite !fmap_cons; cbn [fst].
  - rewrite decide_True by set_solver. done.
  - rewrite IH. destruct (decide (k ∈ o.*1)).
    + rewrite decide_True by set_solver. done.
    + rewrite decide_False by set_solver. done.
Qed.

Lemma obj_set_NoDup {A} k (v : A) (o : list (string * A)) :
  NoDup o.*1 → NoDup (obj_set k v o).*1.
Proof.
  intros H. rewrite obj_set_keys. destruct (decide _); [done |].
  apply NoDup_app. split; [done |]. split; [set_solver | apply NoDup_singleton].
Qed.

Lemma get_obj_set_eq k v (o : object) : get k (obj_set k v o) = v.
Proof.
  induction o as [|[k' v'] o IH]; cbn [obj_set]; [apply get_cons_eq |].
  destruct (String.eqb_spec k k') as [<- | Hne]; [apply get_cons_eq |].
  by rewrite get_cons_ne.
Qed.

Lemma get_obj_set_ne k k' v (o : object) :
  k ≠ k' → get k (obj_set k' v o) = get k o.
Proof.
  intros Hne. induction o as [|[k'' v''] o IH]; cbn [obj_set].
  - by rewrite get_cons_ne.
  - destruct (String.eqb_spec k' k'') as [<- | Hne'].
    + by rewrite !get_cons_ne.
    + destruct (decide (k = k'')) as [<- | ?]; [by rewrite !get_cons_eq |].
      by rewrite !get_cons_ne.
Qed.

Lemma assign_cons {A} k (v : A) (a b : list (string * A)) :
  assign a ((k, v) :: b) = assign (obj_set k v a) b.
Proof. reflexivity. Qed.

Lemma assign_NoDup (a b : object) : NoDup a.*1 → NoDup (assign a b).*1.
Proof.
  revert a. induction b as [|[k v] b IH]; intros a Ha; [done |].
  rewrite assign_cons. apply IH. by apply obj_set_NoDup.
Qed.

Lemma get_assign_notin k (a b : object) : k ∉ b.*1 → get k (assign a b) = get k a.
Proof.
  revert a. induction b as [|[k' v] b IH]; intros a Hk; [done |].
  rewrite fmap_cons, not_elem_of_cons in Hk. destruct Hk as [Hne Hk].
  rewrite assign_cons, IH by done. by apply get_obj_set_ne.
Qed.

Lemma get_assign_in k (a b : object) :
  NoDup b.*1 → k ∈ b.*1 → get k (assign a b) = get k b.
Proof.
  revert a. induction b as [|[k' v] b IH]; intros a Hnd Hk; [by apply elem_of_nil in Hk |].
  rewrite fmap_cons in Hnd, Hk. apply NoDup_cons in Hnd as [Hfresh Hnd].
  rewrite assign_cons. cbn [fst] in *.
  destruct (decide (k = k')) as [-> | Hne].
  - rewrite get_assign_notin by done. by rewrite get_obj_set_eq, get_cons_eq.
  - rewrite get_cons_ne by done. apply IH; [done | set_solver].
Qed.

Lemma assign_keys_l k (a b : object) : k ∈ a.*1 → k ∈ (assign a b).*1.
Proof.
  revert a. induction b as [|[k' v] b IH]; intros a Hk; [done |].
  rewrite assign_cons. apply IH. rewrite obj_set_keys.
  destruct (decide _); set_solver.
Qed.

Lemma assign_keys_r k (a b : object) : k ∈ b.*1 → k ∈ (assign a b).*1.
Proof.
  revert a. induction b as [|[k' v] b IH]; intros a Hk; [by apply elem_of_nil in Hk |].
  rewrite fmap_cons in Hk. cbn [fst] in Hk. rewrite assign_cons.
  apply elem_of_cons in Hk as [-> | Hk]; [|by apply IH].
  apply assign_keys_l. rewrite obj_set_keys. destruct (decide _); set_solver.
Qed.

End ObjectFacts.

(** ** compression.ts *)

Module CompressionFacts.
Import Js Compression JsFacts.

Lemma truncateToTarget_short (text : string) :
  String.length text ≤ 2000 → truncateToTarget text = text.
Proof.
  intros H. unfold truncateToTarget, TARGET_COMPRESSED_SIZE.
  by rewrite (proj2 (Nat.leb_le _ _) H).
Qed.

Lemma truncateToTarget_long (text : string) :
  2000 < String.length text →
  truncateToTarget text = slice0 2000 text +:+ nl +:+ "... (truncated)".
Proof.
  intros H. unfold truncateToTarget, TARGET_COMPRESSED_SIZE.
  destruct (Nat.leb_spec (String.length text) 2000); [lia | done].
Qed.

Lemma truncateToTarget_length (text : string) :
  String.length (truncateToTarget text) ≤ 2016.
Proof.
  destruct (decide (String.length text ≤ 2000)) as [H|H].
  - rewrite truncateToTarget_short; lia.
  - rewrite truncateToTarget_long by lia.
    rewrite !str_length_app, length_slice0.
    change (String.length nl) with 1.
    change (String.length "... (truncated)") with 15. lia.
Qed.

Lemma compress_large_unfold tool input output :
  3000 ≤ String.length output →
  compressToolOutput tool input output true =
    rbind (strategy (toLowerCase tool) input output)
          (λ c, Ok {| compressed := truncateToTarget c; wasCompressed := true;
                      originalSize := String.length output |}).
Proof.
  intros H. unfold compressToolOutput, COMPRESSION_THRESHOLD.
  destruct (Nat.ltb_spec (String.length output) 3000); [lia | done].
Qed.

(** C3.  With compression disabled, or on a text shorter than the
    threshold of 3000 characters, [compressToolOutput] returns the text
    unchanged, [wasCompressed = false] and [originalSize] the length of the
    text, whatever the tool and the descriptor; so an oversized text with
    compression disabled comes back as it was. *)
Theorem compress_unchanged tool input output autoCompress :
  autoCompress = false ∨ String.length output < 3000 →
  compressToolOutput tool input output autoCompress =
    Ok {| compressed := output; wasCompressed := false;
          originalSize := String.length output |}.
Proof.
  intros H. unfold compressToolOutput, COMPRESSION_THRESHOLD.
  destruct H as [-> | H]; [done |].
  rewrite (proj2 (Nat.ltb_lt _ _) H). by rewrite orb_true_r.
Qed.

Lemma compress_unchanged_witness :
  compressToolOutput "read" (Some [("file", VStr "test.ts")])
                     (repeat_char "x" 5000) false =
    Ok {| compressed := repeat_char "x" 5000; wasCompressed := false;
          originalSize := String.length (repeat_char "x" 5000) |}.
Proof. apply compress_unchanged. left. reflexivity. Defined.

(** C9.  Whenever [compressToolOutput] returns [wasCompressed = true], the
    returned text is the strategy's intermediate result passed through
    [truncateToTarget]: it has at most 2016 characters, it is the first 2000
    characters followed by the 16-character marker exactly when the
    intermediate result exceeded 2000 characters, and it is the intermediate
    result itself otherwise. *)
Theorem compressed_at_most_2016 tool input output autoCompress r :
  compressToolOutput tool input output autoCompress = Ok r →
  wasCompressed r = true →
  ∃ mid,
    strategy (toLowerCase tool) input output = Ok mid
    ∧ String.length (compressed r) ≤ 2016
    ∧ String.length (nl +:+ "... (truncated)") = 16
    ∧ (2000 < String.length mid ↔
         compressed r = slice0 2000 mid +:+ nl +:+ "... (truncated)")
    ∧ (String.length mid ≤ 2000 → compressed r = mid).
Proof.
  intros Hrun Hc. unfold compressToolOutput in Hrun.
  destruct (negb autoCompress || _).
  { injection Hrun as <-. discriminate Hc. }
  destruct (strategy _ _ _) as [mid|e] eqn:Hmid; [|discriminate Hrun].
  injection Hrun as <-. cbn [compressed]. exists mid.
  split; [done |]. split; [apply truncateToTarget_length |].
  split; [done |].
  assert (Hlen : String.length (slice0 2000 mid +:+ nl +:+ "... (truncated)")
                 = 2000 `min` String.length mid + 16).
  { rewrite !str_length_app, length_slice0. reflexivity. }
  destruct (decide (String.length mid ≤ 2000)) as [H|H].
  - rewrite truncateToTarget_short by done. split; [split |]; try done; try lia.
    intros Heq. apply (f_equal String.length) in Heq. rewrite Hlen in Heq. lia.
  - rewrite truncateToTarget_long by lia. split; [split |]; try done; lia.
Qed.

Lemma compressed_at_most_2016_witness :
  ∃ mid,
    strategy (toLowerCase "task") None (repeat_char "x" 3000) = Ok mid
    ∧ String.length (truncateToTarget (repeat_char "x" 3000)) ≤ 2016
    ∧ String.length (nl +:+ "... (truncated)") = 16
    ∧ (2000 < String.length mid ↔
         truncateToTarget (repeat_char "x" 3000)
         = slice0 2000 mid +:+ nl +:+ "... (truncated)")
    ∧ (String.length mid ≤ 2000 → truncateToTarget (repeat_char "x" 3000) = mid).
Proof.
  apply (compressed_at_most_2016 "task" None (repeat_char "x" 3000) true
           {| compressed := truncateToTarget (repeat_char "x" 3000);
              wasCompressed := true; originalSize := 3000 |});
    vm_compute; reflexivity.
Defined.

(** *** Strategies return on typed descriptors *)

Lemma bind_returns {A B} (m : result A) (f : A → result B) :
  (∃ a, m = Ok a) → (∀ a, ∃ b, f a = Ok b) → ∃ b, (m ≫= f) = Ok b.
Proof. intros [a ->] Hf. apply Hf. Qed.

Lemma typed_input_field input k :
  typed_input input = true →
  k ∈ ["file_path"; "filePath"; "command"; "pattern"] →
  string_or_absent (opt_get k input) = true.
Proof.
  unfold typed_input. rewrite forallb_forall. intros H Hk.
  apply H. by apply list_elem_of_In.
Qed.

Lemma label_returns (prefix : string) (v : value) :
  string_or_absent v = true →
  ∃ l, (if truthy v then p ← ToString v; Ok [prefix +:+ p] else Ok []) = Ok l.
Proof.
  destruct v; try discriminate; intros _; simpl; try destruct (nonempty _); eauto.
Qed.

Lemma vor_typed (a b : value) :
  string_or_absent a = true → string_or_absent b = true →
  string_or_absent (vor a b) = true.
Proof. unfold vor. by destruct (truthy a). Qed.

Lemma compressFileRead_returns input output :
  typed_input input = true → ∃ c, compressFileRead input output = Ok c.
Proof.
  intros H. unfold compressFileRead. apply bind_returns; [|eauto].
  apply label_returns, vor_typed; apply typed_input_field; set_solver.
Qed.

Lemma compressBashOutput_returns input output :
  typed_input input = true → ∃ c, compressBashOutput input output = Ok c.
Proof.
  intros H. unfold compressBashOutput. apply bind_returns; [|eauto].
  assert (Hc : string_or_absent (opt_get "command" input) = true)
    by (apply typed_input_field; set_solver).
  destruct (opt_get "command" input); try discriminate; simpl;
    try destruct (nonempty _); eauto.
Qed.

Lemma compressGrepOutput_returns input output :
  typed_input input = true → ∃ c, compressGrepOutput input output = Ok c.
Proof.
  intros H. unfold compressGrepOutput. apply bind_returns; [|eauto].
  apply label_returns, typed_input_field; set_solver.
Qed.

Lemma group_by_dir_returns lines dirs :
  forallb (λ line, negb (existsb (String.eqb (glob_dir line)) Object_prototype_keys))
          lines = true →
  ∃ d, group_by_dir lines dirs = Ok d.
Proof.
  revert dirs. induction lines as [|line lines IH]; intros dirs H; [by eexists|].
  apply andb_prop in H as [Hline Hrest]. cbn [group_by_dir].
  apply negb_true_iff in Hline. rewrite Hline, andb_false_r. by apply IH.
Qed.

Lemma compressGlobOutput_returns input output :
  typed_input input = true → plain_dirs output = true →
  ∃ c, compressGlobOutput input output = Ok c.
Proof.
  intros H Hd. unfold compressGlobOutput. apply bind_returns.
  - apply label_returns, typed_input_field; set_solver.
  - intros pat. apply bind_returns; [|eauto]. by apply group_by_dir_returns.
Qed.

Lemma compressEditOutput_returns input output :
  typed_input input = true → ∃ c, compressEditOutput input output = Ok c.
Proof.
  intros H. unfold compressEditOutput.
  assert (Hp : string_or_absent
                 (vor (opt_get "file_path" input) (opt_get "filePath" input)) = true)
    by (apply vor_typed; apply typed_input_field; set_solver).
  destruct (vor _ _); try discriminate; simpl; try destruct (nonempty _); eauto.
Qed.

Lemma strategy_returns tool input output :
  typed_input input = true → plain_dirs output = true →
  ∃ mid, strategy tool input output = Ok mid.
Proof.
  intros H Hd. unfold strategy.
  repeat (case_match;
          eauto using compressFileRead_returns, compressBashOutput_returns,
            compressGrepOutput_returns, compressGlobOutput_returns,
            compressEditOutput_returns).
Qed.

(** C1, as the code has it.  On a descriptor whose [file_path], [filePath],
    [command] and [pattern] fields are strings or absent and a text of at
    least 3000 characters that lists no path directly inside a directory
    named like a property of [Object.prototype], with compression enabled,
    [compressToolOutput] returns [wasCompressed = true], [originalSize] the
    length of the text, and a compressed text of at most 2016 characters:
    the target size of 2000 plus the 16-character marker. *)
Theorem compress_large_bounded tool input output :
  3000 ≤ String.length output →
  typed_input input = true →
  plain_dirs output = true →
  ∃ c,
    compressToolOutput tool input output true =
      Ok {| compressed := c; wasCompressed := true;
            originalSize := String.length output |}
    ∧ String.length c ≤ 2016.
Proof.
  intros Hlen Hin Hd. rewrite compress_large_unfold by done.
  destruct (strategy_returns (toLowerCase tool) input output Hin Hd) as [mid ->].
  eexists. split; [reflexivity |]. apply truncateToTarget_length.
Qed.

Lemma compress_large_bounded_witness :
  ∃ c,
    compressToolOutput "Bash" (Some [("command", VStr "npm test")])
                       (repeat_char "x" 3000) true =
      Ok {| compressed := c; wasCompressed := true;
            originalSize := String.length (repeat_char "x" 3000) |}
    ∧ String.length c ≤ 2016.
Proof.
  apply compress_large_bounded; [vm_compute; lia | reflexivity | vm_compute; reflexivity].
Defined.

(** C1, as stated, fails: the text of 3000 letters given to the tool
    [task] comes back compressed with 2016 characters, above the target
    size of 2000. *)
Lemma compress_exceeds_target :
  ∃ r,
    compressToolOutput "task" None (repeat_char "x" 3000) true = Ok r
    ∧ 3000 ≤ String.length (repeat_char "x" 3000)
    ∧ wasCompressed r = true
    ∧ String.length (compressed r) = 2016
    ∧ ¬ String.length (compressed r) ≤ TARGET_COMPRESSED_SIZE.
Proof.
  eexists. split; [vm_compute; reflexivity |].
  split; [vm_compute; lia |]. split; [reflexivity |].
  split; [vm_compute; reflexivity |]. vm_compute. lia.
Qed.

End CompressionFacts.

(** ** lock.ts *)

Module LockFacts.
Import Proc Lock.

Section Lock.
Context {Σ T : Type}.

(** A lock that stays held makes the call fail before the unit of work
    runs. *)
Lemma withMindLock_contended (memoryPath : string) (fn : M Σ T) (w : world Σ) :
  memoryPath +:+ ".lock" ∈ held w →
  ∃ e, withMindLock memoryPath fn w
       = (Throw e, World (held w) ({[memoryPath +:+ ".lock"]} ∪ lockfiles w)
                         (trace w) (data w)).
Proof.
  intros Hheld. unfold withMindLock, bind, mkdir, ret, touch, lockfile_lock. simpl.
  destruct (decide _) as [_|Hno]; [|set_solver].
  destruct (decide _) as [_|Hno]; [|done]. eauto.
Qed.

(** With the lock free, the unit of work runs in the world left by the
    acquisition, and the release follows it. *)
Lemma withMindLock_free (memoryPath : string) (fn : M Σ T) (w : world Σ) :
  let lockPath := memoryPath +:+ ".lock" in
  let w1 := World ({[lockPath]} ∪ held w) ({[lockPath]} ∪ lockfiles w)
                  (trace w ++ [Acquired lockPath]) (data w) in
  lockPath ∉ held w →
  lockPath ∈ held (fn w1).2 →
  withMindLock memoryPath fn w =
    ((fn w1).1,
     World (held (fn w1).2 ∖ {[lockPath]}) (lockfiles (fn w1).2)
           (trace (fn w1).2 ++ [Released lockPath]) (data (fn w1).2)).
Proof.
  intros lockPath w1 Hfree Hkept.
  unfold withMindLock, bind, mkdir, ret, touch, lockfile_lock, try_finally. simpl.
  destruct (decide _) as [_|Hno]; [|set_solver].
  destruct (decide _) as [Hyes|_]; [done|].
  fold lockPath. fold w1. destruct (fn w1) as [r w2] eqn:Hfn.
  unfold release. simpl in Hkept. by destruct (decide _).
Qed.

(** C4.  When the lock is free, [withMindLock] acquires it before the unit
    of work runs: the unit of work starts in a world where the lock is held
    and [Acquired] is the last event.  Whatever the unit of work produces,
    a value or a thrown error, is what [withMindLock] produces, and the lock
    is released after it, once: the lock leaves [held] and a single
    [Released] event follows the events of the unit of work. *)
Theorem withMindLock_acquires_and_releases
    (memoryPath : string) (fn : M Σ T) (w : world Σ) :
  let lockPath := memoryPath +:+ ".lock" in
  let w1 := World ({[lockPath]} ∪ held w) ({[lockPath]} ∪ lockfiles w)
                  (trace w ++ [Acquired lockPath]) (data w) in
  lockPath ∉ held w →
  lockPath ∈ held (fn w1).2 →
  lockPath ∈ held w1
  ∧ withMindLock memoryPath fn w =
      ((fn w1).1,
       World (held (fn w1).2 ∖ {[lockPath]}) (lockfiles (fn w1).2)
             (trace (fn w1).2 ++ [Released lockPath]) (data (fn w1).2))
  ∧ (∀ v, (fn w1).1 = Ok v → (withMindLock memoryPath fn w).1 = Ok v)
  ∧ (∀ e, (fn w1).1 = Throw e → (withMindLock memoryPath fn w).1 = Throw e).
Proof.
  intros lockPath w1 Hfree Hkept.
  pose proof (withMindLock_free memoryPath fn w Hfree Hkept) as Hrun.
  split; [set_solver |]. split; [done |]. rewrite Hrun.
  split; intros ? Heq; exact Heq.
Qed.

End Lock.

(** the lock wrapper around a unit of work that leaves the locks alone *)
Lemma withMindLock_run {Σ T} (memoryPath : string) (fn : M Σ T) (w : world Σ)
    (r : result T) (d' : Σ) :
  memoryPath +:+ ".lock" ∉ held w →
  (∀ h lf t, fn (World h lf t (data w)) = (r, World h lf t d')) →
  withMindLock memoryPath fn w
  = (r, World (held w ∖ {[memoryPath +:+ ".lock"]})
              ({[memoryPath +:+ ".lock"]} ∪ lockfiles w)
              (trace w ++ [Acquired (memoryPath +:+ ".lock");
                           Released (memoryPath +:+ ".lock")]) d').
Proof.
  intros Hfree Hfn.
  rewrite withMindLock_free by (rewrite ?Hfn; set_solver).
  rewrite !Hfn. cbn [fst snd held lockfiles trace data].
  rewrite <- app_assoc. f_equal. f_equal. set_solver.
Qed.

Lemma withMindLock_acquires_and_releases_witness :
  let fn : M unit nat := throw (Err "Error" "boom") in
  let w := World ∅ ∅ [] tt in
  let w1 := World ({["/p/mind.mv2.lock"]} ∪ ∅) ({["/p/mind.mv2.lock"]} ∪ ∅)
                  ([] ++ [Acquired "/p/mind.mv2.lock"]) tt in
  "/p/mind.mv2.lock" ∈ held w1
  ∧ withMindLock "/p/mind.mv2" fn w =
      ((fn w1).1,
       World (held (fn w1).2 ∖ {["/p/mind.mv2.lock"]}) (lockfiles (fn w1).2)
             (trace (fn w1).2 ++ [Released "/p/mind.mv2.lock"]) (data (fn w1).2))
  ∧ (∀ v, (fn w1).1 = Ok v → (withMindLock "/p/mind.mv2" fn w).1 = Ok v)
  ∧ (∀ e, (fn w1).1 = Throw e → (withMindLock "/p/mind.mv2" fn w).1 = Throw e).
Proof.
  intros fn w w1.
  apply (withMindLock_acquires_and_releases "/p/mind.mv2" fn w).
  - simpl. apply not_elem_of_empty.
  - simpl. apply elem_of_union_l, elem_of_singleton_2. reflexivity.
Defined.

End LockFacts.

(** ** mind.ts: remember *)

Module RememberFacts.
Import Js Proc Lock Mind ObjectFacts.

Lemma effectiveSource_valid (input : RememberInput) :
  effectiveSource input = "opencode" ∨ effectiveSource input = "claude-code".
Proof.
  unfold effectiveSource. destruct (opt_get _ _) as [| | | |raw| |]; auto.
  destruct (nonempty raw); [|auto]. cbn [andb VALID_SOURCES existsb].
  destruct (String.eqb_spec raw "opencode") as [-> | _]; [auto |].
  destruct (String.eqb_spec raw "claude-code") as [-> | _]; auto.
Qed.

Lemma effectiveSource_kept (input : RememberInput) :
  opt_get "source" (input_metadata input) = VStr "opencode"
  ∨ opt_get "source" (input_metadata input) = VStr "claude-code" →
  VStr (effectiveSource input) = opt_get "source" (input_metadata input).
Proof. unfold effectiveSource. by intros [-> | ->]. Qed.

Lemma effectiveSource_default (input : RememberInput) :
  opt_get "source" (input_metadata input) ≠ VStr "opencode" →
  opt_get "source" (input_metadata input) ≠ VStr "claude-code" →
  effectiveSource input = "opencode".
Proof.
  unfold effectiveSource. intros H1 H2.
  destruct (opt_get _ _) as [| | | |raw| |]; auto.
  destruct (nonempty raw); [|auto]. cbn [andb VALID_SOURCES existsb].
  destruct (String.eqb_spec raw "opencode") as [-> | _]; [done |].
  destruct (String.eqb_spec raw "claude-code") as [-> | _]; done.
Qed.

Lemma observation_source mind input id now :
  get "source" (obs_metadata (observation_of mind input id now))
  = VStr (effectiveSource input).
Proof.
  cbn [observation_of obs_metadata]. unfold spread.
  rewrite get_own_order by reflexivity.
  rewrite get_assign_in; [reflexivity | | set_solver].
  cbn. repeat (apply NoDup_cons; split; [set_solver |]). apply NoDup_nil_2.
Qed.

Lemma observation_keys mind input id now :
  NoDup (default [] (input_metadata input)).*1 →
  NoDup (obs_metadata (observation_of mind input id now)).*1
  ∧ "source" ∈ (obs_metadata (observation_of mind input id now)).*1.
Proof.
  intros Hnd. cbn [observation_of obs_metadata]. unfold spread.
  rewrite (fmap_Permutation fst _ _ (own_order_perm _)). split.
  - by apply assign_NoDup.
  - apply assign_keys_r. set_solver.
Qed.

Lemma frame_source mind input id now :
  NoDup (default [] (input_metadata input)).*1 →
  get "source" (metadata (frame_of mind input id now))
  = VStr (effectiveSource input).
Proof.
  intros Hnd. destruct (observation_keys mind input id now Hnd) as [Hk Hs].
  cbn [frame_of metadata]. unfold spread.
  rewrite get_own_order by reflexivity.
  rewrite get_assign_in by done. apply observation_source.
Qed.

(** C7.  On a store that opens, with the lock free, [remember] appends one
    frame to the store; the [source] in the metadata of that frame, and in
    the metadata of the observation it was built from, is "opencode" or
    "claude-code": the source of the input when that is one of the two, and
    "opencode" when the input has no source or another one. *)
Theorem remember_source (mind : Mind) (input : RememberInput) (id : string)
    (now : Z) (w : world fs) (size : N) (frames : list Frame) :
  let path := getMemoryPath mind in
  let frame := frame_of mind input id now in
  let raw := opt_get "source" (input_metadata input) in
  NoDup (default [] (input_metadata input)).*1 →
  path +:+ ".lock" ∉ held w →
  data w !! path = Some (File size (Valid frames)) →
  (remember mind input id now w).1 = Ok (of_nat (length frames))
  ∧ data (remember mind input id now w).2 !! path
    = Some (File size (Valid (frames ++ [frame])))
  ∧ (get "source" (metadata frame) = VStr "opencode"
     ∨ get "source" (metadata frame) = VStr "claude-code")
  ∧ (raw = VStr "opencode" ∨ raw = VStr "claude-code" →
     get "source" (metadata frame) = raw)
  ∧ (raw ≠ VStr "opencode" → raw ≠ VStr "claude-code" →
     get "source" (metadata frame) = VStr "opencode")
  ∧ get "source" (obs_metadata (observation_of mind input id now))
    = get "source" (metadata frame).
Proof.
  intros path frame raw Hnd Hfree Hstore.
  unfold remember, withLock. fold path. fold frame.
  rewrite (LockFacts.withMindLock_run path _ w (Ok (of_nat (length frames)))
             (<[path := File size (Valid (frames ++ [frame]))]> (data w)));
    [|done|].
  2: { intros h l t. unfold bind, use, put, action. cbn [data held lockfiles trace].
       rewrite Hstore. cbn [data held lockfiles trace handle_path].
       by rewrite Hstore. }
  cbn [fst snd data].
  split; [done |]. split; [by rewrite lookup_insert_eq |].
  subst frame. rewrite observation_source, frame_source by done.
  split; [destruct (effectiveSource_valid input) as [-> | ->]; auto |].
  split; [apply effectiveSource_kept |]. split; [|done].
  intros H1 H2. by rewrite effectiveSource_default.
Qed.

Lemma remember_source_witness :
  let mind := {| memvid := {| handle_path := "/p/.claude/mind.mv2" |};
                 config := DEFAULT_CONFIG; sessionId := "0123456789abcdef";
                 directory := "/p"; initialized := true;
                 sessionStartTime := 1000 |} in
  let input := {| input_type := Helpers.discovery; input_summary := "read done";
                  input_content := "text"; input_tool := Some "read";
                  input_metadata := Some [("source", VStr "cursor");
                                          ("compressed", VBool false)] |} in
  let w := World ∅ ∅ [] {["/p/.claude/mind.mv2" := File 0 (Valid [])]} in
  let frame := frame_of mind input "00ff" 2000 in
  (remember mind input "00ff" 2000 w).1 = Ok (of_nat 0)
  ∧ data (remember mind input "00ff" 2000 w).2 !! "/p/.claude/mind.mv2"
    = Some (File 0 (Valid ([] ++ [frame])))
  ∧ (get "source" (metadata frame) = VStr "opencode"
     ∨ get "source" (metadata frame) = VStr "claude-code")
  ∧ (VStr "cursor" = VStr "opencode" ∨ VStr "cursor" = VStr "claude-code" →
     get "source" (metadata frame) = VStr "cursor")
  ∧ (VStr "cursor" ≠ VStr "opencode" → VStr "cursor" ≠ VStr "claude-code" →
     get "source" (metadata frame) = VStr "opencode")
  ∧ get "source" (obs_metadata (observation_of mind input "00ff" 2000))
    = get "source" (metadata frame).
Proof.
  intros mind input w frame.
  apply (remember_source mind input "00ff" 2000 w 0 []).
  - simpl. repeat (apply NoDup_cons; split; [set_solver |]). apply NoDup_nil_2.
  - simpl. apply not_elem_of_empty.
  - reflexivity.
Defined.

End RememberFacts.

(** ** mind.ts: open and pruneBackups *)

Module OpenFacts.
Import Js Proc Lock Mind JsFacts ObjectFacts.

Lemma backupPath_ne (memoryPath : string) (now : Z) :
  backupPath_of memoryPath now ≠ memoryPath.
Proof.
  unfold backupPath_of. intros Heq. apply (f_equal String.length) in Heq.
  rewrite !str_length_app in Heq. change (String.length ".backup-") with 8 in Heq. lia.
Qed.

Lemma unlink_each_run (l : list Backup) h lf t (d : fs) :
  unlink_each l (World h lf t d) = (Ok tt, World h lf t (after_unlinks l d)).
Proof.
  revert d. induction l as [|b l IH]; intros d; [done |].
  cbn [unlink_each after_unlinks]. unfold bind, try_catch, unlinkSync, action, ret.
  cbn [data held lockfiles trace].
  destruct (d !! path b) as [[size content|]|]; apply IH.
Qed.

Lemma pruneBackups_run (memoryPath : string) (keepCount : nat) h lf t (d : fs) :
  pruneBackups memoryPath keepCount (World h lf t d)
  = (Ok tt, World h lf t
       (after_unlinks
          (drop keepCount (backups_of memoryPath (entries_of (dirname memoryPath) d)))
          d)).
Proof.
  unfold pruneBackups, try_catch, bind, readdirSync, gets, action.
  cbn [data held lockfiles trace]. by rewrite unlink_each_run.
Qed.

(** *** Directory entries *)

Lemma child_name_spec (dir path name : string) :
  child_name dir path = Some name →
  path = dir_prefix dir +:+ name ∧ prefix "/" name = false.
Proof.
  unfold child_name.
  destruct (prefix (dir_prefix dir) path) eqn:Hpre; [|done].
  apply prefix_spec in Hpre as [rest ->]. rewrite slice_from_app.
  destruct (nonempty rest && negb (includes "/" rest)) eqn:Hok; [|done].
  intros [= <-]. split; [done |].
  apply andb_prop in Hok as [_ Hinc]. apply negb_true_iff in Hinc.
  destruct rest as [|a rest]; [done |]. cbn [includes] in Hinc.
  by apply orb_false_elim in Hinc as [Hinc _].
Qed.

Lemma resolve_child (dir name : string) :
  prefix "/" name = false → resolve dir name = dir_prefix dir +:+ name.
Proof. unfold resolve. by intros ->. Qed.

Lemma child_name_resolve (dir path name : string) :
  child_name dir path = Some name → path = resolve dir name.
Proof.
  intros H. apply child_name_spec in H as [-> Hname]. by rewrite resolve_child.
Qed.

Lemma elem_of_entries_of (dir : string) (d : fs) (name : string) :
  name ∈ entries_of dir d ↔
  is_Some (d !! resolve dir name) ∧ child_name dir (resolve dir name) = Some name.
Proof.
  unfold entries_of. rewrite list_elem_of_omap. split.
  - intros (path & Hin & Hchild).
    apply list_elem_of_fmap in Hin as ([path' node] & -> & Hin).
    apply elem_of_map_to_list in Hin. cbn [fst] in Hchild.
    rewrite <- (child_name_resolve _ _ _ Hchild). eauto.
  - intros [[node Hnode] Hchild]. exists (resolve dir name). split; [|done].
    apply list_elem_of_fmap. exists (resolve dir name, node).
    split; [done |]. by apply elem_of_map_to_list.
Qed.

Lemma NoDup_omap_inj {A B} (f : A → option B) (l : list A) :
  (∀ x y z, f x = Some z → f y = Some z → x = y) →
  NoDup l → NoDup (omap f l).
Proof.
  intros Hinj. induction 1 as [|x l Hx Hl IH]; [constructor |].
  simpl. destruct (f x) as [z|] eqn:Hfx; [|done].
  constructor; [|done]. rewrite list_elem_of_omap. intros (y & Hy & Hfy).
  by rewrite (Hinj x y z) in Hx.
Qed.

Lemma entries_of_NoDup (dir : string) (d : fs) : NoDup (entries_of dir d).
Proof.
  apply NoDup_omap_inj; [|apply NoDup_fst_map_to_list].
  intros x y z Hx Hy.
  by rewrite (child_name_resolve _ _ _ Hx), (child_name_resolve _ _ _ Hy).
Qed.

Lemma resolve_child_inj (dir : string) (d1 d2 : fs) (n1 n2 : string) :
  n1 ∈ entries_of dir d1 → n2 ∈ entries_of dir d2 →
  resolve dir n1 = resolve dir n2 → n1 = n2.
Proof.
  intros [_ H1]%elem_of_entries_of [_ H2]%elem_of_entries_of Heq.
  rewrite Heq in H1. congruence.
Qed.

(** *** Unlinking *)

Lemma after_unlinks_lookup (l : list Backup) (d : fs) (q : string) :
  after_unlinks l d !! q
  = if bool_decide (q ∈ path <$> l) && is_file d q then None else d !! q.
Proof.
  revert d. induction l as [|b l IH]; intros d.
  { rewrite bool_decide_eq_false_2 by apply not_elem_of_nil. done. }
  cbn [after_unlinks]. rewrite IH, fmap_cons. unfold is_file.
  destruct (decide (q = path b)) as [-> | Hne].
  - rewrite (bool_decide_eq_true_2 (path b ∈ path b :: _)) by set_solver.
    destruct (d !! path b) as [[size content|]|] eqn:Hb; rewrite ?Hb;
      rewrite ?lookup_delete_eq, ?andb_false_r; done.
  - assert (Hsame : match d !! path b with
                    | Some (File _ _) => delete (path b) d
                    | _ => d
                    end !! q = d !! q).
    { destruct (d !! path b) as [[? ?|]|]; [by rewrite lookup_delete_ne | done..]. }
    rewrite Hsame.
    by rewrite (bool_decide_ext (q ∈ path <$> l) (q ∈ path b :: (path <$> l)))
      by set_solver.
Qed.

(** *** The backups kept by [pruneBackups] *)

Section Prune.
Context (memoryPath : string) (keepCount : nat) (d : fs).

Let dir := dirname memoryPath.
Let is_backup := Regex.test (backupPattern (baseName_of memoryPath)).
Let sorted := backups_of memoryPath (entries_of dir d).
Let d' := after_unlinks (drop keepCount sorted) d.

Lemma sorted_names : name <$> sorted ≡ₚ backup_entries memoryPath d.
Proof.
  unfold sorted, backups_of, backup_entries. rewrite sort_by_perm.
  rewrite <- list_fmap_compose. fold dir. by rewrite list_fmap_id.
Qed.

Lemma sorted_path (b : Backup) : b ∈ sorted → path b = resolve dir (name b).
Proof.
  unfold sorted, backups_of. rewrite sort_by_perm.
  intros (f & -> & _)%list_elem_of_fmap. done.
Qed.

Lemma backup_entries_spec (fs0 : fs) (n : string) :
  n ∈ backup_entries memoryPath fs0 ↔ n ∈ entries_of dir fs0 ∧ is_backup n = true.
Proof.
  unfold backup_entries. rewrite list_elem_of_In, filter_In, <- list_elem_of_In.
  done.
Qed.

Lemma backup_entries_NoDup (fs0 : fs) : NoDup (backup_entries memoryPath fs0).
Proof.
  apply NoDup_ListNoDup, List.NoDup_filter, NoDup_ListNoDup, entries_of_NoDup.
Qed.

Lemma sorted_names_NoDup : NoDup (name <$> sorted).
Proof. rewrite sorted_names. apply backup_entries_NoDup. Qed.

Lemma dropped_path (n : string) :
  n ∈ entries_of dir d →
  resolve dir n ∈ path <$> drop keepCount sorted ↔
  n ∈ name <$> drop keepCount sorted.
Proof.
  intros Hn. rewrite !list_elem_of_fmap. split.
  - intros (b & Heq & Hb). exists b. split; [|done].
    assert (Hsorted : b ∈ sorted).
    { rewrite <- (take_drop keepCount sorted). set_solver. }
    rewrite (sorted_path b Hsorted) in Heq.
    apply (resolve_child_inj dir d d); [done | | done].
    assert (Hname : name b ∈ name <$> sorted) by by apply list_elem_of_fmap_2.
    rewrite sorted_names in Hname. by apply backup_entries_spec in Hname as [? _].
  - intros (b & -> & Hb). exists b. split; [|done]. symmetry.
    apply sorted_path. rewrite <- (take_drop keepCount sorted). set_solver.
Qed.

(** a regular file that is still a backup entry is one of the first
    [keepCount] of the sorted list *)
Lemma kept_files (n : string) :
  n ∈ backup_entries memoryPath d' →
  is_dir d (resolve dir n) = false →
  n ∈ name <$> take keepCount sorted.
Proof.
  intros [Hentry Hpat]%backup_entries_spec Hfile.
  apply elem_of_entries_of in Hentry as [[node Hnode] Hchild].
  unfold d' in Hnode. rewrite after_unlinks_lookup in Hnode.
  destruct (bool_decide _ && is_file d _) eqn:Hdel; [done |].
  assert (Hn : n ∈ entries_of dir d) by (apply elem_of_entries_of; eauto).
  assert (Hin : n ∈ name <$> sorted).
  { rewrite sorted_names. by apply backup_entries_spec. }
  rewrite <- (take_drop keepCount sorted), fmap_app, elem_of_app in Hin.
  destruct Hin as [Hin | Hin]; [done |]. exfalso.
  apply dropped_path in Hin; [|done].
  rewrite (bool_decide_eq_true_2 _ Hin) in Hdel. cbn [andb] in Hdel.
  unfold is_file in Hdel. unfold is_dir in Hfile. rewrite Hnode in Hdel, Hfile.
  by destruct node.
Qed.

Lemma kept_stay (n : string) :
  n ∈ name <$> take keepCount sorted → n ∈ backup_entries memoryPath d'.
Proof.
  intros Hin.
  assert (Hall : n ∈ name <$> sorted).
  { rewrite <- (take_drop keepCount sorted), fmap_app. set_solver. }
  rewrite sorted_names in Hall. apply backup_entries_spec in Hall as [Hn Hpat].
  apply backup_entries_spec. split; [|done].
  apply elem_of_entries_of in Hn as Hq. destruct Hq as [Hsome Hchild].
  apply elem_of_entries_of. split; [|done].
  unfold d'. rewrite after_unlinks_lookup.
  rewrite bool_decide_eq_false_2; [done |].
  rewrite dropped_path by done. intros Hdrop.
  pose proof sorted_names_NoDup as Hnd.
  rewrite <- (take_drop keepCount sorted), fmap_app in Hnd.
  apply NoDup_app in Hnd as (_ & Hdisj & _). by apply (Hdisj n).
Qed.

Lemma kept_count :
  backups_are_files memoryPath d = true →
  backup_entries memoryPath d' ≡ₚ name <$> take keepCount sorted.
Proof.
  intros Hfiles. apply NoDup_Permutation.
  - apply backup_entries_NoDup.
  - rewrite fmap_take. eapply sublist_NoDup; [apply sorted_names_NoDup |].
    apply sublist_take.
  - intros n. split; [|apply kept_stay]. intros Hn. apply kept_files; [done |].
    unfold backups_are_files in Hfiles. rewrite forallb_forall in Hfiles.
    apply negb_true_iff, Hfiles, list_elem_of_In.
    apply backup_entries_spec in Hn as [Hn Hpat]. apply backup_entries_spec.
    split; [|done]. apply elem_of_entries_of in Hn as [[node Hnode] Hchild].
    apply elem_of_entries_of. split; [|done].
    unfold d' in Hnode. rewrite after_unlinks_lookup in Hnode.
    destruct (_ && _); [done | eauto].
Qed.

Lemma kept_file_count :
  length (backup_files memoryPath d') ≤ keepCount.
Proof.
  transitivity (length (name <$> take keepCount sorted));
    [|rewrite length_fmap, length_take; lia].
  apply submseteq_length, NoDup_submseteq.
  - apply NoDup_ListNoDup, List.NoDup_filter, NoDup_ListNoDup, backup_entries_NoDup.
  - intros n [Hn Hfile]%list_elem_of_In%filter_In. apply list_elem_of_In in Hn.
    apply kept_files; [done |]. fold dir in Hfile.
    unfold is_file, d' in Hfile. rewrite after_unlinks_lookup in Hfile.
    unfold is_dir. destruct (_ && _); [done |].
    by destruct (d !! resolve dir n) as [[? ?|]|].
Qed.

End Prune.

Section Open.
Context (now : Z) (memoryPath : string) (h lf : gset string) (t : list event) (d : fs).

Let backupPath := backupPath_of memoryPath now.
Let fresh := File 0 (Valid []).

Lemma open_locked_absent :
  d !! memoryPath = None →
  open_locked now memoryPath (World h lf t d)
  = (Ok {| handle_path := memoryPath |}, World h lf t (<[memoryPath := fresh]> d)).
Proof.
  intros Hnone. unfold open_locked, bind, existsSync, gets, create, action.
  cbn [data held lockfiles trace]. rewrite Hnone.
  rewrite bool_decide_eq_false_2 by (by intros [? ?]). cbn [negb].
  cbn [data held lockfiles trace]. by rewrite ?Hnone.
Qed.

(** the files once the old store has been moved out of the way, or deleted
    when the backup path is taken by a directory *)
Lemma open_locked_corrupt (size : N) (msg : string) :
  d !! memoryPath = Some (File size (Broken msg)) →
  (size ≤ 100 * 1024 * 1024)%N →
  existsb (λ p, includes p msg) CORRUPTION_PATTERNS = true →
  open_locked now memoryPath (World h lf t d)
  = (Ok {| handle_path := memoryPath |},
     World h lf t
       (<[memoryPath := fresh]>
          (if is_dir d backupPath then delete memoryPath d
           else <[backupPath := File size (Broken msg)]> (delete memoryPath d)))).
Proof.
  intros Hfile Hsize Hsig.
  unfold open_locked, bind, existsSync, statSync_size, gets, try_catch, use, action.
  cbn [data held lockfiles trace]. rewrite Hfile.
  rewrite bool_decide_eq_true_2 by eauto. cbn [negb].
  cbn [data held lockfiles trace]. rewrite ?Hfile.
  destruct (N.ltb_spec (MAX_FILE_SIZE_MB * (1024 * 1024)) size) as [Hbig | _].
  { unfold MAX_FILE_SIZE_MB in Hbig. lia. }
  cbn [data held lockfiles trace]. rewrite ?Hfile. cbn [emessage]. rewrite Hsig.
  unfold renameSync, unlinkSync, create, action, ret.
  cbn [data held lockfiles trace]. rewrite ?Hfile. fold backupPath. unfold is_dir.
  destruct (d !! backupPath) as [[bsize bcontent|]|] eqn:Hb;
    cbn [data held lockfiles trace]; rewrite ?Hfile;
    cbn [data held lockfiles trace].
  - rewrite lookup_insert_ne by apply backupPath_ne.
    by rewrite lookup_delete_eq.
  - by rewrite lookup_delete_eq.
  - rewrite lookup_insert_ne by apply backupPath_ne.
    by rewrite lookup_delete_eq.
Qed.

Lemma open_locked_unrecognized (size : N) (msg : string) :
  d !! memoryPath = Some (File size (Broken msg)) →
  (size ≤ 100 * 1024 * 1024)%N →
  existsb (λ p, includes p msg) CORRUPTION_PATTERNS = false →
  open_locked now memoryPath (World h lf t d)
  = (Throw (Err "Error" msg), World h lf t d).
Proof.
  intros Hfile Hsize Hsig.
  unfold open_locked, bind, existsSync, statSync_size, gets, try_catch, use, action.
  cbn [data held lockfiles trace]. rewrite Hfile.
  rewrite bool_decide_eq_true_2 by eauto. cbn [negb].
  cbn [data held lockfiles trace]. rewrite ?Hfile.
  destruct (N.ltb_spec (MAX_FILE_SIZE_MB * (1024 * 1024)) size) as [Hbig | _].
  { unfold MAX_FILE_SIZE_MB in Hbig. lia. }
  cbn [data held lockfiles trace]. rewrite ?Hfile. cbn [emessage]. by rewrite Hsig.
Qed.

End Open.

Lemma pruneBackups_ok (memoryPath : string) (keepCount : nat) (w : world fs) :
  pruneBackups memoryPath keepCount w
  = (Ok tt, World (held w) (lockfiles w) (trace w)
       (after_unlinks
          (drop keepCount
             (backups_of memoryPath (entries_of (dirname memoryPath) (data w))))
          (data w))).
Proof. destruct w. apply pruneBackups_run. Qed.

Lemma open_run now id directory config (w : world fs) :
  let memoryPath := resolve directory (memoryPath config) in
  open now id directory config w =
    match withMindLock memoryPath (open_locked now memoryPath) w with
    | (Ok memvid, w1) =>
        (Ok (mind_of now id directory config memvid),
         (pruneBackups memoryPath 3 w1).2)
    | (Throw e, w1) => (Throw e, w1)
    end.
Proof.
  intros memoryPath. unfold open, bind, mkdir, ret. fold memoryPath.
  destruct (withMindLock _ _ _) as [[memvid | e] w1]; [|done].
  by rewrite pruneBackups_ok.
Qed.

(** No branch of the locked part creates a directory. *)
Lemma is_dir_insert_file (d : fs) k size content q :
  is_dir (<[k := File size content]> d) q = true → is_dir d q = true.
Proof.
  unfold is_dir. destruct (decide (k = q)) as [-> | Hne].
  - by rewrite lookup_insert_eq.
  - by rewrite lookup_insert_ne.
Qed.

Lemma is_dir_delete (d : fs) k q :
  is_dir (delete k d) q = true → is_dir d q = true.
Proof.
  unfold is_dir. destruct (decide (k = q)) as [-> | Hne].
  - by rewrite lookup_delete_eq.
  - by rewrite lookup_delete_ne.
Qed.

Ltac run_fs :=
  repeat (cbn [negb data held lockfiles trace emessage];
          progress repeat match goal with
                          | H : _ !! _ = _ |- _ => rewrite H
                          end);
  cbn [negb data held lockfiles trace emessage].

Lemma open_locked_shape now memoryPath h lf t (d : fs) :
  ∃ r d1,
    open_locked now memoryPath (World h lf t d) = (r, World h lf t d1)
    ∧ (∀ q, is_dir d1 q = true → is_dir d q = true).
Proof.
  unfold open_locked, bind, existsSync, statSync_size, gets, try_catch, use,
    renameSync, unlinkSync, create, throw, ret, action.
  assert (Hfresh : ∀ q size content,
            is_dir (<[memoryPath := File 0 (Valid [])]>
                      (<[backupPath_of memoryPath now := File size content]>
                         (delete memoryPath d))) q = true → is_dir d q = true).
  { intros q ?? Hq. by apply is_dir_insert_file, is_dir_insert_file, is_dir_delete in Hq. }
  assert (Hgone : ∀ q,
            is_dir (<[memoryPath := File 0 (Valid [])]> (delete memoryPath d)) q = true →
            is_dir d q = true).
  { intros q Hq. by apply is_dir_insert_file, is_dir_delete in Hq. }
  destruct (d !! memoryPath) as [[size content|]|] eqn:Hfile; run_fs.
  - rewrite bool_decide_eq_true_2 by eauto. run_fs.
    destruct (MAX_FILE_SIZE_MB * (1024 * 1024) <? size)%N; run_fs.
    + destruct (d !! backupPath_of memoryPath now) as [[? ?|]|] eqn:Hb; run_fs;
        rewrite ?lookup_insert_ne, ?lookup_delete_eq by apply backupPath_ne;
        eauto using is_dir_insert_file.
    + destruct content as [frames | msg]; run_fs; [eauto |].
      destruct (existsb _ CORRUPTION_PATTERNS); run_fs; [|eauto].
      destruct (d !! backupPath_of memoryPath now) as [[? ?|]|] eqn:Hb; run_fs;
        rewrite ?lookup_insert_ne, ?lookup_delete_eq by apply backupPath_ne;
        eauto.
  - rewrite bool_decide_eq_true_2 by eauto. run_fs.
    change (MAX_FILE_SIZE_MB * (1024 * 1024) <? 0)%N with false. run_fs. eauto.
  - rewrite bool_decide_eq_false_2 by (by intros [? ?]). run_fs.
    eauto using is_dir_insert_file.
Qed.

Lemma backups_are_files_mono memoryPath (d d1 : fs) :
  (∀ q, is_dir d1 q = true → is_dir d q = true) →
  backups_are_files memoryPath d = true → backups_are_files memoryPath d1 = true.
Proof.
  unfold backups_are_files. rewrite !forallb_forall. intros Hmono Hd n Hn.
  apply negb_true_iff. destruct (is_dir d1 _) eqn:Hdir; [|done].
  apply Hmono in Hdir as Hdir0. apply list_elem_of_In in Hn.
  apply backup_entries_spec in Hn as [Hn Hpat].
  apply elem_of_entries_of in Hn as [_ Hchild].
  assert (Hin : n ∈ backup_entries memoryPath d).
  { apply backup_entries_spec. split; [|done]. apply elem_of_entries_of.
    split; [|done]. unfold is_dir in Hdir0.
    destruct (d !! resolve (dirname memoryPath) n); [eauto | done]. }
  apply list_elem_of_In, Hd in Hin. by rewrite Hdir0 in Hin.
Qed.




(** C5.  Let the store file exist, below the size ceiling, and let the
    engine's open call fail on it with message [msg].  When [msg] contains a
    corruption signature, the file is renamed to the backup path stamped
    with the clock reading, or deleted when that rename fails; a fresh store
    is created in its place and [open] succeeds with a handle on it.  When
    [msg] contains no signature, [open] fails with the engine's error and
    the files are as they were. *)
Theorem open_recovers_or_propagates now id directory config (w : world fs)
    (size : N) (msg : string) :
  let memoryPath := resolve directory (memoryPath config) in
  let backupPath := memoryPath +:+ ".backup-" +:+ of_Z now in
  let corrupt := existsb (λ p, includes p msg) CORRUPTION_PATTERNS in
  let old := File size (Broken msg) in
  memoryPath +:+ ".lock" ∉ held w →
  data w !! memoryPath = Some old →
  (size ≤ 100 * 1024 * 1024)%N →
  (corrupt = true →
     ∃ w1,
       withMindLock memoryPath (open_locked now memoryPath) w
       = (Ok {| handle_path := memoryPath |}, w1)
       ∧ data w1 !! memoryPath = Some (File 0 (Valid []))
       ∧ (is_dir (data w) backupPath = false → data w1 !! backupPath = Some old)
       ∧ (is_dir (data w) backupPath = true →
          data w1 = <[memoryPath := File 0 (Valid [])]> (delete memoryPath (data w)))
       ∧ (open now id directory config w).1
         = Ok (mind_of now id directory config {| handle_path := memoryPath |}))
  ∧ (corrupt = false →
     (open now id directory config w).1 = Throw (Err "Error" msg)
     ∧ data (open now id directory config w).2 = data w).
Proof.
  intros memoryPath backupPath corrupt old Hfree Hfile Hsize.
  subst backupPath. fold (backupPath_of memoryPath now).
  split; intros Hsig.
  - pose proof (LockFacts.withMindLock_run memoryPath (open_locked now memoryPath) w _ _ Hfree
                  (λ h lf t, open_locked_corrupt now memoryPath h lf t (data w)
                               size msg Hfile Hsize Hsig)) as Hlock.
    eexists. split; [exact Hlock |].
    cbn [data]. split; [by rewrite lookup_insert_eq |].
    split; [|split].
    + intros ->. rewrite lookup_insert_ne by (apply not_eq_sym, backupPath_ne).
      by rewrite lookup_insert_eq.
    + by intros ->.
    + rewrite open_run. fold memoryPath. by rewrite Hlock.
  - pose proof (LockFacts.withMindLock_run memoryPath (open_locked now memoryPath) w _ _ Hfree
                  (λ h lf t, open_locked_unrecognized now memoryPath h lf t (data w)
                               size msg Hfile Hsize Hsig)) as Hlock.
    rewrite open_run. fold memoryPath. by rewrite Hlock.
Qed.

Lemma open_recovers_or_propagates_witness :
  let memoryPath := "/p/.claude/mind.mv2" in
  let backupPath := memoryPath +:+ ".backup-" +:+ of_Z 1700000000009 in
  let msg := "Deserialization error: bad header" in
  let old := File 4096 (Broken msg) in
  let run := open 1700000000009 "00ff00ff00ff00ff" "/p" DEFAULT_CONFIG corrupt_world in
  (existsb (λ p, includes p msg) CORRUPTION_PATTERNS = true →
     ∃ w1,
       withMindLock memoryPath (open_locked 1700000000009 memoryPath) corrupt_world
       = (Ok {| handle_path := memoryPath |}, w1)
       ∧ data w1 !! memoryPath = Some (File 0 (Valid []))
       ∧ (is_dir (data corrupt_world) backupPath = false →
          data w1 !! backupPath = Some old)
       ∧ (is_dir (data corrupt_world) backupPath = true →
          data w1 = <[memoryPath := File 0 (Valid [])]>
                      (delete memoryPath (data corrupt_world)))
       ∧ run.1 = Ok (mind_of 1700000000009 "00ff00ff00ff00ff" "/p" DEFAULT_CONFIG
                             {| handle_path := memoryPath |}))
  ∧ (existsb (λ p, includes p msg) CORRUPTION_PATTERNS = false →
     run.1 = Throw (Err "Error" msg) ∧ data run.2 = data corrupt_world).
Proof.
  intros memoryPath backupPath msg old run.
  apply (open_recovers_or_propagates 1700000000009 "00ff00ff00ff00ff" "/p"
           DEFAULT_CONFIG corrupt_world 4096 msg).
  - simpl. apply not_elem_of_empty.
  - vm_compute. reflexivity.
  - vm_compute. discriminate.
Defined.

(** an error without a corruption signature reaches the caller *)
Example open_propagates_permission_error :
  let run := open 1700000000009 "00ff00ff00ff00ff" "/p" DEFAULT_CONFIG
                  unreadable_world in
  run.1 = Throw (Err "Error" "Permission denied (os error 13)")
  ∧ data run.2 = data unreadable_world.
Proof. vm_compute. split; reflexivity. Qed.

End OpenFacts.

(** ** Lines of text *)

Module LineFacts.
Import Js JsFacts.

Lemma rev_app_app (s t acc : string) :
  String.rev_app (s +:+ t) acc = String.rev_app t (String.rev_app s acc).
Proof.
  revert acc. induction s as [|a s IH]; intros acc; [done |].
  rewrite str_app_cons. cbn [String.rev_app]. apply IH.
Qed.

Lemma rev_app_acc (s acc : string) :
  String.rev_app s acc = String.rev s +:+ acc.
Proof.
  unfold String.rev. revert acc. induction s as [|a s IH]; intros acc; [done |].
  cbn [String.rev_app]. rewrite IH, (IH (String a "")).
  by rewrite str_app_assoc.
Qed.

Lemma rev_app (s t : string) :
  String.rev (s +:+ t) = String.rev t +:+ String.rev s.
Proof. unfold String.rev at 1. by rewrite rev_app_app, rev_app_acc. Qed.

Lemma rev_cons (a : ascii) (s : string) :
  String.rev (String a s) = String.rev s +:+ String a "".
Proof. unfold String.rev at 1. cbn [String.rev_app]. apply rev_app_acc. Qed.

Lemma rev_involutive (s : string) : String.rev (String.rev s) = s.
Proof.
  induction s as [|a s IH]; [done |]. by rewrite rev_cons, rev_app, IH.
Qed.

(** a text that begins and ends with a visible character is its own trim *)
Lemma trim_id (a b : ascii) (s : string) :
  is_space a = false → is_space b = false →
  trim (String a s +:+ String b "") = String a s +:+ String b "".
Proof.
  intros Ha Hb.
  assert (Hrev : String.rev (String a s +:+ String b "")
                 = String b (String.rev (String a s)))
    by (by rewrite rev_app).
  unfold trim.
  replace (trimStart (String a s +:+ String b "")) with (String a s +:+ String b "")
    by (rewrite str_app_cons; cbn [trimStart]; by rewrite Ha).
  rewrite Hrev. cbn [trimStart]. rewrite Hb, <- Hrev. apply rev_involutive.
Qed.

Lemma free_of_app (a : ascii) (s t : string) :
  free_of a (s +:+ t) = free_of a s && free_of a t.
Proof.
  induction s as [|b s IH]; [done |]. rewrite str_app_cons. cbn [free_of].
  by rewrite IH, andb_assoc.
Qed.

Lemma split_go_free (sep : ascii) (cur s : string) :
  free_of sep s = true → split_go sep cur s = [String.rev cur +:+ s].
Proof.
  revert cur. induction s as [|a s IH]; intros cur Hfree.
  - cbn [split_go]. by rewrite str_app_nil_r.
  - cbn [free_of] in Hfree. apply andb_prop in Hfree as [Ha Hs].
    apply negb_true_iff in Ha. cbn [split_go]. rewrite Ha, IH by done.
    by rewrite rev_cons, str_app_assoc.
Qed.

(** a text without the separator is one line *)
Lemma split_free (sep : ascii) (s : string) :
  free_of sep s = true → split sep s = [s].
Proof. intros H. unfold split. by rewrite split_go_free. Qed.

End LineFacts.

(** ** JSON text *)

Module JsonFacts.
Import Js Json JsFacts LineFacts.

(** *** Strings *)

Ltac eval_escape :=
  match goal with
  | |- context [escape ?c] =>
      let e := eval vm_compute in (escape c) in change (escape c) with e
  end.

Lemma string_body_escape (a : ascii) (t : string) (r : string * string) :
  string_body t = Some r →
  string_body (escape a +:+ t) = Some (String a r.1, r.2).
Proof.
  intros Ht.
  destruct a as [[] [] [] [] [] [] [] []]; eval_escape;
    rewrite ?str_app_cons, str_app_nil_l; cbn; by rewrite Ht.
Qed.

Lemma free_of_escape (a : ascii) : free_of LF (escape a) = true.
Proof. by destruct a as [[] [] [] [] [] [] [] []]; vm_compute. Qed.

Lemma string_body_quote (s rest : string) :
  string_body (quote_body s +:+ rest) = Some (s, rest).
Proof.
  induction s as [|a s IH]; cbn [quote_body].
  - rewrite str_app_cons, str_app_nil_l. cbn [string_body].
    by change (Ascii.eqb dq dq) with true.
  - rewrite str_app_assoc. by rewrite (string_body_escape a _ (s, rest)).
Qed.

Lemma free_of_quote (s : string) : free_of LF (quote s) = true.
Proof.
  unfold quote. cbn [free_of]. change (negb (Ascii.eqb dq LF)) with true.
  cbn [andb]. induction s as [|a s IH]; [done |].
  cbn [quote_body]. by rewrite free_of_app, free_of_escape, IH.
Qed.

(** *** Numbers *)

Import Decimal.

Lemma of_uint_acc_value (d : uint) (p : positive) :
  Npos (Pos.of_uint_acc d p)
  = (Npos p * 10 ^ N.of_nat (nb_digits d) + Pos.of_uint d)%N.
Proof.
  revert p. induction d as [|d IH|d IH|d IH|d IH|d IH|d IH|d IH|d IH|d IH|d IH];
    intros p; cbn [Pos.of_uint_acc Pos.of_uint nb_digits];
    rewrite ?Nat2N.inj_succ, ?N.pow_succ_r', ?N.pow_0_r; [lia |..];
    rewrite ?(IH 1%positive), ?(IH 2%positive), ?(IH 3%positive),
      ?(IH 4%positive), ?(IH 5%positive), ?(IH 6%positive), ?(IH 7%positive),
      ?(IH 8%positive), ?(IH 9%positive); rewrite IH; lia.
Qed.

Lemma of_uint_cons (d : uint) :
  let shift := (10 ^ N.of_nat (nb_digits d))%N in
  let rest := Pos.of_uint d in
  (Pos.of_uint (D0 d) = rest
   ∧ Pos.of_uint (D1 d) = 1 * shift + rest ∧ Pos.of_uint (D2 d) = 2 * shift + rest
   ∧ Pos.of_uint (D3 d) = 3 * shift + rest ∧ Pos.of_uint (D4 d) = 4 * shift + rest
   ∧ Pos.of_uint (D5 d) = 5 * shift + rest ∧ Pos.of_uint (D6 d) = 6 * shift + rest
   ∧ Pos.of_uint (D7 d) = 7 * shift + rest ∧ Pos.of_uint (D8 d) = 8 * shift + rest
   ∧ Pos.of_uint (D9 d) = 9 * shift + rest)%N.
Proof.
  cbn zeta. repeat split; cbn [Pos.of_uint]; rewrite ?of_uint_acc_value; lia.
Qed.

Lemma digits_go_uint (d : uint) (acc : N) (count : nat) (rest : string) :
  ends_number rest →
  digits_go acc count (NilEmpty.string_of_uint d +:+ rest)
  = ((acc * 10 ^ N.of_nat (nb_digits d) + Pos.of_uint d)%N, count + nb_digits d).
Proof.
  intros (c & r & -> & Hc). revert acc count.
  induction d as [|d IH|d IH|d IH|d IH|d IH|d IH|d IH|d IH|d IH|d IH];
    intros acc count; cbn [NilEmpty.string_of_uint nb_digits];
    rewrite ?str_app_cons, ?str_app_nil_l; cbn [digits_go].
  { destruct Hc as [-> | ->]; cbn; f_equal; lia. }
  all: match goal with
       | |- context [digit_value ?a] =>
           let v := eval vm_compute in (digit_value a) in
           change (digit_value a) with v
       end; cbn iota; rewrite IH.
  all: destruct (of_uint_cons d) as (E0 & E1 & E2 & E3 & E4 & E5 & E6 & E7 & E8 & E9).
  all: rewrite ?E0, ?E1, ?E2, ?E3, ?E4, ?E5, ?E6, ?E7, ?E8, ?E9.
  all: rewrite Nat2N.inj_succ, N.pow_succ_r'. all: f_equal; lia.
Qed.

Lemma length_string_of_uint (d : uint) :
  String.length (NilEmpty.string_of_uint d) = nb_digits d.
Proof. induction d; cbn [NilEmpty.string_of_uint nb_digits String.length]; congruence. Qed.

Lemma free_of_uint (d : uint) : free_of LF (NilEmpty.string_of_uint d) = true.
Proof. induction d; cbn [NilEmpty.string_of_uint free_of]; try done. Qed.

Lemma to_uint_head (p : positive) :
  match Pos.to_uint p with
  | Nil | D0 _ => False
  | _ => True
  end.
Proof.
  pose proof (DecimalPos.Unsigned.to_of (Pos.to_uint p)) as Hnorm.
  rewrite DecimalPos.Unsigned.of_to in Hnorm. cbn [N.to_uint] in Hnorm.
  pose proof (DecimalPos.Unsigned.to_uint_nonzero p) as Hnz.
  pose proof (DecimalFacts.nzhead_nonzero (Pos.to_uint p)) as Hhead.
  unfold unorm in Hnorm. destruct (nzhead (Pos.to_uint p)) eqn:Hnzh;
    rewrite Hnorm; try done.
  by apply (Hhead u).
Qed.

Lemma digits_of_pos (p : positive) (rest : string) :
  ends_number rest →
  let s := of_N (Npos p) +:+ rest in
  digits_go 0 0 s = (Npos p, nb_digits (Pos.to_uint p))
  ∧ slice_from (nb_digits (Pos.to_uint p)) s = rest
  ∧ nb_digits (Pos.to_uint p) ≠ 0
  ∧ ∃ c r, s = String c r ∧ c ≠ "-"%char ∧ c ≠ "0"%char
            ∧ is_ws c = false ∧ Ascii.eqb c dq = false
            ∧ Ascii.eqb c "[" = false ∧ Ascii.eqb c "{" = false
            ∧ Ascii.eqb c "n" = false ∧ Ascii.eqb c "t" = false
            ∧ Ascii.eqb c "f" = false.
Proof.
  intros Hrest s. subst s. unfold of_N. cbn [N.to_uint].
  rewrite digits_go_uint by done. rewrite DecimalPos.Unsigned.of_to.
  rewrite <- length_string_of_uint, slice_from_app.
  split; [f_equal; lia |]. split; [done |].
  pose proof (to_uint_head p) as Hhead.
  destruct (Pos.to_uint p); try done;
    cbn [NilEmpty.string_of_uint String.length]; (split; [done |]);
    rewrite str_app_cons; eexists _, _; (split; [reflexivity |]);
    by repeat split.
Qed.

Lemma number_of_Z (z : Z) (rest : string) :
  ends_number rest → number (of_Z z +:+ rest) = Some (z, rest).
Proof.
  intros Hrest. pose proof Hrest as (c & r & Hc & Hcomma).
  assert (Hend : ∀ n : Z,
            match rest with
            | String "." _ | String "e" _ | String "E" _ => None
            | _ => Some (n, rest)
            end%char = Some (n, rest)).
  { intros n. rewrite Hc. by destruct Hcomma as [-> | ->]. }
  unfold number, of_Z. destruct z as [|p|p].
  - change (of_N (Z.to_N 0)) with "0". rewrite str_app_cons, str_app_nil_l.
    cbn [mbind option_bind fst snd]. apply (Hend 0%Z).
  - cbn [Z.to_N].
    destruct (digits_of_pos p rest Hrest) as (Hgo & Hslice & Hcount & c' & r' & Hs & Hm & Hz & _).
    rewrite Hs in Hgo, Hslice |- *.
    assert (Hsign : (match String c' r' with
                     | String "-" s' => (true, s')
                     | _ => (false, String c' r')
                     end)%char = (false, String c' r')).
    { destruct c' as [[] [] [] [] [] [] [] []]; done. }
    rewrite Hsign.
    assert (Hzero : match String c' r' with
                    | String "0"%char s' => Some (0%N, s')
                    | _ => let '(n, count) := digits_go 0 0 (String c' r') in
                           if count =? 0 then None
                           else Some (n, slice_from count (String c' r'))
                    end = Some (Npos p, rest)).
    { rewrite Hgo, Hslice. apply Nat.eqb_neq in Hcount. rewrite Hcount.
      destruct c' as [[] [] [] [] [] [] [] []]; done. }
    rewrite Hzero. cbn [mbind option_bind fst snd]. apply (Hend (Zpos p)).
  - rewrite str_app_assoc, str_app_cons, str_app_nil_l.
    destruct (digits_of_pos p rest Hrest) as (Hgo & Hslice & Hcount & c' & r' & Hs & Hm & Hz & _).
    rewrite Hs in Hgo, Hslice |- *.
    assert (Hzero : match String c' r' with
                    | String "0"%char s' => Some (0%N, s')
                    | _ => let '(n, count) := digits_go 0 0 (String c' r') in
                           if count =? 0 then None
                           else Some (n, slice_from count (String c' r'))
                    end = Some (Npos p, rest)).
    { rewrite Hgo, Hslice. apply Nat.eqb_neq in Hcount. rewrite Hcount.
      destruct c' as [[] [] [] [] [] [] [] []]; done. }
    rewrite Hzero. cbn [mbind option_bind fst snd]. apply (Hend (Zneg p)).
Qed.

(** *** Values *)

Lemma value_string (fuel : nat) (s rest : string) :
  value_ (S fuel) (quote s +:+ rest) = Some (VStr s, rest).
Proof.
  unfold quote. rewrite str_app_cons. cbn [value_ skip_ws].
  change (is_ws dq) with false. cbn iota. rewrite Ascii.eqb_refl.
  by rewrite string_body_quote.
Qed.

Lemma of_Z_head (z : Z) (rest : string) :
  ends_number rest →
  ∃ c r, of_Z z +:+ rest = String c r
         ∧ is_ws c = false ∧ Ascii.eqb c dq = false
         ∧ Ascii.eqb c "[" = false ∧ Ascii.eqb c "{" = false
         ∧ Ascii.eqb c "n" = false ∧ Ascii.eqb c "t" = false
         ∧ Ascii.eqb c "f" = false.
Proof.
  intros Hrest. unfold of_Z. destruct z as [|p|p].
  - change (of_N (Z.to_N 0)) with "0". rewrite str_app_cons. eexists _, _.
    split; [reflexivity |]. by repeat split.
  - cbn [Z.to_N]. destruct (digits_of_pos p rest Hrest) as (_ & _ & _ & c & r & Hs & _ & _ & H).
    eauto.
  - rewrite str_app_assoc, str_app_cons. eexists _, _.
    split; [reflexivity |]. by repeat split.
Qed.

Lemma value_number (fuel : nat) (z : Z) (rest : string) :
  ends_number rest → value_ (S fuel) (of_Z z +:+ rest) = Some (VNum z, rest).
Proof.
  intros Hrest. pose proof (number_of_Z z rest Hrest) as Hnum.
  destruct (of_Z_head z rest Hrest) as (c & r & Hs & Hws & H1 & H2 & H3 & H4 & H5 & H6).
  rewrite Hs in Hnum |- *. cbn [value_ skip_ws].
  rewrite Hws. cbn iota. rewrite H1, H2, H3, H4, H5, H6, Hnum. done.
Qed.

Lemma members_more (fuel : nat) (acc : object) (k t : string) (v : value) (rest : string) :
  value_ fuel t = Some (v, String "," rest) →
  members (S fuel) acc (quote k +:+ ":" +:+ t) = members fuel (obj_set k v acc) rest.
Proof.
  intros Hv. unfold quote. rewrite str_app_cons. cbn [members skip_ws].
  change (is_ws dq) with false. cbn iota. rewrite Ascii.eqb_refl.
  rewrite string_body_quote. cbn [mbind option_bind fst snd].
  rewrite str_app_cons, str_app_nil_l. cbn [skip_ws].
  change (is_ws ":") with false. cbn iota. rewrite Hv.
  cbn [mbind option_bind fst snd skip_ws]. by change (is_ws ",") with false.
Qed.

Lemma members_last (fuel : nat) (acc : object) (k t : string) (v : value) (rest : string) :
  value_ fuel t = Some (v, String "}" rest) →
  members (S fuel) acc (quote k +:+ ":" +:+ t) = Some (obj_set k v acc, rest).
Proof.
  intros Hv. unfold quote. rewrite str_app_cons. cbn [members skip_ws].
  change (is_ws dq) with false. cbn iota. rewrite Ascii.eqb_refl.
  rewrite string_body_quote. cbn [mbind option_bind fst snd].
  rewrite str_app_cons, str_app_nil_l. cbn [skip_ws].
  change (is_ws ":") with false. cbn iota. rewrite Hv.
  cbn [mbind option_bind fst snd skip_ws]. by change (is_ws "}") with false.
Qed.

End JsonFacts.

(** ** dedup.ts *)

Module DedupFacts.
Import Js Proc Lock Dedup JsFacts.

(** *** The line of an entry *)

Section Entry.
Context (now : Z) (hash source : string).

Lemma entry_line_shape :
  entry_line now hash source
  = String "{" (Json.quote "timestamp" +:+ ":" +:+
      (of_Z now +:+ String "," (Json.quote "hash" +:+ ":" +:+
        (Json.quote hash +:+ String "," (Json.quote "source" +:+ ":" +:+
          (Json.quote source +:+ String "}" "")))))).
Proof. reflexivity. Qed.

Lemma stringify_entry :
  Json.stringify (new_entry now hash source) = Some (entry_line now hash source).
Proof.
  unfold new_entry, entry_line. cbn [Json.stringify join]. f_equal.
  by rewrite !str_app_assoc.
Qed.

Lemma value_entry (fuel : nat) :
  5 ≤ fuel →
  Json.value_ fuel (entry_line now hash source) = Some (new_entry now hash source, "").
Proof.
  intros Hfuel. destruct fuel as [|[|[|[|[|fuel]]]]]; try lia.
  rewrite entry_line_shape.
  set (t3 := Json.quote source +:+ String "}" "").
  set (r2 := Json.quote "source" +:+ ":" +:+ t3).
  set (t2 := Json.quote hash +:+ String "," r2).
  set (r1 := Json.quote "hash" +:+ ":" +:+ t2).
  set (t1 := of_Z now +:+ String "," r1).
  cbn [Json.value_ Json.skip_ws].
  change (Json.is_ws "{") with false. cbn iota.
  change (Ascii.eqb "{" Json.dq) with false.
  change (Ascii.eqb "{" "[") with false. change (Ascii.eqb "{" "{") with true.
  cbn iota.
  assert (Hskip : ∀ k t, Json.skip_ws (Json.quote k +:+ t)
                         = String Json.dq (Json.quote_body k +:+ t)).
  { intros k t. unfold Json.quote. by rewrite str_app_cons. }
  rewrite Hskip.
  assert (Hdq : ∀ (A : Type) (x y : string → A) (t : string),
            match String Json.dq t with
            | String "}"%char r => x r
            | _ => y t
            end = y t) by done.
  rewrite (Hdq _ (λ r, Some (VObj [], r))
                 (λ _, r ← Json.members _ [] _; Some (VObj (own_order r.1), r.2))).
  rewrite (JsonFacts.members_more _ [] "timestamp" t1 (VNum now) r1)
    by (apply JsonFacts.value_number; by eexists _, _; eauto).
  rewrite (JsonFacts.members_more _ _ "hash" t2 (VStr hash) r2)
    by apply JsonFacts.value_string.
  rewrite (JsonFacts.members_last _ _ "source" t3 (VStr source) "")
    by apply JsonFacts.value_string.
  reflexivity.
Qed.

Lemma entry_line_length : 2 ≤ String.length (entry_line now hash source).
Proof.
  rewrite entry_line_shape. unfold Json.quote at 1. rewrite str_app_cons.
  cbn [String.length]. lia.
Qed.

Lemma parse_entry :
  Json.parse (entry_line now hash source) = Some (new_entry now hash source).
Proof.
  unfold Json.parse. rewrite value_entry; [done |].
  pose proof entry_line_length. lia.
Qed.

Lemma trim_entry : trim (entry_line now hash source) = entry_line now hash source.
Proof.
  assert (Hshape : ∃ m, entry_line now hash source = String "{" m +:+ String "}" "").
  { eexists. unfold entry_line. rewrite <- !str_app_assoc.
    rewrite !str_app_assoc. rewrite str_app_cons, str_app_nil_l.
    rewrite <- !str_app_assoc. rewrite <- str_app_cons. reflexivity. }
  destruct Hshape as [m ->]. by apply LineFacts.trim_id.
Qed.

Lemma free_of_Z (z : Z) : free_of LF (of_Z z) = true.
Proof.
  unfold of_Z, of_N. destruct z; rewrite ?LineFacts.free_of_app;
    by rewrite JsonFacts.free_of_uint.
Qed.

Lemma free_entry : free_of LF (entry_line now hash source) = true.
Proof.
  unfold entry_line.
  by rewrite !LineFacts.free_of_app, !JsonFacts.free_of_quote, free_of_Z.
Qed.

Lemma entry_lines :
  filter_Boolean (split LF (trim (entry_line now hash source)))
  = [entry_line now hash source].
Proof.
  rewrite trim_entry, LineFacts.split_free by apply free_entry.
  by rewrite entry_line_shape.
Qed.

Lemma survivors_entry (later : Z) :
  survivors later (entry_line now hash source)
  = Ok (if (later - now <? DEDUP_WINDOW_MS)%Z
        then [new_entry now hash source] else []).
Proof.
  unfold survivors. rewrite entry_lines. cbn [fmap list_fmap].
  rewrite parse_entry. cbn. by destruct (later - now <? DEDUP_WINDOW_MS)%Z.
Qed.

End Entry.

Section Check.
Context (now : Z) (directory source toolName : string) (toolInput : object).
Context (w : world files).

Let path := getDedupPath directory.
Let hash := Md5.digest (dedup_key source toolName toolInput).
Let content := default "" (data w !! path).

Lemma check_run (entries : list value) :
  path +:+ ".lock" +:+ ".lock" ∉ held w →
  survivors now content = Ok entries →
  isDuplicateAcrossProcesses now directory source toolName toolInput w
  = (Ok (existsb (has_hash hash) entries),
     World (held w ∖ {[path +:+ ".lock" +:+ ".lock"]})
           ({[path +:+ ".lock" +:+ ".lock"]} ∪ lockfiles w)
           (trace w ++ [Acquired (path +:+ ".lock" +:+ ".lock");
                        Released (path +:+ ".lock" +:+ ".lock")])
           (if existsb (has_hash hash) entries then data w
            else <[path := log_text (entries ++ [new_entry now hash source])]>
                   (data w))).
Proof.
  intros Hfree Hread. unfold isDuplicateAcrossProcesses, bind at 1, mkdir, ret.
  fold path. fold hash. rewrite <- str_app_assoc in Hfree |- *.
  apply LockFacts.withMindLock_run; [done |]. intros h lf t.
  unfold bind, try_catch, readFile, lift, writeFile, modify, ret, action.
  cbn [data held lockfiles trace].
  assert (Hcontent :
    (let (r, w') :=
       let '(r, d) :=
         match data w !! path with
         | Some c => (Ok c, data w)
         | None => (Throw (Err "Error" "ENOENT: no such file or directory"), data w)
         end in (r, World h lf t d) in
     match r with
     | Ok a => (Ok a, w')
     | Throw e => (Ok "", w')
     end) = (Ok content, World h lf t (data w))).
  { unfold content. by destruct (data w !! path). }
  rewrite Hcontent, Hread.
  by destruct (existsb (has_hash hash) entries).
Qed.

End Check.

(** *** The text that is hashed *)

Lemma str_app_inj_r (s1 s2 t : string) : s1 +:+ t = s2 +:+ t → s1 = s2.
Proof.
  revert s2. induction s1 as [|a s1 IH]; intros [|b s2] H.
  - reflexivity.
  - apply (f_equal String.length) in H.
    rewrite str_app_nil_l, str_app_cons in H. cbn [String.length] in H.
    rewrite str_length_app in H. lia.
  - apply (f_equal String.length) in H.
    rewrite str_app_nil_l, str_app_cons in H. cbn [String.length] in H.
    rewrite str_length_app in H. lia.
  - rewrite !str_app_cons in H. injection H as -> H. f_equal. by apply IH.
Qed.

Lemma str_app_inj_l (s t1 t2 : string) : s +:+ t1 = s +:+ t2 → t1 = t2.
Proof.
  induction s as [|a s IH]; [by rewrite !str_app_nil_l |].
  rewrite !str_app_cons. intros H. injection H as H. by apply IH.
Qed.

Lemma dedup_key_source (source source' toolName : string) (toolInput : object) :
  source' ≠ source →
  dedup_key source' toolName toolInput ≠ dedup_key source toolName toolInput.
Proof. intros Hne H. by apply str_app_inj_r in H. Qed.

Lemma dedup_key_tool (source toolName toolName' : string) (toolInput : object) :
  toolName' ≠ toolName →
  dedup_key source toolName' toolInput ≠ dedup_key source toolName toolInput.
Proof.
  intros Hne H. unfold dedup_key in H.
  apply str_app_inj_l, str_app_inj_l, str_app_inj_r in H. done.
Qed.

Lemma dedup_key_input (source toolName : string) (toolInput toolInput' : object) :
  dedup_key source toolName toolInput' = dedup_key source toolName toolInput
  ↔ slice0 200 (Json.stringify_object toolInput')
    = slice0 200 (Json.stringify_object toolInput).
Proof.
  unfold dedup_key. split; [| by intros ->]. intros H.
  by do 4 apply str_app_inj_l in H.
Qed.

(** *** Two checks in a directory without a log *)

Lemma survivors_empty (now : Z) : survivors now "" = Ok [].
Proof. reflexivity. Qed.

Lemma has_hash_entry (now : Z) (hash source hash' : string) :
  has_hash hash' (new_entry now hash source) = bool_decide (hash = hash').
Proof.
  unfold has_hash, new_entry, prop. cbn.
  destruct (String.eqb_spec hash hash') as [-> | Hne].
  - by rewrite bool_decide_eq_true_2.
  - by rewrite bool_decide_eq_false_2.
Qed.

Section Twice.
Context (now1 : Z) (directory source toolName : string) (toolInput : object).
Context (w : world files).

Let path := getDedupPath directory.
Let lock := path +:+ ".lock" +:+ ".lock".
Let hash := Md5.digest (dedup_key source toolName toolInput).

Hypothesis Hfree : lock ∉ held w.
Hypothesis Hnone : data w !! path = None.

Lemma first_check :
  isDuplicateAcrossProcesses now1 directory source toolName toolInput w
  = (Ok false,
     World (held w ∖ {[lock]}) ({[lock]} ∪ lockfiles w)
           (trace w ++ [Acquired lock; Released lock])
           (<[path := entry_line now1 hash source]> (data w))).
Proof.
  rewrite (check_run now1 directory source toolName toolInput w [] Hfree).
  - cbn [existsb app log_text fmap list_fmap join].
    by rewrite stringify_entry.
  - fold path. rewrite Hnone. apply survivors_empty.
Qed.

Lemma later_check (now2 : Z) (source' toolName' : string) (toolInput' : object) :
  (now2 - now1 < DEDUP_WINDOW_MS)%Z →
  (isDuplicateAcrossProcesses now2 directory source' toolName' toolInput'
     (isDuplicateAcrossProcesses now1 directory source toolName toolInput w).2).1
  = Ok (bool_decide (Md5.digest (dedup_key source' toolName' toolInput') = hash)).
Proof.
  intros Hsoon. rewrite first_check. cbn [snd].
  rewrite (check_run now2 directory source' toolName' toolInput' _
             [new_entry now1 hash source]).
  - cbn [fst existsb]. rewrite has_hash_entry, orb_false_r.
    f_equal. apply bool_decide_ext. split; congruence.
  - cbn [held]. fold path. fold lock. set_solver.
  - cbn [data]. fold path. rewrite lookup_insert_eq. cbn [default id].
    rewrite survivors_entry.
    by destruct (Z.ltb_spec (now2 - now1) DEDUP_WINDOW_MS); [| lia].
Qed.

End Twice.



(** C2.  In a directory that has no dedup log yet and whose lock is free,
    the first check reports "not duplicate".  A check made less than 60
    seconds later reports "duplicate" exactly when the MD5 digest of its
    text [source:tool:JSON(input).slice(0, 200)] is the digest of the first
    check.  So the check repeated with the same arguments reports
    "duplicate", and so does a check with another input whose JSON text has
    the same first 200 characters.  The hashed text is another one when only
    the source differs, when only the tool differs, and when only the input
    differs and its JSON text differs within the first 200 characters; such
    a check reports "not duplicate" unless the digests collide. *)
Theorem dedup_first_then_duplicate (now1 now2 : Z)
    (directory source toolName : string) (toolInput : object)
    (source' toolName' : string) (toolInput' : object) (w : world files) :
  let path := getDedupPath directory in
  let key := dedup_key source toolName toolInput in
  let first := isDuplicateAcrossProcesses now1 directory source toolName toolInput w in
  let check s t i := (isDuplicateAcrossProcesses now2 directory s t i first.2).1 in
  path +:+ ".lock" +:+ ".lock" ∉ held w →
  data w !! path = None →
  (now2 - now1 < DEDUP_WINDOW_MS)%Z →
  first.1 = Ok false
  ∧ check source toolName toolInput = Ok true
  ∧ (Md5.digest (dedup_key source' toolName' toolInput') ≠ Md5.digest key →
     check source' toolName' toolInput' = Ok false)
  ∧ (Md5.digest (dedup_key source' toolName' toolInput') = Md5.digest key →
     check source' toolName' toolInput' = Ok true)
  ∧ (source' ≠ source → dedup_key source' toolName toolInput ≠ key)
  ∧ (toolName' ≠ toolName → dedup_key source toolName' toolInput ≠ key)
  ∧ (slice0 200 (Json.stringify_object toolInput')
     ≠ slice0 200 (Json.stringify_object toolInput) →
     dedup_key source toolName toolInput' ≠ key)
  ∧ (slice0 200 (Json.stringify_object toolInput')
     = slice0 200 (Json.stringify_object toolInput) →
     check source toolName toolInput' = Ok true).
Proof.
  intros path key first check Hfree Hnone Hsoon.
  assert (Hcheck : ∀ s t i,
            check s t i = Ok (bool_decide (Md5.digest (dedup_key s t i) = Md5.digest key))).
  { intros s t i. by apply later_check. }
  split; [| split; [| split; [| split; [| split; [| split; [| split]]]]]].
  - unfold first. by rewrite first_check.
  - by rewrite Hcheck, bool_decide_eq_true_2.
  - intros Hne. by rewrite Hcheck, bool_decide_eq_false_2.
  - intros Heq. by rewrite Hcheck, bool_decide_eq_true_2.
  - apply dedup_key_source.
  - apply dedup_key_tool.
  - intros Hne Hkey. by apply dedup_key_input in Hkey.
  - intros Heq. rewrite Hcheck, bool_decide_eq_true_2; [done |].
    f_equal. by apply dedup_key_input.
Qed.

Lemma dedup_first_then_duplicate_witness :
  let input := [("file_path", VStr "src/index.ts")] in
  let input' := [("file_path", VStr "src/other.ts")] in
  let key := dedup_key "opencode" "read" input in
  let first := isDuplicateAcrossProcesses 1000 "/p" "opencode" "read" input empty_world in
  let check s t i := (isDuplicateAcrossProcesses 1001 "/p" s t i first.2).1 in
  first.1 = Ok false
  ∧ check "opencode" "read" input = Ok true
  ∧ (Md5.digest (dedup_key "claude-code" "write" input') ≠ Md5.digest key →
     check "claude-code" "write" input' = Ok false)
  ∧ (Md5.digest (dedup_key "claude-code" "write" input') = Md5.digest key →
     check "claude-code" "write" input' = Ok true)
  ∧ ("claude-code" ≠ "opencode" → dedup_key "claude-code" "read" input ≠ key)
  ∧ ("write" ≠ "read" → dedup_key "opencode" "write" input ≠ key)
  ∧ (slice0 200 (Json.stringify_object input')
     ≠ slice0 200 (Json.stringify_object input) →
     dedup_key "opencode" "read" input' ≠ key)
  ∧ (slice0 200 (Json.stringify_object input')
     = slice0 200 (Json.stringify_object input) →
     check "opencode" "read" input' = Ok true).
Proof.
  intros input input' key first check.
  apply (dedup_first_then_duplicate 1000 1001 "/p" "opencode" "read" input
           "claude-code" "write" input' empty_world).
  - simpl. apply not_elem_of_empty.
  - reflexivity.
  - vm_compute. reflexivity.
Defined.

(** the checks of the test suite, run one after the other *)
Example checks_in_sequence :
  let input := [("file_path", VStr "src/index.ts")] in
  let first := isDuplicateAcrossProcesses 1000 "/p" "opencode" "read" input empty_world in
  let check s t i := (isDuplicateAcrossProcesses 1001 "/p" s t i first.2).1 in
  first.1 = Ok false
  ∧ check "opencode" "read" input = Ok true
  ∧ check "claude-code" "read" input = Ok false
  ∧ check "opencode" "write" input = Ok false
  ∧ check "opencode" "read" [("file_path", VStr "src/other.ts")] = Ok false.
Proof. vm_compute. repeat split; reflexivity. Qed.

(** C2, as stated, fails: two inputs whose JSON texts differ after the
    200th character have the same hash, and the check of the second one,
    made right after the check of the first one, reports "duplicate". *)
Lemma dedup_long_inputs_collide :
  let input := [("file_path", VStr (repeat_char "a" 200 +:+ "1"))] in
  let input' := [("file_path", VStr (repeat_char "a" 200 +:+ "2"))] in
  let first := isDuplicateAcrossProcesses 1000 "/p" "opencode" "read" input empty_world in
  let other := isDuplicateAcrossProcesses 1001 "/p" "opencode" "read" input' first.2 in
  input' ≠ input
  ∧ Json.stringify_object input' ≠ Json.stringify_object input
  ∧ first.1 = Ok false
  ∧ other.1 = Ok true
  ∧ other.1 ≠ Ok false.
Proof.
  vm_compute. split; [discriminate |]. split; [discriminate |].
  split; [reflexivity |]. split; [reflexivity | discriminate].
Qed.

End DedupFacts.

(** ** helpers.ts: tokens and timestamps *)

Module TokenFacts.
Import Js Helpers JsFacts.

Lemma ceil_div_4 (n : Z) : ceil_div n 4 = ((n + 3) / 4)%Z.
Proof. unfold ceil_div. Z.to_euclidean_division_equations. lia. Qed.

Lemma slice_to_nonneg (e : Z) (s : string) :
  (0 ≤ e)%Z → slice_to e s = slice0 (Z.to_nat e) s.
Proof. intros H. unfold slice_to. by destruct (Z.ltb_spec e 0); [lia |]. Qed.

(** X1.  For a budget of [maxTokens ≥ 0], [truncateToTokens] returns a text
    of at most [4 * maxTokens] characters unchanged.  A longer text is cut
    to its first [4 * maxTokens] characters followed by three dots, and
    [estimateTokens] counts the result as [maxTokens + 1] tokens: one more
    than the budget. *)
Theorem truncateToTokens_budget (text : string) (maxTokens : Z) :
  (0 ≤ maxTokens)%Z →
  let r := truncateToTokens text maxTokens in
  (Z.of_nat (String.length text) ≤ 4 * maxTokens →
     r = text ∧ estimateTokens r ≤ maxTokens)%Z
  ∧ (4 * maxTokens < Z.of_nat (String.length text) →
     r = slice0 (Z.to_nat (4 * maxTokens)) text +:+ "..."
     ∧ Z.of_nat (String.length r) = 4 * maxTokens + 3
     ∧ estimateTokens r = maxTokens + 1)%Z.
Proof.
  intros Hpos r. subst r. unfold truncateToTokens. split; intros Hlen.
  - destruct (Z.leb_spec (Z.of_nat (String.length text)) (maxTokens * 4)); [| lia].
    split; [done |]. unfold estimateTokens. rewrite ceil_div_4.
    Z.to_euclidean_division_equations. lia.
  - destruct (Z.leb_spec (Z.of_nat (String.length text)) (maxTokens * 4)); [lia |].
    rewrite slice_to_nonneg by lia. replace (maxTokens * 4)%Z with (4 * maxTokens)%Z by lia.
    assert (Hr : Z.of_nat (String.length (slice0 (Z.to_nat (4 * maxTokens)) text +:+ "..."))
                 = (4 * maxTokens + 3)%Z).
    { rewrite str_length_app, length_slice0. cbn [String.length]. lia. }
    split; [done |]. split; [done |].
    unfold estimateTokens. rewrite Hr, ceil_div_4.
    Z.to_euclidean_division_equations. lia.
Qed.

Lemma truncateToTokens_budget_witness :
  let r := truncateToTokens "a long line of text" 2 in
  (Z.of_nat (String.length "a long line of text") ≤ 4 * 2 →
     r = "a long line of text" ∧ estimateTokens r ≤ 2)%Z
  ∧ (4 * 2 < Z.of_nat (String.length "a long line of text") →
     r = slice0 (Z.to_nat (4 * 2)) "a long line of text" +:+ "..."
     ∧ Z.of_nat (String.length r) = 4 * 2 + 3
     ∧ estimateTokens r = 2 + 1)%Z.
Proof. apply (truncateToTokens_budget "a long line of text" 2). lia. Defined.


(** X3.  [formatTimestamp] gives the same answer for a timestamp and for
    its normalised value, when the timestamp is not positive or is at
    least 4102445 (in seconds: 17 February 1970 or later). *)
Theorem formatTimestamp_normalized (toLocaleDateString : Z → string) (now ts : Z) :
  (ts ≤ 0 ∨ 4102445 ≤ ts)%Z →
  formatTimestamp toLocaleDateString now (normalizeTimestamp ts)
  = formatTimestamp toLocaleDateString now ts.
Proof.
  intros H.
  assert (Hn : normalizeTimestamp ts = ts
               ∨ normalizeTimestamp ts = (ts * 1000)%Z ∧ (4102445 ≤ ts < 4102444800)%Z).
  { unfold normalizeTimestamp.
    destruct (Z.ltb_spec 0 ts), (Z.ltb_spec ts 4102444800); cbn [andb]; auto.
    right. lia. }
  destruct Hn as [-> | [-> Hts]]; [done |]. unfold formatTimestamp.
  destruct (Z.eqb_spec (ts * 1000) 0); [lia |].
  destruct (Z.leb_spec (ts * 1000) 0); [lia |].
  destruct (Z.eqb_spec ts 0); [lia |].
  destruct (Z.leb_spec ts 0); [lia |].
  destruct (Z.ltb_spec 0 (ts * 1000)); [| lia].
  destruct (Z.ltb_spec (ts * 1000) 4102444800); [lia |].
  destruct (Z.ltb_spec 0 ts); [| lia].
  destruct (Z.ltb_spec ts 4102444800); [| lia]. reflexivity.
Qed.

Lemma formatTimestamp_normalized_witness :
  formatTimestamp (λ _, "1/2/2024") 1704200000000 (normalizeTimestamp 1704153600)
  = formatTimestamp (λ _, "1/2/2024") 1704200000000 1704153600.
Proof. apply formatTimestamp_normalized. right. lia. Defined.

(** X4.  For a positive timestamp, let [age] be the time from its
    normalised value to now.  Below one minute (also for a timestamp in
    the future) the answer is "just now"; below seven days it is a count
    of minutes (1 to 59), hours (1 to 23) or days (1 to 6); from seven days
    on it is the date in the locale's format. *)
Theorem formatTimestamp_relative (toLocaleDateString : Z → string) (now ts : Z) :
  (0 < ts)%Z →
  let age := (now - normalizeTimestamp ts)%Z in
  let r := formatTimestamp toLocaleDateString now ts in
  ((age < 60000)%Z → r = "just now")
  ∧ ((60000 ≤ age < 3600000)%Z →
     r = of_Z (age / 60000) +:+ "m ago" ∧ (1 ≤ age / 60000 ≤ 59)%Z)
  ∧ ((3600000 ≤ age < 86400000)%Z →
     r = of_Z (age / 3600000) +:+ "h ago" ∧ (1 ≤ age / 3600000 ≤ 23)%Z)
  ∧ ((86400000 ≤ age < 604800000)%Z →
     r = of_Z (age / 86400000) +:+ "d ago" ∧ (1 ≤ age / 86400000 ≤ 6)%Z)
  ∧ ((604800000 ≤ age)%Z → r = toLocaleDateString (normalizeTimestamp ts)).
Proof.
  intros Hpos age r. subst age r. unfold formatTimestamp.
  destruct (Z.eqb_spec ts 0); [lia |]. destruct (Z.leb_spec ts 0); [lia |].
  cbn [orb]. fold (normalizeTimestamp ts).
  generalize (now - normalizeTimestamp ts)%Z. intros age.
  destruct (Z.ltb_spec age 60000), (Z.ltb_spec age 3600000),
    (Z.ltb_spec age 86400000), (Z.ltb_spec age 604800000);
    repeat split; try lia; try done;
    Z.to_euclidean_division_equations; lia.
Qed.

Lemma formatTimestamp_relative_witness :
  let age := (1704200000000 - normalizeTimestamp 1704153600)%Z in
  let r := formatTimestamp (λ _, "1/2/2024") 1704200000000 1704153600 in
  ((age < 60000)%Z → r = "just now")
  ∧ ((60000 ≤ age < 3600000)%Z →
     r = of_Z (age / 60000) +:+ "m ago" ∧ (1 ≤ age / 60000 ≤ 59)%Z)
  ∧ ((3600000 ≤ age < 86400000)%Z →
     r = of_Z (age / 3600000) +:+ "h ago" ∧ (1 ≤ age / 3600000 ≤ 23)%Z)
  ∧ ((86400000 ≤ age < 604800000)%Z →
     r = of_Z (age / 86400000) +:+ "d ago" ∧ (1 ≤ age / 86400000 ≤ 6)%Z)
  ∧ ((604800000 ≤ age)%Z → r = "1/2/2024").
Proof.
  apply (formatTimestamp_relative (λ _, "1/2/2024") 1704200000000 1704153600). lia.
Defined.

End TokenFacts.

(** ** compression.ts: running it again, and the listing that breaks it *)

Module RecompressFacts.
Import Js Compression JsFacts CompressionFacts.

Lemma slice0_app_exact (s t : string) :
  slice0 (String.length s) (s +:+ t) = s.
Proof.
  induction s as [|a s IH]; [by destruct t |].
  rewrite str_app_cons. cbn [String.length slice0]. by rewrite IH.
Qed.

(** X5.  [truncateToTarget] applied to its own result returns it
    unchanged, although a cut text, with its marker, is longer than the
    target size. *)
Theorem truncateToTarget_idempotent (text : string) :
  truncateToTarget (truncateToTarget text) = truncateToTarget text.
Proof.
  destruct (decide (String.length text ≤ 2000)) as [H|H].
  - by rewrite !(truncateToTarget_short text).
  - rewrite (truncateToTarget_long text) by lia.
    assert (Hcut : String.length (slice0 2000 text) = 2000)
      by (rewrite length_slice0; lia).
    rewrite truncateToTarget_long.
    + by rewrite <- Hcut at 1; rewrite slice0_app_exact.
    + rewrite !str_length_app, Hcut. change (String.length nl) with 1. lia.
Qed.

(** X6.  A text that [compressToolOutput] returned with
    [wasCompressed = true] is below the threshold: given to
    [compressToolOutput] again, under any tool name, descriptor and
    setting, it comes back unchanged with [wasCompressed = false]. *)
Theorem compress_again_unchanged tool input output autoCompress r
    tool' input' autoCompress' :
  compressToolOutput tool input output autoCompress = Ok r →
  wasCompressed r = true →
  compressToolOutput tool' input' (compressed r) autoCompress'
  = Ok {| compressed := compressed r; wasCompressed := false;
          originalSize := String.length (compressed r) |}.
Proof.
  unfold compressToolOutput at 1. intros Hrun Hwas.
  destruct (negb autoCompress || (String.length output <? COMPRESSION_THRESHOLD)).
  { injection Hrun as <-. discriminate Hwas. }
  destruct (strategy (toLowerCase tool) input output) as [mid|e];
    cbn in Hrun; [| discriminate Hrun].
  injection Hrun as <-. cbn [compressed].
  pose proof (truncateToTarget_length mid) as Hlen.
  unfold compressToolOutput, COMPRESSION_THRESHOLD.
  destruct (Nat.ltb_spec (String.length (truncateToTarget mid)) 3000); [| lia].
  by rewrite orb_true_r.
Qed.

Lemma compress_again_unchanged_witness :
  let r := {| compressed := truncateToTarget (repeat_char "x" 3000);
              wasCompressed := true; originalSize := 3000 |} in
  compressToolOutput "read" (Some [("file_path", VStr "a.ts")]) (compressed r) true
  = Ok {| compressed := compressed r; wasCompressed := false;
          originalSize := String.length (compressed r) |}.
Proof.
  intros r.
  apply (compress_again_unchanged "task" None (repeat_char "x" 3000) true r);
    [vm_compute |]; reflexivity.
Defined.

Lemma has_dir_push (d dir file : string) (dirs : dirs_t) :
  has_dir d (dirs_push dir file dirs) = true → d = dir ∨ has_dir d dirs = true.
Proof.
  induction dirs as [|[d' fs] dirs IH]; cbn [dirs_push].
  - unfold has_dir. cbn. rewrite orb_false_r. intros H%String.eqb_eq. by left.
  - destruct (String.eqb_spec d' dir) as [-> | Hne]; unfold has_dir in *; cbn in *.
    + intros H. by right.
    + intros [H | H]%orb_prop; [right; by rewrite H |].
      destruct (IH H) as [-> | ->]; [by left | right; apply orb_true_r].
Qed.

Lemma group_by_dir_throws (lines : list string) (dirs : dirs_t) :
  (∀ d, has_dir d dirs = true → existsb (String.eqb d) Object_prototype_keys = false) →
  forallb (λ line, negb (existsb (String.eqb (glob_dir line)) Object_prototype_keys))
          lines = false →
  group_by_dir lines dirs = Throw (TypeError "dirs[dir].push is not a function").
Proof.
  revert dirs. induction lines as [|line lines IH]; intros dirs Hinv H; [done |].
  cbn [forallb] in H. cbn [group_by_dir].
  destruct (existsb (String.eqb (glob_dir line)) Object_prototype_keys) eqn:Hproto.
  - destruct (has_dir (glob_dir line) dirs) eqn:Hhas; [| done].
    apply Hinv in Hhas. congruence.
  - rewrite andb_false_r. apply IH; [| done].
    intros d [-> | Hd]%has_dir_push; [done | by apply Hinv].
Qed.



(** the listing of the witness does break the compression *)
Example glob_constructor_directory :
  compressToolOutput "glob" None ("constructor/" +:+ repeat_char "x" 3000) true
  = Throw (TypeError "dirs[dir].push is not a function").
Proof. vm_compute. reflexivity. Qed.

End RecompressFacts.

(** ** session.ts *)

Module SessionFacts.
Import Js Proc Lock Dedup Session JsFacts.

(** X8.  [detectSource] answers [claude-code] exactly when
    [CLAUDE_PROJECT_DIR] is set to a non-empty text and neither
    [OPENCODE_SESSION_ID] nor [OPENCODE_DIR] is; in every other
    environment, the empty one included, it answers [opencode].  It never
    answers [unknown]. *)
Theorem detectSource_cases (env : Env) :
  detectSource env
  = (if is_set (CLAUDE_PROJECT_DIR env) && negb (is_set (OPENCODE_SESSION_ID env))
        && negb (is_set (OPENCODE_DIR env))
     then "claude-code" else "opencode")
  ∧ detectSource env ≠ "unknown".
Proof.
  unfold detectSource.
  by destruct (is_set (OPENCODE_SESSION_ID env)), (is_set (OPENCODE_DIR env)),
    (is_set (CLAUDE_PROJECT_DIR env)).
Qed.

(** *** The text of a session file *)

Section Info.
Context (sessionId source : string) (startTime : Z).

Let text := default "" (Json.stringify (session_info sessionId source startTime)).

Lemma session_text_shape :
  text
  = String "{" (Json.quote "sessionId" +:+ ":" +:+
      (Json.quote sessionId +:+ String "," (Json.quote "source" +:+ ":" +:+
        (Json.quote source +:+ String "," (Json.quote "startTime" +:+ ":" +:+
          (of_Z startTime +:+ String "}" "")))))).
Proof.
  unfold text, session_info. cbn [Json.stringify join default].
  rewrite !str_app_assoc. reflexivity.
Qed.

Lemma parse_session_text :
  Json.parse text = Some (session_info sessionId source startTime).
Proof.
  unfold Json.parse.
  assert (Hlen : 2 ≤ String.length text).
  { rewrite session_text_shape. unfold Json.quote at 1. rewrite str_app_cons.
    cbn [String.length]. lia. }
  destruct (2 * String.length text + 2) as [|[|[|[|[|fuel]]]]] eqn:Hfuel; try lia.
  rewrite session_text_shape.
  set (t3 := of_Z startTime +:+ String "}" "").
  set (r2 := Json.quote "startTime" +:+ ":" +:+ t3).
  set (t2 := Json.quote source +:+ String "," r2).
  set (r1 := Json.quote "source" +:+ ":" +:+ t2).
  set (t1 := Json.quote sessionId +:+ String "," r1).
  cbn [Json.value_ Json.skip_ws].
  change (Json.is_ws "{") with false. cbn iota.
  change (Ascii.eqb "{" Json.dq) with false.
  change (Ascii.eqb "{" "[") with false. change (Ascii.eqb "{" "{") with true.
  cbn iota.
  assert (Hskip : ∀ k t, Json.skip_ws (Json.quote k +:+ t)
                         = String Json.dq (Json.quote_body k +:+ t)).
  { intros k t. unfold Json.quote. by rewrite str_app_cons. }
  rewrite Hskip.
  assert (Hdq : ∀ (A : Type) (x y : string → A) (t : string),
            match String Json.dq t with
            | String "}"%char r => x r
            | _ => y t
            end = y t) by done.
  rewrite (Hdq _ (λ r, Some (VObj [], r))
                 (λ _, r ← Json.members _ [] _; Some (VObj (own_order r.1), r.2))).
  rewrite (JsonFacts.members_more _ [] "sessionId" t1 (VStr sessionId) r1)
    by apply JsonFacts.value_string.
  rewrite (JsonFacts.members_more _ _ "source" t2 (VStr source) r2)
    by apply JsonFacts.value_string.
  rewrite (JsonFacts.members_last _ _ "startTime" t3 (VNum startTime) "")
    by (apply JsonFacts.value_number; by eexists _, _; eauto).
  reflexivity.
Qed.

End Info.

Lemma getSessionPath_inj (directory source source' : string) :
  getSessionPath directory source' = getSessionPath directory source →
  source' = source.
Proof.
  unfold getSessionPath. intros H.
  by apply DedupFacts.str_app_inj_l, DedupFacts.str_app_inj_l,
    DedupFacts.str_app_inj_r in H.
Qed.

(** *** Writing and reading *)

Section Write.
Context (now : Z) (directory sessionId source : string) (w : world files).

Let path := getSessionPath directory source.
Let lock := path +:+ ".lock" +:+ ".lock".
Let text := default "" (Json.stringify (session_info sessionId source now)).

Hypothesis Hfree : lock ∉ held w.

Lemma write_run :
  writeSessionInfo now directory sessionId source w
  = (Ok tt, World (held w ∖ {[lock]}) ({[lock]} ∪ lockfiles w)
                  (trace w ++ [Acquired lock; Released lock])
                  (<[path := text]> (data w))).
Proof.
  unfold writeSessionInfo, bind at 1, mkdir, ret. fold path.
  unfold lock in *. rewrite <- str_app_assoc in Hfree |- *.
  by apply LockFacts.withMindLock_run.
Qed.

Lemma read_run (source' : string) (w' : world files) :
  readSessionInfo directory source' w'
  = (Ok match data w' !! getSessionPath directory source' with
        | Some content => default VNull (Json.parse content)
        | None => VNull
        end, w').
Proof.
  unfold readSessionInfo, try_catch, bind, readFile, action, ret, throw.
  destruct w' as [h lf t d]. cbn [data held lockfiles trace].
  destruct (d !! getSessionPath directory source') as [content|]; [| done].
  by destruct (Json.parse content).
Qed.

End Write.

(** X9.  With the lock free, [writeSessionInfo] succeeds and
    [readSessionInfo] for the same directory and source then returns the
    record written: the session id and the source as given, and the time
    of the write.  A later write replaces an earlier one. *)
Theorem session_write_then_read (now : Z) (directory sessionId source : string)
    (w : world files) :
  getSessionPath directory source +:+ ".lock" +:+ ".lock" ∉ held w →
  let written := writeSessionInfo now directory sessionId source w in
  written.1 = Ok tt
  ∧ (readSessionInfo directory source written.2).1
    = Ok (session_info sessionId source now).
Proof.
  intros Hfree written. subst written. rewrite write_run by done.
  split; [done |]. rewrite read_run. cbn [fst snd data].
  by rewrite lookup_insert_eq, parse_session_text.
Qed.

Lemma session_write_then_read_witness :
  let written := writeSessionInfo 1700000000000 "/p" "ses_42" "opencode" empty_world in
  written.1 = Ok tt
  ∧ (readSessionInfo "/p" "opencode" written.2).1
    = Ok (session_info "ses_42" "opencode" 1700000000000).
Proof.
  apply (session_write_then_read 1700000000000 "/p" "ses_42" "opencode" empty_world).
  simpl. apply not_elem_of_empty.
Defined.

(** X10.  The sessions of two sources are kept apart: writing the session
    of one source leaves what [readSessionInfo] returns for any other
    source as it was. *)
Theorem session_sources_apart (now : Z) (directory sessionId source source' : string)
    (w : world files) :
  getSessionPath directory source +:+ ".lock" +:+ ".lock" ∉ held w →
  source' ≠ source →
  (readSessionInfo directory source'
     (writeSessionInfo now directory sessionId source w).2).1
  = (readSessionInfo directory source' w).1.
Proof.
  intros Hfree Hne. rewrite write_run by done. rewrite !read_run.
  cbn [fst snd data]. rewrite lookup_insert_ne; [done |].
  intros Heq. by apply Hne, (getSessionPath_inj directory).
Qed.

Lemma session_sources_apart_witness :
  (readSessionInfo "/p" "claude-code"
     (writeSessionInfo 1700000000000 "/p" "ses_42" "opencode" empty_world).2).1
  = (readSessionInfo "/p" "claude-code" empty_world).1.
Proof.
  apply (session_sources_apart 1700000000000 "/p" "ses_42" "opencode" "claude-code"
           empty_world).
  - simpl. apply not_elem_of_empty.
  - discriminate.
Defined.

(** X11.  After [writeSessionInfo] for the source that [detectSource]
    finds, [getSessionId] returns the session id written, whatever the
    fallback, when that id is not empty.  A session written with the empty
    id counts as absent: the fallback is returned, or, without one, a
    generated id that starts with the source. *)
Theorem getSessionId_after_write (env : Env) (now now' : Z) (random : string)
    (directory sessionId : string) (fallbackId : option string) (w : world files) :
  let source := detectSource env in
  let written := (writeSessionInfo now directory sessionId source w).2 in
  let r := (getSessionId env now' random directory fallbackId written).1 in
  getSessionPath directory source +:+ ".lock" +:+ ".lock" ∉ held w →
  (sessionId ≠ "" → r = Ok (VStr sessionId))
  ∧ (sessionId = "" →
     r = Ok (VStr (or_else (default "" fallbackId)
                     (source +:+ "-" +:+ of_Z now' +:+ "-"
                      +:+ slice0 6 (slice_from 2 random))))).
Proof.
  intros source written r Hfree. subst r written.
  rewrite write_run by done. unfold getSessionId, bind. fold source.
  rewrite read_run. cbn [fst snd data].
  rewrite lookup_insert_eq, parse_session_text. cbn [default id].
  change (prop "sessionId" (session_info sessionId source now)) with (VStr sessionId).
  cbn [truthy]. unfold nonempty.
  destruct (String.eqb_spec sessionId "") as [-> | Hne]; cbn [negb]; by split.
Qed.

Lemma getSessionId_after_write_witness :
  let env := {| OPENCODE_SESSION_ID := None; OPENCODE_DIR := None;
                CLAUDE_PROJECT_DIR := Some "/p" |} in
  let source := detectSource env in
  let written := (writeSessionInfo 1700000000000 "/p" "ses_42" source empty_world).2 in
  let r := (getSessionId env 1700000000500 "0.4fzyo82mvyr" "/p" (Some "fallback")
              written).1 in
  ("ses_42" ≠ "" → r = Ok (VStr "ses_42"))
  ∧ ("ses_42" = "" →
     r = Ok (VStr (or_else (default "" (Some "fallback"))
                     (source +:+ "-" +:+ of_Z 1700000000500 +:+ "-"
                      +:+ slice0 6 (slice_from 2 "0.4fzyo82mvyr"))))).
Proof.
  intros env source written r.
  apply (getSessionId_after_write env 1700000000000 1700000000500 "0.4fzyo82mvyr"
           "/p" "ses_42" (Some "fallback") empty_world).
  simpl. apply not_elem_of_empty.
Defined.

(** the session of the test suite, read back under each environment *)
Example session_ids_by_environment :
  let opencode := {| OPENCODE_SESSION_ID := Some "env-session"; OPENCODE_DIR := None;
                     CLAUDE_PROJECT_DIR := None |} in
  let claude := {| OPENCODE_SESSION_ID := None; OPENCODE_DIR := None;
                   CLAUDE_PROJECT_DIR := Some "/test/project" |} in
  let w := (writeSessionInfo 1000 "/p" "existing-session" "opencode" empty_world).2 in
  (getSessionId opencode 2000 "0.4fzyo82mvyr" "/p" None w).1
  = Ok (VStr "existing-session")
  ∧ (getSessionId claude 2000 "0.4fzyo82mvyr" "/p" (Some "fallback-123") w).1
    = Ok (VStr "fallback-123")
  ∧ (getSessionId claude 2000 "0.4fzyo82mvyr" "/p" None w).1
    = Ok (VStr "claude-code-2000-4fzyo8").
Proof. vm_compute. repeat split; reflexivity. Qed.

End SessionFacts.

(** ** lock.ts: a lock is not taken twice *)

Module RelockFacts.
Import Proc Lock.

(** X12.  [withMindLock] does not nest on one path: with the lock free, a
    unit of work that itself asks for the same lock fails with "Lock file
    is already being held" before its own unit of work runs, the data stay
    as they were, and the outer call still releases the lock. *)
Theorem withMindLock_not_reentrant {Σ T : Type} (memoryPath : string) (fn : M Σ T)
    (w : world Σ) :
  let lockPath := memoryPath +:+ ".lock" in
  lockPath ∉ held w →
  withMindLock memoryPath (withMindLock memoryPath fn) w
  = (Throw (Err "Error" "Lock file is already being held"),
     World (held w ∖ {[lockPath]}) ({[lockPath]} ∪ lockfiles w)
           (trace w ++ [Acquired lockPath; Released lockPath]) (data w)).
Proof.
  intros lockPath Hfree.
  assert (Hinner : ∀ w1 : world Σ, lockPath ∈ held w1 →
            withMindLock memoryPath fn w1
            = (Throw (Err "Error" "Lock file is already being held"),
               World (held w1) ({[lockPath]} ∪ lockfiles w1) (trace w1) (data w1))).
  { intros w1 Hheld.
    unfold withMindLock, bind, mkdir, ret, touch, lockfile_lock. simpl.
    fold lockPath.
    destruct (decide _) as [_|Hno]; [|set_solver].
    by destruct (decide _) as [_|Hno]. }
  rewrite LockFacts.withMindLock_free; fold lockPath.
  - rewrite Hinner by set_solver. cbn [fst snd held lockfiles trace data].
    rewrite <- app_assoc. f_equal. f_equal; set_solver.
  - done.
  - rewrite Hinner by set_solver. cbn [snd held]. set_solver.
Qed.

Lemma withMindLock_not_reentrant_witness :
  withMindLock "/p/mind.mv2" (withMindLock "/p/mind.mv2" (ret 7))
               (World ∅ ∅ [] tt)
  = (Throw (Err "Error" "Lock file is already being held"),
     World (∅ ∖ {["/p/mind.mv2.lock"]}) ({["/p/mind.mv2.lock"]} ∪ ∅)
           ([] ++ [Acquired "/p/mind.mv2.lock"; Released "/p/mind.mv2.lock"]) tt).
Proof.
  apply (withMindLock_not_reentrant "/p/mind.mv2" (ret 7) (World ∅ ∅ [] tt)).
  simpl. apply not_elem_of_empty.
Defined.

End RelockFacts.

(** ** session-end.ts: the summary of a session *)

Module SummaryFacts.
Import Js SessionEnd JsFacts.

Lemma decisions_foldl (observations : list Obs) (a : Acc) :
  decisions (foldl visit a observations)
  = decisions a ++ (o_summary <$> List.filter is_decision observations).
Proof.
  revert a. induction observations as [|obs l IH]; intros a; cbn [foldl List.filter].
  - by rewrite app_nil_r.
  - rewrite IH. cbn [visit decisions]. destruct (is_decision obs); [| done].
    by rewrite <- app_assoc.
Qed.

(** X13.  The key decisions of a session summary are the summaries of the
    observations that have the type [decision] or whose summary mentions
    "chose" or "decided" in any letter case, in the order of the
    observations, cut after the tenth. *)
Theorem summary_key_decisions (observations : list Obs) :
  keyDecisions (generateSessionSummary observations)
  = take 10 (o_summary <$> List.filter is_decision observations)
  ∧ length (keyDecisions (generateSessionSummary observations)) ≤ 10.
Proof.
  unfold generateSessionSummary. cbn [keyDecisions].
  rewrite decisions_foldl. cbn [decisions app]. split; [done |].
  rewrite length_take. lia.
Qed.

Lemma existsb_eqb_elem (f : string) (l : list string) :
  existsb (String.eqb f) l = true ↔ f ∈ l.
Proof.
  rewrite existsb_exists. split.
  - intros (x & Hx & ->%String.eqb_eq). by apply list_elem_of_In.
  - intros H. exists f. split; [by apply list_elem_of_In | apply String.eqb_refl].
Qed.

Lemma set_add_spec (f : string) (l : list string) :
  NoDup l → NoDup (set_add f l) ∧ ∀ x, x ∈ set_add f l ↔ x = f ∨ x ∈ l.
Proof.
  intros Hnd. unfold set_add. destruct (existsb (String.eqb f) l) eqn:Hin.
  - apply existsb_eqb_elem in Hin. split; [done |]. set_solver.
  - assert (f ∉ l) by (rewrite <- existsb_eqb_elem; congruence).
    split; [| set_solver]. apply NoDup_app. set_solver by eauto using NoDup_singleton.
Qed.

Lemma set_add_foldl (fs l : list string) :
  NoDup l →
  NoDup (foldl (λ l f, set_add f l) l fs)
  ∧ ∀ x, x ∈ foldl (λ l f, set_add f l) l fs ↔ x ∈ l ∨ x ∈ fs.
Proof.
  revert l. induction fs as [|f fs IH]; intros l Hnd; cbn [foldl].
  - split; [done |]. set_solver.
  - destruct (set_add_spec f l Hnd) as [Hnd' Hin].
    destruct (IH _ Hnd') as [Hnd'' Hin'']. split; [done |].
    intros x. rewrite Hin'', Hin. set_solver.
Qed.

Lemma files_foldl (observations : list Obs) (a : Acc) :
  NoDup (files a) →
  NoDup (files (foldl visit a observations))
  ∧ ∀ x, x ∈ files (foldl visit a observations)
         ↔ x ∈ files a
           ∨ ∃ obs fs, obs ∈ observations ∧ o_files obs = Some fs ∧ x ∈ fs.
Proof.
  revert a. induction observations as [|obs l IH]; intros a Hnd; cbn [foldl].
  - split; [done |]. intros x. split; [auto |].
    intros [H | (obs & fs & Hobs & _)]; [done |]. by apply elem_of_nil in Hobs.
  - assert (Hstep : NoDup (files (visit a obs))
                    ∧ ∀ x, x ∈ files (visit a obs)
                           ↔ x ∈ files a ∨ ∃ fs, o_files obs = Some fs ∧ x ∈ fs).
    { cbn [visit files]. destruct (o_files obs) as [fs|].
      - destruct (set_add_foldl fs (files a) Hnd) as [H1 H2]. split; [done |].
        intros x. rewrite H2. split; [| by intros [? | (? & [= <-] & ?)]; auto].
        intros [? | ?]; eauto.
      - split; [done |]. intros x. split; [auto |]. by intros [? | (? & ? & ?)]. }
    destruct Hstep as [Hnd' Hin]. destruct (IH _ Hnd') as [Hnd'' Hin''].
    split; [done |]. intros x. rewrite Hin'', Hin. split.
    + intros [[H | (fs & Hfs & Hx)] | (o & fs & Ho & Hfs & Hx)]; [by left | |].
      * right. exists obs, fs. split; [left | done].
      * right. exists o, fs. split; [by right | done].
    + intros [H | (o & fs & Ho & Hfs & Hx)]; [by left; left |].
      apply elem_of_cons in Ho as [-> | Ho]; [left; right; eauto |].
      right. eauto.
Qed.

(** X14.  The modified files of a session summary hold no file twice and
    are at most 20; each is a file of some observation; and a file of an
    observation is among them unless the 20 places are taken. *)
Theorem summary_files_modified (observations : list Obs) :
  let r := filesModified (generateSessionSummary observations) in
  NoDup r
  ∧ length r ≤ 20
  ∧ (∀ f, f ∈ r →
       ∃ obs fs, obs ∈ observations ∧ o_files obs = Some fs ∧ f ∈ fs)
  ∧ (∀ obs fs f, obs ∈ observations → o_files obs = Some fs → f ∈ fs →
       f ∈ r ∨ length r = 20).
Proof.
  intros r. subst r. unfold generateSessionSummary. cbn [filesModified].
  set (a0 := {| decisions := []; files := []; typeCounts := [] |}).
  destruct (files_foldl observations a0) as [Hnd Hin]; [apply NoDup_nil_2 |].
  set (all := files (foldl visit a0 observations)) in *.
  split; [eapply sublist_NoDup; [exact Hnd | apply sublist_take] |].
  split; [rewrite length_take; lia |]. split.
  - intros f Hf. apply (subseteq_take 20 all) in Hf.
    apply Hin in Hf as [Hf | Hf]; [by apply elem_of_nil in Hf | done].
  - intros obs fs f Hobs Hfs Hf.
    assert (Hall : f ∈ all) by (apply Hin; right; eauto).
    destruct (decide (length all ≤ 20)) as [Hle | Hgt].
    + left. by rewrite take_ge.
    + right. rewrite length_take. lia.
Qed.

Lemma count_of_obj_set (t t' : string) (v : Z) (counts : list (string * Z)) :
  count_of t (obj_set t' v counts) = if String.eqb t t' then v else count_of t counts.
Proof.
  induction counts as [|[k n] counts IH]; cbn [obj_set count_of].
  - by destruct (String.eqb t t').
  - destruct (String.eqb_spec t' k) as [-> | Hne]; cbn [count_of].
    + by destruct (String.eqb t k).
    + rewrite IH. destruct (String.eqb_spec t k) as [-> | Hne'].
      * destruct (String.eqb_spec k t'); [congruence | done].
      * done.
Qed.

Lemma count_of_count_type (t t' : string) (counts : list (string * Z)) :
  existsb (String.eqb t) Compression.Object_prototype_keys = false →
  count_of t (count_type t' counts)
  = (count_of t counts + if String.eqb t' t then 1 else 0)%Z.
Proof.
  intros Hplain. unfold count_type.
  destruct (existsb (String.eqb t') Compression.Object_prototype_keys) eqn:Hproto.
  - destruct (String.eqb_spec t' t) as [-> | _]; [congruence | lia].
  - rewrite count_of_obj_set.
    destruct (String.eqb_spec t t') as [-> | Hne].
    + rewrite String.eqb_refl. destruct (Z.eqb_spec (count_of t' counts) 0); lia.
    + destruct (String.eqb_spec t' t); [congruence | lia].
Qed.

Lemma counts_foldl (t : string) (observations : list Obs) (a : Acc) :
  existsb (String.eqb t) Compression.Object_prototype_keys = false →
  count_of t (typeCounts (foldl visit a observations))
  = (count_of t (typeCounts a) + Z.of_nat (occurrences t observations))%Z.
Proof.
  intros Hplain. revert a. unfold occurrences.
  induction observations as [|obs l IH]; intros a; cbn [foldl List.filter].
  - cbn [length]. lia.
  - rewrite IH. cbn [visit typeCounts]. rewrite count_of_count_type by done.
    destruct (String.eqb (o_type obs) t); cbn [length]; lia.
Qed.

(** X15.  The text of a session summary is built from the numbers of
    observations of the types [feature], [bugfix], [refactor],
    [discovery], [problem] and [solution], each named with its count when
    it is not zero.  Observations of other types are not counted: when
    none of the six types occurs, the text is "Session with N
    observations." for the N observations given. *)
Theorem summary_counts_types (observations : list Obs) :
  let counted := ["feature"; "bugfix"; "refactor"; "discovery"; "problem";
                  "solution"] in
  summary (generateSessionSummary observations)
  = summary_text ((λ t, (t, Z.of_nat (occurrences t observations))) <$> counted)
                 (length observations)
  ∧ ((∀ t, t ∈ counted → occurrences t observations = 0) →
     summary (generateSessionSummary observations)
     = "Session with " +:+ of_nat (length observations) +:+ " observations.").
Proof.
  intros counted. unfold generateSessionSummary. cbn [summary].
  set (a0 := {| decisions := []; files := []; typeCounts := [] |}).
  assert (Hcount : ∀ t, t ∈ counted →
            count_of t (typeCounts (foldl visit a0 observations))
            = Z.of_nat (occurrences t observations)).
  { intros t Ht. rewrite counts_foldl; [cbn; lia |].
    subst counted. repeat (apply elem_of_cons in Ht as [-> | Ht]; [reflexivity |]).
    by apply elem_of_nil in Ht. }
  unfold summary_text, part.
  rewrite !Hcount by (subst counted; set_solver).
  split; [reflexivity |]. intros Hnone.
  rewrite !Hnone by (subst counted; set_solver). reflexivity.
Qed.

(** a session of four observations, two of them counted *)
Example summary_of_a_session :
  generateSessionSummary
    [ {| o_type := "feature"; o_summary := "Added login form"; o_content := "";
         o_files := Some ["src/login.ts"; "src/app.ts"] |};
      {| o_type := "decision"; o_summary := "Use JWT"; o_content := "";
         o_files := None |};
      {| o_type := "bugfix"; o_summary := "We Decided to drop the cache";
         o_content := ""; o_files := Some ["src/app.ts"] |};
      {| o_type := "constructor"; o_summary := "odd label"; o_content := "";
         o_files := Some [] |} ]
  = {| keyDecisions := ["Use JWT"; "We Decided to drop the cache"];
       filesModified := ["src/login.ts"; "src/app.ts"];
       summary := "Added 1 feature(s). Fixed 1 bug(s)." |}.
Proof. vm_compute. reflexivity. Qed.

End SummaryFacts.

(** ** tool-capture.ts *)

Module CaptureFacts.
Import Js Proc Lock Helpers Compression Mind ToolCapture JsFacts.

(** *** The cache of recent observations *)

Lemma cache_after_mark (t_set t_prune now : Z) (key k : string)
    (recent : gmap string Z) :
  (t_prune - t_set ≤ CACHE_STALE_MS)%Z →
  (t_prune ≤ now)%Z →
  isDuplicate now k (markObserved t_set t_prune key recent)
  = if decide (k = key)
    then negb (t_set =? 0)%Z && (now - t_set <? DEDUP_WINDOW_MS)%Z
    else isDuplicate now k recent.
Proof.
  intros Hset Hnow. unfold markObserved, isDuplicate.
  assert (Hplain :
    match <[key := t_set]> recent !! k with
    | Some lastSeen =>
        if (lastSeen =? 0)%Z then false else (now - lastSeen <? DEDUP_WINDOW_MS)%Z
    | None => false
    end
    = if decide (k = key)
      then negb (t_set =? 0)%Z && (now - t_set <? DEDUP_WINDOW_MS)%Z
      else match recent !! k with
           | Some lastSeen =>
               if (lastSeen =? 0)%Z then false
               else (now - lastSeen <? DEDUP_WINDOW_MS)%Z
           | None => false
           end).
  { destruct (decide (k = key)) as [-> | Hne].
    - rewrite lookup_insert_eq. by destruct (t_set =? 0)%Z.
    - by rewrite lookup_insert_ne. }
  destruct (CACHE_MAX_SIZE <? size (<[key := t_set]> recent)); [| exact Hplain].
  rewrite <- Hplain.
  destruct (<[key := t_set]> recent !! k) as [v|] eqn:Hk.
  - destruct (decide (CACHE_STALE_MS < t_prune - v)%Z) as [Hstale | Hfresh].
    + rewrite (proj2 (map_lookup_filter_None _ _ _)).
      * destruct (v =? 0)%Z; [done |]. symmetry. apply Z.ltb_ge.
        unfold CACHE_STALE_MS, DEDUP_WINDOW_MS in *. lia.
      * right. intros v' Hv'. rewrite Hk in Hv'. injection Hv' as <-. cbn. tauto.
    + by rewrite (proj2 (map_lookup_filter_Some _ _ _ _) (conj Hk Hfresh)).
  - rewrite (proj2 (map_lookup_filter_None _ _ _)); [done | by left].
Qed.

(** X16.  After [markObserved] has recorded a key at time [t_set], a later
    [isDuplicate] answers for that key whether less than 60 seconds have
    passed (a key recorded at time 0 is never a duplicate), and for every
    other key what it answered before: the pruning of a cache above 100
    entries removes only entries older than 120 seconds, which are no
    duplicates any more. *)
Theorem markObserved_isDuplicate (t_set t_prune now : Z) (key k : string)
    (recent : gmap string Z) :
  (t_prune - t_set ≤ CACHE_STALE_MS)%Z →
  (t_prune ≤ now)%Z →
  isDuplicate now k (markObserved t_set t_prune key recent)
  = if decide (k = key)
    then negb (t_set =? 0)%Z && (now - t_set <? DEDUP_WINDOW_MS)%Z
    else isDuplicate now k recent.
Proof. apply cache_after_mark. Qed.

Lemma markObserved_isDuplicate_witness :
  isDuplicate 1700000030000 "read:call_1"
    (markObserved 1700000000000 1700000000001 "read:call_1" ∅)
  = if decide ("read:call_1" = "read:call_1")
    then negb (1700000000000 =? 0)%Z
         && (1700000030000 - 1700000000000 <? DEDUP_WINDOW_MS)%Z
    else isDuplicate 1700000030000 "read:call_1" ∅.
Proof.
  apply (markObserved_isDuplicate 1700000000000 1700000000001 1700000030000
           "read:call_1" "read:call_1" ∅); vm_compute; discriminate.
Defined.

(** *** Calls that store nothing *)

Lemma or_else_empty (s : string) : or_else s "" = s.
Proof. unfold or_else, nonempty. by destruct (String.eqb_spec s "") as [-> |]. Qed.

Lemma capture_early_exit (t_dup : Z) (id : string) (t_obs t_set t_prune : Z)
    (input : ToolInput) (output : ToolOutput) (getMind : M state Mind)
    (w : world state) :
  let toolName := toLowerCase (tool input) in
  let key := getObservationKey toolName (callID input) in
  observed toolName = false
  ∨ isDuplicate t_dup key (recentObservations (data w)) = true
  ∨ always_captured toolName = false
    ∧ String.length (out_output output) < MIN_OUTPUT_LENGTH
  ∨ skipped (out_output output) = true →
  handleToolCapture t_dup id t_obs t_set t_prune input output getMind w = (Ok tt, w).
Proof.
  intros toolName key H. unfold handleToolCapture. fold toolName. fold key.
  destruct (observed toolName); [| done]. cbn [negb].
  unfold bind at 1, gets, action. destruct w as [h lf t s]. cbn [data held lockfiles trace] in *.
  destruct (isDuplicate t_dup key (recentObservations s)); [done |].
  rewrite or_else_empty.
  destruct H as [H | [H | [[Halways Hshort] | H]]]; try done.
  - rewrite Halways. cbn [negb andb].
    by destruct (Nat.ltb_spec (String.length (out_output output)) MIN_OUTPUT_LENGTH);
      [| lia].
  - rewrite H. by destruct (negb (always_captured toolName) && _).
Qed.

(** X17.  [handleToolCapture] returns without calling [getMind] and
    without changing anything (no frame stored, no key recorded) for a
    tool outside the observed ones, for a key that [isDuplicate] knows,
    for an output under 50 characters of a tool that is not always
    captured, and for an output that contains one of the skip patterns. *)
Theorem capture_stores_nothing (t_dup : Z) (id : string) (t_obs t_set t_prune : Z)
    (input : ToolInput) (output : ToolOutput) (getMind : M state Mind)
    (w : world state) :
  let toolName := toLowerCase (tool input) in
  let key := getObservationKey toolName (callID input) in
  observed toolName = false
  ∨ isDuplicate t_dup key (recentObservations (data w)) = true
  ∨ always_captured toolName = false
    ∧ String.length (out_output output) < MIN_OUTPUT_LENGTH
  ∨ skipped (out_output output) = true →
  handleToolCapture t_dup id t_obs t_set t_prune input output getMind w = (Ok tt, w).
Proof. apply capture_early_exit. Qed.

Lemma capture_stores_nothing_witness :
  let input := {| tool := "Read"; sessionID := "ses_1"; callID := "call_1" |} in
  let output := {| out_title := "a.ts"; out_output := "short";
                   out_metadata := None |} in
  let w := World ∅ ∅ [] (State None ∅ None ∅) in
  handleToolCapture 1000 "00ff" 1001 1002 1003 input output
                    (throw (Err "Error" "not reached")) w
  = (Ok tt, w).
Proof.
  intros input output w.
  apply (capture_stores_nothing 1000 "00ff" 1001 1002 1003 input output).
  right. right. left. split; [reflexivity | vm_compute; lia].
Defined.

(** *** Calls that store a frame *)

Lemma remember_run (mind : Mind) (input : RememberInput) (id : string) (now : Z)
    (w : world fs) (size : N) (frames : list Frame) :
  let path := getMemoryPath mind in
  let lock := path +:+ ".lock" in
  lock ∉ held w →
  data w !! path = Some (File size (Valid frames)) →
  remember mind input id now w
  = (Ok (of_nat (length frames)),
     World (held w ∖ {[lock]}) ({[lock]} ∪ lockfiles w)
           (trace w ++ [Acquired lock; Released lock])
           (<[path := File size (Valid (frames ++ [frame_of mind input id now]))]>
              (data w))).
Proof.
  intros path lock Hfree Hstore. unfold remember, withLock. fold path.
  apply LockFacts.withMindLock_run; [done |]. intros h l t.
  unfold bind, use, put, action. cbn [data held lockfiles trace].
  rewrite Hstore. cbn [data held lockfiles trace handle_path].
  by rewrite Hstore.
Qed.

Section Capture.
Context (t_dup : Z) (id : string) (t_obs t_set t_prune : Z).
Context (input : ToolInput) (output : ToolOutput) (getMind : M state Mind).
Context (w w1 : world state) (mind : Mind).
Context (effectiveOutput : string) (c : CompressionResult).

Let toolName := toLowerCase (tool input).
Let key := getObservationKey toolName (callID input).

Hypothesis Hobserved : observed toolName = true.
Hypothesis Hnew : isDuplicate t_dup key (recentObservations (data w)) = false.
Hypothesis Hlong :
  always_captured toolName = true ∨ MIN_OUTPUT_LENGTH ≤ String.length (out_output output).
Hypothesis Hkept : skipped (out_output output) = false.
Hypothesis Heffective :
  effective_output toolName (out_output output) (out_metadata output)
  = Ok effectiveOutput.
Hypothesis Hcompress :
  compressToolOutput toolName (out_metadata output) effectiveOutput true = Ok c.
Hypothesis HgetMind : getMind w = (Ok mind, w1).

(** the call, up to the point where [remember] runs on the files *)
Lemma capture_reaches_remember :
  handleToolCapture t_dup id t_obs t_set t_prune input output getMind w
  = match remember mind (capture_input toolName output c) id t_obs
            (World (held w1) (lockfiles w1) (trace w1) (disk (data w1))) with
    | (Ok _, wd) =>
        (Ok tt,
         World (held wd) (lockfiles wd) (trace wd)
               (State (mindInstance (data w1))
                      (markObserved t_set t_prune key (recentObservations (data w1)))
                      (pluginMind (data w1)) (data wd)))
    | (Throw e, wd) =>
        (Throw e,
         World (held wd) (lockfiles wd) (trace wd)
               (State (mindInstance (data w1)) (recentObservations (data w1))
                      (pluginMind (data w1)) (data wd)))
    end.
Proof.
  unfold handleToolCapture. fold toolName. fold key.
  rewrite Hobserved. cbn [negb].
  unfold bind at 1, gets, action. rewrite Hnew. rewrite or_else_empty, Hkept.
  assert (Hpass : negb (always_captured toolName)
                  && (String.length (out_output output) <? MIN_OUTPUT_LENGTH) = false).
  { destruct Hlong as [-> | Hlen]; [done |].
    destruct (Nat.ltb_spec (String.length (out_output output)) MIN_OUTPUT_LENGTH);
      [lia | apply andb_false_r]. }
  rewrite Hpass. unfold bind, lift. rewrite Heffective, Hcompress.
  cbn [data held lockfiles trace].
  assert (Hw : World (held w) (lockfiles w) (trace w) (data w) = w) by by destruct w.
  rewrite Hw, HgetMind. unfold on_disk, zoom, modify, action, ret.
  destruct (remember _ _ _ _ _) as [[v|e] wd]; reflexivity.
Qed.

End Capture.

Lemma capture_run (t_dup : Z) (id : string) (t_obs t_set t_prune : Z)
    (input : ToolInput) (output : ToolOutput) (getMind : M state Mind)
    (w w1 : world state) (mind : Mind) (effectiveOutput : string)
    (c : CompressionResult) (size : N) (frames : list Frame) :
  let toolName := toLowerCase (tool input) in
  let key := getObservationKey toolName (callID input) in
  let path := getMemoryPath mind in
  let lock := path +:+ ".lock" in
  let frame := frame_of mind (capture_input toolName output c) id t_obs in
  observed toolName = true →
  isDuplicate t_dup key (recentObservations (data w)) = false →
  always_captured toolName = true
  ∨ MIN_OUTPUT_LENGTH ≤ String.length (out_output output) →
  skipped (out_output output) = false →
  effective_output toolName (out_output output) (out_metadata output)
  = Ok effectiveOutput →
  compressToolOutput toolName (out_metadata output) effectiveOutput true = Ok c →
  getMind w = (Ok mind, w1) →
  lock ∉ held w1 →
  disk (data w1) !! path = Some (File size (Valid frames)) →
  handleToolCapture t_dup id t_obs t_set t_prune input output getMind w
  = (Ok tt,
     World (held w1 ∖ {[lock]}) ({[lock]} ∪ lockfiles w1)
           (trace w1 ++ [Acquired lock; Released lock])
           (State (mindInstance (data w1))
                  (markObserved t_set t_prune key (recentObservations (data w1)))
                  (pluginMind (data w1))
                  (<[path := File size (Valid (frames ++ [frame]))]> (disk (data w1))))).
Proof.
  intros toolName key path lock frame Hobs Hnew Hlong Hkept Heff Hcomp Hmind
    Hfree Hstore.
  rewrite (capture_reaches_remember t_dup id t_obs t_set t_prune input output
             getMind w w1 mind effectiveOutput c) by done.
  by rewrite (remember_run mind _ id t_obs _ size frames).
Qed.

(** X18.  A call of [handleToolCapture] that passes the filters, for which
    [getMind] yields a mind whose store opens and whose lock is free,
    appends one frame to that store, built by [remember] from the
    compressed output cut to 2500 characters, and records the key of the
    call in the cache after that.  Nothing else changes. *)
Theorem capture_stores_frame (t_dup : Z) (id : string) (t_obs t_set t_prune : Z)
    (input : ToolInput) (output : ToolOutput) (getMind : M state Mind)
    (w w1 : world state) (mind : Mind) (effectiveOutput : string)
    (c : CompressionResult) (size : N) (frames : list Frame) :
  let toolName := toLowerCase (tool input) in
  let key := getObservationKey toolName (callID input) in
  let path := getMemoryPath mind in
  let lock := path +:+ ".lock" in
  let frame := frame_of mind (capture_input toolName output c) id t_obs in
  observed toolName = true →
  isDuplicate t_dup key (recentObservations (data w)) = false →
  always_captured toolName = true
  ∨ MIN_OUTPUT_LENGTH ≤ String.length (out_output output) →
  skipped (out_output output) = false →
  effective_output toolName (out_output output) (out_metadata output)
  = Ok effectiveOutput →
  compressToolOutput toolName (out_metadata output) effectiveOutput true = Ok c →
  getMind w = (Ok mind, w1) →
  lock ∉ held w1 →
  disk (data w1) !! path = Some (File size (Valid frames)) →
  handleToolCapture t_dup id t_obs t_set t_prune input output getMind w
  = (Ok tt,
     World (held w1 ∖ {[lock]}) ({[lock]} ∪ lockfiles w1)
           (trace w1 ++ [Acquired lock; Released lock])
           (State (mindInstance (data w1))
                  (markObserved t_set t_prune key (recentObservations (data w1)))
                  (pluginMind (data w1))
                  (<[path := File size (Valid (frames ++ [frame]))]> (disk (data w1)))))
  ∧ text frame = slice0 MAX_OUTPUT_LENGTH (compressed c).
Proof.
  intros toolName key path lock frame Hobs Hnew Hlong Hkept Heff Hcomp Hmind
    Hfree Hstore.
  split; [| reflexivity].
  by apply (capture_run t_dup id t_obs t_set t_prune input output getMind w w1 mind
              effectiveOutput c).
Qed.

Lemma capture_stores_frame_witness :
  let mind := mind_of 900 "0123456789abcdef" "/p" DEFAULT_CONFIG
                      {| handle_path := "/p/.claude/mind.mv2" |} in
  let input := {| tool := "Edit"; sessionID := "ses_1"; callID := "call_7" |} in
  let output := {| out_title := "src/a.ts"; out_output := "ok";
                   out_metadata := Some [("filePath", VStr "/p/src/a.ts")] |} in
  let c := {| compressed := "File modified: a.ts" +:+ nl +:+ "Path: /p/src/a.ts"
                            +:+ nl +:+ "Tool: edit";
              wasCompressed := false; originalSize := 48 |} in
  let w := World ∅ ∅ []
             (State (Some mind) ∅ None
                    {["/p/.claude/mind.mv2" := File 0 (Valid [])]}) in
  let lock := getMemoryPath mind +:+ ".lock" in
  let frame := frame_of mind (capture_input "edit" output c) "00ff" 1001 in
  handleToolCapture 1000 "00ff" 1001 1002 1003 input output
                    (getMind 1000 "00ff" "/p" DEFAULT_CONFIG) w
  = (Ok tt,
     World (held w ∖ {[lock]}) ({[lock]} ∪ lockfiles w)
           (trace w ++ [Acquired lock; Released lock])
           (State (mindInstance (data w))
                  (markObserved 1002 1003 (getObservationKey "edit" "call_7")
                                (recentObservations (data w)))
                  (pluginMind (data w))
                  (<[getMemoryPath mind := File 0 (Valid ([] ++ [frame]))]>
                     (disk (data w)))))
  ∧ text frame = slice0 MAX_OUTPUT_LENGTH (compressed c).
Proof.
  intros mind input output c w lock frame.
  apply (capture_stores_frame 1000 "00ff" 1001 1002 1003 input output
           (getMind 1000 "00ff" "/p" DEFAULT_CONFIG) w w mind
           (compressed c) c 0 []).
  - reflexivity.
  - reflexivity.
  - left. reflexivity.
  - reflexivity.
  - reflexivity.
  - reflexivity.
  - reflexivity.
  - simpl. apply not_elem_of_empty.
  - reflexivity.
Defined.

(** X19.  What a capture stores, by the length of the effective output,
    with compression enabled: up to 2500 characters the output itself;
    from 2501 to 2999 characters its first 2500 characters, with no marker
    and [wasCompressed = false]; from 3000 characters on the compressed
    text, which has at most 2016 characters, with [wasCompressed = true]
    and the original length. *)
Theorem captured_content (toolName : string) (output : ToolOutput)
    (effectiveOutput : string) (c : CompressionResult) :
  compressToolOutput toolName (out_metadata output) effectiveOutput true = Ok c →
  let content := input_content (capture_input toolName output c) in
  String.length content ≤ 2500
  ∧ (String.length effectiveOutput ≤ 2500 →
     content = effectiveOutput ∧ wasCompressed c = false)
  ∧ (2500 < String.length effectiveOutput < 3000 →
     content = slice0 2500 effectiveOutput ∧ wasCompressed c = false)
  ∧ (3000 ≤ String.length effectiveOutput →
     content = compressed c ∧ String.length content ≤ 2016
     ∧ wasCompressed c = true
     ∧ originalSize c = String.length effectiveOutput).
Proof.
  intros Hc content. subst content. cbn [capture_input input_content].
  unfold MAX_OUTPUT_LENGTH.
  split; [rewrite length_slice0; lia |].
  unfold compressToolOutput, COMPRESSION_THRESHOLD in Hc. cbn [negb orb] in Hc.
  destruct (Nat.ltb_spec (String.length effectiveOutput) 3000) as [Hlt | Hge].
  - injection Hc as <-. cbn [compressed wasCompressed].
    split; [| split]; intros H; try lia.
    + split; [by apply slice0_all | done].
    + done.
  - destruct (strategy _ _ _) as [mid|e]; cbn in Hc; [| discriminate Hc].
    injection Hc as <-. cbn [compressed wasCompressed originalSize].
    pose proof (CompressionFacts.truncateToTarget_length mid) as Hlen.
    split; [| split]; intros H; try lia.
    rewrite slice0_all by lia. done.
Qed.

Lemma captured_content_witness :
  let output := {| out_title := ""; out_output := repeat_char "x" 2700;
                   out_metadata := None |} in
  let c := {| compressed := repeat_char "x" 2700; wasCompressed := false;
              originalSize := 2700 |} in
  let content := input_content (capture_input "bash" output c) in
  String.length content ≤ 2500
  ∧ (String.length (repeat_char "x" 2700) ≤ 2500 →
     content = repeat_char "x" 2700 ∧ wasCompressed c = false)
  ∧ (2500 < String.length (repeat_char "x" 2700) < 3000 →
     content = slice0 2500 (repeat_char "x" 2700) ∧ wasCompressed c = false)
  ∧ (3000 ≤ String.length (repeat_char "x" 2700) →
     content = compressed c ∧ String.length content ≤ 2016
     ∧ wasCompressed c = true
     ∧ originalSize c = String.length (repeat_char "x" 2700)).
Proof.
  intros output c.
  apply (captured_content "bash" output (repeat_char "x" 2700) c).
  vm_compute. reflexivity.
Defined.

(** X20.  When [remember] fails, [handleToolCapture] fails with the same
    error and the key of the call is not recorded, so that the next call
    for it is not taken for a duplicate. *)
Theorem capture_failure_unmarked (t_dup : Z) (id : string) (t_obs t_set t_prune : Z)
    (input : ToolInput) (output : ToolOutput) (getMind : M state Mind)
    (w w1 : world state) (mind : Mind) (effectiveOutput : string)
    (c : CompressionResult) (e : exn) (wd : world fs) :
  let toolName := toLowerCase (tool input) in
  let key := getObservationKey toolName (callID input) in
  let run := handleToolCapture t_dup id t_obs t_set t_prune input output getMind w in
  observed toolName = true →
  isDuplicate t_dup key (recentObservations (data w)) = false →
  always_captured toolName = true
  ∨ MIN_OUTPUT_LENGTH ≤ String.length (out_output output) →
  skipped (out_output output) = false →
  effective_output toolName (out_output output) (out_metadata output)
  = Ok effectiveOutput →
  compressToolOutput toolName (out_metadata output) effectiveOutput true = Ok c →
  getMind w = (Ok mind, w1) →
  remember mind (capture_input toolName output c) id t_obs
           (World (held w1) (lockfiles w1) (trace w1) (disk (data w1)))
  = (Throw e, wd) →
  run.1 = Throw e
  ∧ recentObservations (data run.2) = recentObservations (data w1)
  ∧ disk (data run.2) = data wd.
Proof.
  intros toolName key run Hobs Hnew Hlong Hkept Heff Hcomp Hmind Hfail. subst run.
  rewrite (capture_reaches_remember t_dup id t_obs t_set t_prune input output
             getMind w w1 mind effectiveOutput c) by done.
  fold toolName. by rewrite Hfail.
Qed.

Lemma capture_failure_unmarked_witness :
  let mind := mind_of 900 "0123456789abcdef" "/p" DEFAULT_CONFIG
                      {| handle_path := "/p/.claude/mind.mv2" |} in
  let input := {| tool := "Edit"; sessionID := "ses_1"; callID := "call_7" |} in
  let output := {| out_title := "src/a.ts"; out_output := "ok";
                   out_metadata := Some [("filePath", VStr "/p/src/a.ts")] |} in
  let w := World ∅ ∅ [] (State (Some mind) ∅ None ∅) in
  let run := handleToolCapture 1000 "00ff" 1001 1002 1003 input output
                               (getMind 1000 "00ff" "/p" DEFAULT_CONFIG) w in
  run.1 = Throw (Err "Error" "no such file")
  ∧ recentObservations (data run.2) = recentObservations (data w)
  ∧ disk (data run.2) = ∅.
Proof.
  intros mind input output w.
  apply (capture_failure_unmarked 1000 "00ff" 1001 1002 1003 input output
           (getMind 1000 "00ff" "/p" DEFAULT_CONFIG) w w mind
           ("File modified: a.ts" +:+ nl +:+ "Path: /p/src/a.ts" +:+ nl
            +:+ "Tool: edit")
           {| compressed := "File modified: a.ts" +:+ nl +:+ "Path: /p/src/a.ts"
                            +:+ nl +:+ "Tool: edit";
              wasCompressed := false; originalSize := 48 |}
           (Err "Error" "no such file")
           (World (∅ ∖ {["/p/.claude/mind.mv2.lock"]})
                  ({["/p/.claude/mind.mv2.lock"]} ∪ ∅)
                  ([] ++ [Acquired "/p/.claude/mind.mv2.lock";
                          Released "/p/.claude/mind.mv2.lock"]) ∅)).
  - reflexivity.
  - reflexivity.
  - left. reflexivity.
  - reflexivity.
  - reflexivity.
  - reflexivity.
  - reflexivity.
  - vm_compute. reflexivity.
Defined.

(** X21.  After a call of [handleToolCapture] has stored a frame, a call
    for the same tool (in any letter case) and the same call id, made less
    than 60 seconds after the key was recorded, stores nothing and changes
    nothing, whatever its output. *)
Theorem capture_then_duplicate (t_dup : Z) (id : string) (t_obs t_set t_prune : Z)
    (input : ToolInput) (output : ToolOutput) (getMind : M state Mind)
    (w w1 : world state) (mind : Mind) (effectiveOutput : string)
    (c : CompressionResult) (size : N) (frames : list Frame)
    (t_dup' : Z) (id' : string) (t_obs' t_set' t_prune' : Z)
    (input' : ToolInput) (output' : ToolOutput) (getMind' : M state Mind) :
  let toolName := toLowerCase (tool input) in
  let key := getObservationKey toolName (callID input) in
  let lock := getMemoryPath mind +:+ ".lock" in
  let w2 := (handleToolCapture t_dup id t_obs t_set t_prune input output getMind w).2 in
  observed toolName = true →
  isDuplicate t_dup key (recentObservations (data w)) = false →
  always_captured toolName = true
  ∨ MIN_OUTPUT_LENGTH ≤ String.length (out_output output) →
  skipped (out_output output) = false →
  effective_output toolName (out_output output) (out_metadata output)
  = Ok effectiveOutput →
  compressToolOutput toolName (out_metadata output) effectiveOutput true = Ok c →
  getMind w = (Ok mind, w1) →
  lock ∉ held w1 →
  disk (data w1) !! getMemoryPath mind = Some (File size (Valid frames)) →
  toLowerCase (tool input') = toolName →
  callID input' = callID input →
  t_set ≠ 0%Z →
  (t_prune - t_set ≤ CACHE_STALE_MS)%Z →
  (t_prune ≤ t_dup')%Z →
  (t_dup' - t_set < DEDUP_WINDOW_MS)%Z →
  handleToolCapture t_dup' id' t_obs' t_set' t_prune' input' output' getMind' w2
  = (Ok tt, w2).
Proof.
  intros toolName key lock w2 Hobs Hnew Hlong Hkept Heff Hcomp Hmind Hfree Hstore
    Htool Hcall Hzero Hstale Hlater Hsoon.
  apply capture_early_exit. right. left. rewrite Htool, Hcall. fold toolName key.
  subst w2.
  rewrite (capture_run t_dup id t_obs t_set t_prune input output getMind w w1 mind
             effectiveOutput c size frames) by done.
  cbn [snd data recentObservations]. rewrite cache_after_mark by done.
  rewrite decide_True by done.
  destruct (Z.eqb_spec t_set 0); [done |].
  by destruct (Z.ltb_spec (t_dup' - t_set) DEDUP_WINDOW_MS); [| lia].
Qed.

Lemma capture_then_duplicate_witness :
  let mind := mind_of 900 "0123456789abcdef" "/p" DEFAULT_CONFIG
                      {| handle_path := "/p/.claude/mind.mv2" |} in
  let input := {| tool := "Edit"; sessionID := "ses_1"; callID := "call_7" |} in
  let output := {| out_title := "src/a.ts"; out_output := "ok";
                   out_metadata := Some [("filePath", VStr "/p/src/a.ts")] |} in
  let w := World ∅ ∅ []
             (State (Some mind) ∅ None
                    {["/p/.claude/mind.mv2" := File 0 (Valid [])]}) in
  let getMind := getMind 1000 "00ff" "/p" DEFAULT_CONFIG in
  let w2 := (handleToolCapture 1000 "00ff" 1001 1002 1003 input output getMind w).2 in
  handleToolCapture 2000 "00fe" 2001 2002 2003
    {| tool := "EDIT"; sessionID := "ses_1"; callID := "call_7" |}
    {| out_title := "src/a.ts"; out_output := repeat_char "y" 80;
       out_metadata := None |} getMind w2
  = (Ok tt, w2).
Proof.
  intros mind input output w getMind w2.
  apply (capture_then_duplicate 1000 "00ff" 1001 1002 1003 input output getMind
           w w mind
           ("File modified: a.ts" +:+ nl +:+ "Path: /p/src/a.ts" +:+ nl
            +:+ "Tool: edit")
           {| compressed := "File modified: a.ts" +:+ nl +:+ "Path: /p/src/a.ts"
                            +:+ nl +:+ "Tool: edit";
              wasCompressed := false; originalSize := 48 |} 0 []).
  - reflexivity.
  - reflexivity.
  - left. reflexivity.
  - reflexivity.
  - reflexivity.
  - reflexivity.
  - reflexivity.
  - simpl. apply not_elem_of_empty.
  - reflexivity.
  - reflexivity.
  - reflexivity.
  - discriminate.
  - vm_compute. discriminate.
  - vm_compute. discriminate.
  - reflexivity.
Defined.

End CaptureFacts.

(** ** plugin.ts *)

Module PluginFacts.
Import Js Proc Mind ToolCapture Plugin JsFacts.

Lemma skipped_includes (p s : string) :
  p ∈ SKIP_PATTERNS → includes p s = true → skipped s = true.
Proof.
  intros Hp Hs. unfold skipped. apply existsb_exists. exists p.
  split; [by apply list_elem_of_In | done].
Qed.

Lemma context_text_shape (recent : list ContextObservation) :
  ∃ rest, formatContextForSystem recent = "<opencode-mind-context>" +:+ rest.
Proof. unfold formatContextForSystem. cbn [app join]. by eexists. Qed.

(** X22.  The text that [formatContextForSystem] builds for the system
    prompt opens with the tag [<opencode-mind-context>], one of the skip
    patterns of the tool capture: a tool output that contains such a text
    anywhere is never stored, and [handleToolCapture] leaves everything as
    it is. *)
Theorem context_text_is_skipped (recent : list ContextObservation)
    (before after : string) (t_dup : Z) (id : string) (t_obs t_set t_prune : Z)
    (input : ToolInput) (output : ToolOutput) (getMind : M state Mind)
    (w : world state) :
  out_output output = before +:+ formatContextForSystem recent +:+ after →
  skipped (out_output output) = true
  ∧ handleToolCapture t_dup id t_obs t_set t_prune input output getMind w
    = (Ok tt, w).
Proof.
  intros Hout.
  assert (Hskip : skipped (out_output output) = true).
  { apply (skipped_includes "<opencode-mind-context>"); [set_solver |].
    destruct (context_text_shape recent) as [rest Hrest].
    apply includes_spec. exists before, (rest +:+ after).
    by rewrite Hout, Hrest, str_app_assoc. }
  split; [done |]. apply CaptureFacts.capture_early_exit. auto.
Qed.

Lemma context_text_is_skipped_witness :
  let recent := [ {| c_type := "decision"; c_summary := "Use JWT";
                     c_source := Some "claude-code" |} ] in
  let output := {| out_title := "notes.md";
                   out_output := "# Notes" +:+ nl +:+ formatContextForSystem recent
                                 +:+ nl +:+ "end";
                   out_metadata := None |} in
  let input := {| tool := "read"; sessionID := "ses_1"; callID := "call_1" |} in
  let w := World ∅ ∅ [] (State None ∅ None ∅) in
  skipped (out_output output) = true
  ∧ handleToolCapture 1000 "00ff" 1001 1002 1003 input output
                      (getMind 1000 "00ff" "/p" DEFAULT_CONFIG) w
    = (Ok tt, w).
Proof.
  intros recent output input w.
  apply (context_text_is_skipped recent ("# Notes" +:+ nl) (nl +:+ "end")).
  cbn [out_output output]. by rewrite !str_app_assoc.
Defined.

End PluginFacts.

(** ** mind.ts: opening a store, and what a frame carries *)

Module MindFacts.
Import Js Proc Lock Mind JsFacts ObjectFacts.

(** *** The store is not one of its backups *)

Lemma includes_char_free (a : ascii) (s : string) :
  includes (String a "") s = false → free_of a s = true.
Proof.
  induction s as [|b s IH]; [done |]. cbn [includes prefix free_of].
  intros H. apply orb_false_elim in H as [Hb Hs].
  rewrite andb_true_r in Hb. rewrite IH by done.
  rewrite Ascii.eqb_sym, Hb. done.
Qed.

Lemma split_go_nonempty (sep : ascii) (cur s : string) : split_go sep cur s ≠ [].
Proof.
  revert cur. induction s as [|c s IH]; intros cur; cbn [split_go]; [done |].
  destruct (Ascii.eqb c sep); [done | apply IH].
Qed.

Lemma last_cons_nonempty {A} (x d : A) (l : list A) :
  l ≠ [] → List.last (x :: l) d = List.last l d.
Proof. by destruct l. Qed.

Lemma last_split_go (sep : ascii) (cur pre name d : string) :
  List.last (split_go sep cur (pre +:+ String sep name)) d
  = List.last (split_go sep "" name) d.
Proof.
  revert cur. induction pre as [|a pre IH]; intros cur.
  - rewrite str_app_nil_l. cbn [split_go]. rewrite Ascii.eqb_refl.
    apply last_cons_nonempty, split_go_nonempty.
  - rewrite str_app_cons. cbn [split_go]. destruct (Ascii.eqb a sep); [| apply IH].
    rewrite last_cons_nonempty by apply split_go_nonempty. apply IH.
Qed.

Lemma baseName_of_child (dir name : string) :
  nonempty name = true → includes "/" name = false →
  baseName_of (dir_prefix dir +:+ name) = name.
Proof.
  intros Hne Hfree. unfold baseName_of, split.
  assert (Hpre : ∃ pre, dir_prefix dir +:+ name = pre +:+ String "/" name).
  { unfold dir_prefix. destruct (String.eqb dir "/").
    - by exists "".
    - exists dir. by rewrite str_app_assoc. }
  destruct Hpre as [pre ->]. rewrite last_split_go.
  rewrite LineFacts.split_go_free by by apply includes_char_free.
  cbn [List.last]. rewrite str_app_nil_l. unfold or_else. by rewrite Hne.
Qed.

Lemma child_name_parts (dir path name : string) :
  child_name dir path = Some name →
  path = dir_prefix dir +:+ name ∧ nonempty name = true ∧ includes "/" name = false.
Proof.
  unfold child_name. destruct (prefix (dir_prefix dir) path) eqn:Hpre; [| done].
  apply prefix_spec in Hpre as [b ->]. rewrite slice_from_app.
  destruct (nonempty b) eqn:Hne; [| done]. cbn [andb].
  destruct (includes "/" b) eqn:Hin; [done |]. by intros [= <-].
Qed.

Lemma store_not_backup (memoryPath : string) (d : fs) :
  Regex.test (backupPattern (baseName_of memoryPath)) (baseName_of memoryPath) = false →
  memoryPath ∉ path <$> backups_of memoryPath (entries_of (dirname memoryPath) d).
Proof.
  intros Hplain (b & Hpath & Hb)%list_elem_of_fmap.
  pose proof (OpenFacts.sorted_path memoryPath d b Hb) as Hres.
  assert (Hname : name b ∈ backup_entries memoryPath d).
  { rewrite <- (OpenFacts.sorted_names memoryPath d). by apply list_elem_of_fmap_2. }
  apply OpenFacts.backup_entries_spec in Hname as [Hentry Hmatch].
  apply OpenFacts.elem_of_entries_of in Hentry as [_ Hchild].
  rewrite <- Hres, <- Hpath in Hchild.
  apply child_name_parts in Hchild as (Hp & Hne & Hfree).
  assert (Hbase : baseName_of memoryPath = name b).
  { rewrite Hp at 1. by apply baseName_of_child. }
  rewrite <- Hbase in Hmatch. congruence.
Qed.

(** *** A store that opens *)

Lemma open_locked_valid (now : Z) (memoryPath : string) h lf t (d : fs)
    (size : N) (frames : list Frame) :
  d !! memoryPath = Some (File size (Valid frames)) →
  (size ≤ 100 * 1024 * 1024)%N →
  open_locked now memoryPath (World h lf t d)
  = (Ok {| handle_path := memoryPath |}, World h lf t d).
Proof.
  intros Hfile Hsize.
  unfold open_locked, bind, existsSync, gets, statSync_size, try_catch, use, action.
  cbn [data held lockfiles trace]. rewrite Hfile.
  rewrite bool_decide_eq_true_2 by eauto. cbn [negb data held lockfiles trace].
  rewrite Hfile. cbn [data held lockfiles trace].
  destruct (N.ltb_spec (MAX_FILE_SIZE_MB * (1024 * 1024)) size) as [Hbig | _].
  { unfold MAX_FILE_SIZE_MB in Hbig. lia. }
  cbn [data held lockfiles trace]. by rewrite Hfile.
Qed.

Lemma open_locked_oversize (now : Z) (memoryPath : string) h lf t (d : fs)
    (size : N) (content : store) :
  d !! memoryPath = Some (File size content) →
  (100 * 1024 * 1024 < size)%N →
  open_locked now memoryPath (World h lf t d)
  = (Ok {| handle_path := memoryPath |},
     World h lf t
       (<[memoryPath := File 0 (Valid [])]>
          (if is_dir d (backupPath_of memoryPath now) then d
           else <[backupPath_of memoryPath now := File size content]>
                  (delete memoryPath d)))).
Proof.
  intros Hfile Hsize.
  pose proof (OpenFacts.backupPath_ne memoryPath now) as Hne.
  unfold open_locked, bind, existsSync, gets, statSync_size, try_catch, renameSync,
    create, ret, action.
  cbn [data held lockfiles trace]. rewrite Hfile.
  rewrite bool_decide_eq_true_2 by eauto. cbn [negb data held lockfiles trace].
  rewrite Hfile. cbn [data held lockfiles trace].
  destruct (N.ltb_spec (MAX_FILE_SIZE_MB * (1024 * 1024)) size) as [_ | Hsmall].
  2: { unfold MAX_FILE_SIZE_MB in Hsmall. lia. }
  cbn [data held lockfiles trace]. rewrite Hfile. unfold is_dir.
  destruct (d !! backupPath_of memoryPath now) as [[? ?|]|] eqn:Hbackup;
    cbn [data held lockfiles trace];
    rewrite ?Hfile, ?lookup_insert_ne, ?lookup_delete_eq by done; done.
Qed.

Section Opened.
Context (now : Z) (id directory : string) (config : MindConfig) (w : world fs).

Let memoryPath := resolve directory (memoryPath config).
Let lock := memoryPath +:+ ".lock".
Let dropped (d : fs) :=
  drop 3 (backups_of memoryPath (entries_of (dirname memoryPath) d)).

Hypothesis Hfree : lock ∉ held w.

(** [open], when the unit of work under the lock yields the handle and
    the files [d1] *)
Lemma open_with (d1 : fs) :
  (∀ h lf t, open_locked now memoryPath (World h lf t (data w))
             = (Ok {| handle_path := memoryPath |}, World h lf t d1)) →
  open now id directory config w
  = (Ok (mind_of now id directory config {| handle_path := memoryPath |}),
     World (held w ∖ {[lock]}) ({[lock]} ∪ lockfiles w)
           (trace w ++ [Acquired lock; Released lock])
           (after_unlinks (dropped d1) d1)).
Proof.
  intros Hunit. rewrite OpenFacts.open_run. fold memoryPath.
  rewrite (LockFacts.withMindLock_run memoryPath _ w
             (Ok {| handle_path := memoryPath |}) d1) by done.
  by rewrite OpenFacts.pruneBackups_ok.
Qed.

End Opened.



(** X24.  A store of more than 100 MiB is set aside whether it opens or
    not: with the lock free, the unit of work of [open] leaves a fresh,
    empty store at the store path and, unless a directory has the name of
    the backup, the old store under [<path>.backup-<now>]; [open] returns
    a mind for the store path. *)
Theorem open_sets_aside_large_store (now : Z) (id directory : string)
    (config : MindConfig) (w : world fs) (size : N) (content : store) :
  let memoryPath := resolve directory (memoryPath config) in
  let backupPath := memoryPath +:+ ".backup-" +:+ of_Z now in
  memoryPath +:+ ".lock" ∉ held w →
  data w !! memoryPath = Some (File size content) →
  (100 * 1024 * 1024 < size)%N →
  (open now id directory config w).1
  = Ok (mind_of now id directory config {| handle_path := memoryPath |})
  ∧ ∃ w1,
      withMindLock memoryPath (open_locked now memoryPath) w
      = (Ok {| handle_path := memoryPath |}, w1)
      ∧ data w1 !! memoryPath = Some (File 0 (Valid []))
      ∧ (is_dir (data w) backupPath = false →
         data w1 !! backupPath = Some (File size content)).
Proof.
  intros memoryPath backupPath Hfree Hfile Hsize.
  pose proof (OpenFacts.backupPath_ne memoryPath now) as Hne.
  split.
  - by rewrite (open_with now id directory config w Hfree _
                  (λ h lf t, open_locked_oversize now memoryPath h lf t (data w)
                               size content Hfile Hsize)).
  - eexists. split.
    + apply LockFacts.withMindLock_run; [done |]. intros h lf t.
      by apply open_locked_oversize.
    + cbn [data]. split; [by rewrite lookup_insert_eq |].
      intros Hdir. unfold backupPath_of in *. fold backupPath in Hne |- *.
      rewrite Hdir. by rewrite lookup_insert_ne, lookup_insert_eq.
Qed.

Lemma open_sets_aside_large_store_witness :
  let memoryPath := "/p/.claude/mind.mv2" in
  let backupPath := memoryPath +:+ ".backup-" +:+ of_Z 1700000000009 in
  let w := World ∅ ∅ []
             {["/p/.claude/mind.mv2" := File 104857601 (Valid [])]} in
  (open 1700000000009 "00ff00ff00ff00ff" "/p" DEFAULT_CONFIG w).1
  = Ok (mind_of 1700000000009 "00ff00ff00ff00ff" "/p" DEFAULT_CONFIG
                {| handle_path := memoryPath |})
  ∧ ∃ w1,
      withMindLock memoryPath (open_locked 1700000000009 memoryPath) w
      = (Ok {| handle_path := memoryPath |}, w1)
      ∧ data w1 !! memoryPath = Some (File 0 (Valid []))
      ∧ (is_dir (data w) backupPath = false →
         data w1 !! backupPath = Some (File 104857601 (Valid []))).
Proof.
  intros memoryPath backupPath w.
  apply (open_sets_aside_large_store 1700000000009 "00ff00ff00ff00ff" "/p"
           DEFAULT_CONFIG w 104857601 (Valid [])).
  - simpl. apply not_elem_of_empty.
  - vm_compute. reflexivity.
  - vm_compute. reflexivity.
Defined.



(** *** The singleton *)

(** X26.  Once [getMind] has returned a mind, every later call returns
    that mind and changes nothing, whatever directory and configuration
    it is given.  A call that fails leaves no instance behind, so the next
    call opens the store again. *)
Theorem getMind_returns_first (now : Z) (id directory : string) (config : MindConfig)
    (w w1 : world state) (r : result Mind) :
  getMind now id directory config w = (r, w1) →
  match r with
  | Ok mind =>
      mindInstance (data w1) = Some mind
      ∧ ∀ now' id' directory' config',
          getMind now' id' directory' config' w1 = (Ok mind, w1)
  | Throw _ => mindInstance (data w1) = None
  end.
Proof.
  assert (Hagain : ∀ (w1 : world state) mind, mindInstance (data w1) = Some mind →
            ∀ now' id' directory' config',
              getMind now' id' directory' config' w1 = (Ok mind, w1)).
  { intros [h lf t s] mind Hinst now' id' directory' config'.
    unfold getMind, bind, gets, action, ret. cbn [data held lockfiles trace] in *.
    by rewrite Hinst. }
  intros Hrun. unfold getMind, bind at 1, gets, action in Hrun.
  cbn [data held lockfiles trace] in Hrun.
  destruct (mindInstance (data w)) as [mind|] eqn:Hinst.
  - unfold ret in Hrun. injection Hrun as <- <-. cbn [data].
    by split; [| apply Hagain].
  - unfold bind, on_disk, zoom, modify, action, ret in Hrun.
    destruct (open now id directory config _) as [[mind|e] wd];
      cbn [data held lockfiles trace] in Hrun; injection Hrun as <- <-;
      cbn [data mindInstance].
    + by split; [| apply Hagain].
    + done.
Qed.

Lemma getMind_returns_first_witness :
  let w := World ∅ ∅ [] (State None ∅ None ∅) in
  let first := getMind 1000 "0123456789abcdef" "/p" DEFAULT_CONFIG w in
  match first.1 with
  | Ok mind =>
      mindInstance (data first.2) = Some mind
      ∧ ∀ now' id' directory' config',
          getMind now' id' directory' config' first.2 = (Ok mind, first.2)
  | Throw _ => mindInstance (data first.2) = None
  end.
Proof.
  intros w first.
  apply (getMind_returns_first 1000 "0123456789abcdef" "/p" DEFAULT_CONFIG w).
  apply surjective_pairing.
Defined.

(** the second directory is not opened *)
Example getMind_ignores_second_directory :
  let w := World ∅ ∅ [] (State None ∅ None ∅) in
  let first := getMind 1000 "0123456789abcdef" "/p" DEFAULT_CONFIG w in
  let second := getMind 2000 "fedcba9876543210" "/q" DEFAULT_CONFIG first.2 in
  second.1 = first.1
  ∧ directory <$> match second.1 with Ok m => Some m | Throw _ => None end = Some "/p"
  ∧ disk (data second.2) !! "/q/.claude/mind.mv2" = None.
Proof. vm_compute. repeat split; reflexivity. Qed.

(** X27.  [resetMind] clears the instance of mind.ts but not the variable
    of the plugin's closure: after [ensureMind] has returned a mind and
    [resetMind] has run, [ensureMind] still returns that mind, without
    opening the store again, while [mindInstance] is empty. *)
Theorem ensureMind_survives_reset (now : Z) (id directory : string)
    (w w1 : world state) (mind : Mind) (now' : Z) (id' : string) :
  Plugin.ensureMind now id directory w = (Ok mind, w1) →
  let w2 := (resetMind w1).2 in
  mindInstance (data w2) = None
  ∧ Plugin.ensureMind now' id' directory w2 = (Ok mind, w2).
Proof.
  intros Hrun w2.
  assert (Hplugin : pluginMind (data w1) = Some mind).
  { unfold Plugin.ensureMind, bind at 1, gets, action in Hrun.
    cbn [data held lockfiles trace] in Hrun.
    destruct (pluginMind (data w)) as [m|] eqn:Hm.
    - unfold ret in Hrun. by injection Hrun as <- <-.
    - unfold bind, modify, action, ret in Hrun.
      destruct (getMind now id directory DEFAULT_CONFIG _) as [[m|e] wg];
        cbn [data held lockfiles trace] in Hrun; [| done].
      by injection Hrun as <- <-. }
  subst w2. unfold resetMind, modify, action. cbn [snd data mindInstance].
  split; [done |].
  unfold Plugin.ensureMind, bind, gets, action, ret.
  cbn [data held lockfiles trace pluginMind]. by rewrite Hplugin.
Qed.

Lemma ensureMind_survives_reset_witness :
  let w := World ∅ ∅ [] (State None ∅ None ∅) in
  let mind := mind_of 1000 "0123456789abcdef" "/p" DEFAULT_CONFIG
                      {| handle_path := "/p/.claude/mind.mv2" |} in
  let w1 := (Plugin.ensureMind 1000 "0123456789abcdef" "/p" w).2 in
  let w2 := (resetMind w1).2 in
  mindInstance (data w2) = None
  ∧ Plugin.ensureMind 2000 "fedcba9876543210" "/p" w2 = (Ok mind, w2).
Proof.
  intros w mind w1.
  apply (ensureMind_survives_reset 1000 "0123456789abcdef" "/p" w w1 mind).
  vm_compute. reflexivity.
Defined.

(** *** The metadata of a frame *)

Lemma get_lookup (k : string) (o : object) :
  get k o = default VUndefined ((list_to_map o : gmap string value) !! k).
Proof.
  induction o as [|[k' v] o IH]; [done |]. cbn [get list_to_map foldr].
  destruct (String.eqb_spec k k') as [-> | Hne].
  - by rewrite lookup_insert_eq.
  - by rewrite lookup_insert_ne.
Qed.

Lemma get_perm (k : string) (o1 o2 : object) :
  NoDup o1.*1 → o1 ≡ₚ o2 → get k o1 = get k o2.
Proof.
  intros Hnd Hperm. rewrite !get_lookup.
  by rewrite (list_to_map_proper (M := gmap string) o1 o2 Hnd Hperm).
Qed.

Lemma get_spread (k : string) (a b : object) :
  NoDup a.*1 → NoDup b.*1 →
  get k (spread a b) = if decide (k ∈ b.*1) then get k b else get k a.
Proof.
  intros Ha Hb. unfold spread.
  rewrite (get_perm k (own_order (assign a b)) (assign a b)).
  - destruct (decide (k ∈ b.*1)); [by apply get_assign_in | by apply get_assign_notin].
  - rewrite (fmap_Permutation fst _ _ (own_order_perm _)). by apply assign_NoDup.
  - apply own_order_perm.
Qed.

Lemma spread_keys (k : string) (a b : object) :
  k ∈ (spread a b).*1 ↔ k ∈ a.*1 ∨ k ∈ b.*1.
Proof.
  unfold spread. rewrite (fmap_Permutation fst _ _ (own_order_perm _)).
  revert a. induction b as [|[k' v] b IH]; intros a.
  - unfold assign. cbn. set_solver.
  - rewrite assign_cons, IH, obj_set_keys. cbn [fmap list_fmap fst].
    destruct (decide (k' ∈ a.*1)); set_solver.
Qed.

Lemma spread_NoDup (a b : object) : NoDup a.*1 → NoDup (spread a b).*1.
Proof.
  intros Ha. unfold spread.
  rewrite (fmap_Permutation fst _ _ (own_order_perm _)). by apply assign_NoDup.
Qed.

Lemma frame_metadata (mind : Mind) (input : RememberInput) (id : string)
    (now : Z) (k : string) :
  let given := default [] (input_metadata input) in
  let generated := [("observationId", VStr id); ("timestamp", VNum now);
                    ("tool", opt_str (input_tool input))] in
  NoDup given.*1 →
  get k (metadata (frame_of mind input id now))
  = if decide (k = "sessionId")
    then (if truthy (get "sessionId" given) then get "sessionId" given
          else VStr (sessionId mind))
    else if decide (k = "source") then VStr (effectiveSource input)
    else if decide (k ∈ given.*1) then get k given
    else get k generated.
Proof.
  intros given generated Hnd. cbn [frame_of metadata observation_of obs_metadata
    obs_id obs_timestamp obs_tool].
  fold given.
  set (eff := [("sessionId", effectiveSessionId mind input);
               ("source", VStr (effectiveSource input))]).
  assert (Heff : NoDup eff.*1).
  { cbn. repeat (apply NoDup_cons; split; [set_solver |]). apply NoDup_nil_2. }
  assert (Hsid : effectiveSessionId mind input
                 = if truthy (get "sessionId" given) then get "sessionId" given
                   else VStr (sessionId mind)).
  { unfold effectiveSessionId, vor, given, opt_get.
    by destruct (input_metadata input). }
  rewrite get_spread; [| | by apply spread_NoDup].
  2: { cbn. repeat (apply NoDup_cons; split; [set_solver |]). apply NoDup_nil_2. }
  destruct (decide (k ∈ (spread given eff).*1)) as [Hin | Hout].
  - rewrite get_spread by done.
    destruct (decide (k = "sessionId")) as [-> | H1].
    { rewrite decide_True by set_solver. cbn. exact Hsid. }
    destruct (decide (k = "source")) as [-> | H2].
    { rewrite decide_True by set_solver. reflexivity. }
    rewrite decide_False by set_solver.
    apply spread_keys in Hin as [Hin | Hin]; [| set_solver].
    by rewrite decide_True.
  - rewrite spread_keys in Hout.
    rewrite !decide_False by set_solver.
    assert (k ≠ "sessionId" ∧ k ≠ "source") as [H1 H2] by set_solver.
    unfold generated.
    destruct (String.eqb_spec k "observationId") as [-> | ?]; [reflexivity |].
    destruct (String.eqb_spec k "timestamp") as [-> | ?]; [reflexivity |].
    destruct (String.eqb_spec k "tool") as [-> | ?]; [reflexivity |].
    subst eff. rewrite !get_cons_ne by done. done.
Qed.

(** X28.  In the metadata of the frame that [remember] builds, [sessionId]
    is the input's own when that is truthy and the mind's otherwise, and
    [source] is the effective source.  Every other key that the input's
    metadata holds keeps the input's value, also [observationId],
    [timestamp] and [tool]: there the caller's value replaces the
    generated identifier, the time of the call and the tool.  The
    generated values stand only under the keys the input leaves out. *)
Theorem frame_metadata_precedence (mind : Mind) (input : RememberInput) (id : string)
    (now : Z) (k : string) :
  let given := default [] (input_metadata input) in
  let generated := [("observationId", VStr id); ("timestamp", VNum now);
                    ("tool", opt_str (input_tool input))] in
  NoDup given.*1 →
  get k (metadata (frame_of mind input id now))
  = if decide (k = "sessionId")
    then (if truthy (get "sessionId" given) then get "sessionId" given
          else VStr (sessionId mind))
    else if decide (k = "source") then VStr (effectiveSource input)
    else if decide (k ∈ given.*1) then get k given
    else get k generated.
Proof. apply frame_metadata. Qed.

Lemma frame_metadata_precedence_witness :
  let mind := mind_of 900 "0123456789abcdef" "/p" DEFAULT_CONFIG
                      {| handle_path := "/p/.claude/mind.mv2" |} in
  let input := {| input_type := Helpers.discovery; input_summary := "read done";
                  input_content := "text"; input_tool := Some "read";
                  input_metadata := Some [("timestamp", VNum 5);
                                          ("sessionId", VStr "")] |} in
  let given := default [] (input_metadata input) in
  let generated := [("observationId", VStr "00ff"); ("timestamp", VNum 2000);
                    ("tool", opt_str (input_tool input))] in
  get "timestamp" (metadata (frame_of mind input "00ff" 2000))
  = if decide ("timestamp" = "sessionId")
    then (if truthy (get "sessionId" given) then get "sessionId" given
          else VStr (sessionId mind))
    else if decide ("timestamp" = "source") then VStr (effectiveSource input)
    else if decide ("timestamp" ∈ given.*1) then get "timestamp" given
    else get "timestamp" generated.
Proof.
  intros mind input given generated.
  apply (frame_metadata_precedence mind input "00ff" 2000 "timestamp").
  cbn. repeat (apply NoDup_cons; split; [set_solver |]). apply NoDup_nil_2.
Defined.

(** a caller's timestamp replaces the time of the call *)
Example frame_keeps_caller_timestamp :
  let mind := mind_of 900 "0123456789abcdef" "/p" DEFAULT_CONFIG
                      {| handle_path := "/p/.claude/mind.mv2" |} in
  let input := {| input_type := Helpers.discovery; input_summary := "read done";
                  input_content := "text"; input_tool := Some "read";
                  input_metadata := Some [("timestamp", VNum 5);
                                          ("sessionId", VStr "")] |} in
  let frame := frame_of mind input "00ff" 2000 in
  get "timestamp" (metadata frame) = VNum 5
  ∧ get "sessionId" (metadata frame) = VStr "0123456789abcdef"
  ∧ get "observationId" (metadata frame) = VStr "00ff".
Proof. vm_compute. repeat split; reflexivity. Qed.

End MindFacts.

(** ** tool-capture.ts, the revision with the cross-process check *)

Module CrossCaptureFacts.
Import Js Proc Lock Helpers Compression Dedup Session Mind ToolCapture JsFacts.
Import CrossCapture.

(** *** A call that is filtered out *)

Section Filtered.
Context (env : Env) (cwd : string) (t_dup t_sid : Z) (random oid : string) (t_obs : Z).
Context (input : ToolInput) (output : ToolOutput) (getMind : M host Mind).
Context (directory : option string) (w : world host).

Let toolName := toLowerCase (tool input).
Let dir := or_else (default "" directory) (or_else (default "" (OPENCODE_DIR env)) cwd).
Let source := detectSource env.
Let path := getDedupPath dir.
Let lock := path +:+ ".lock" +:+ ".lock".
Let hash := Md5.digest (dedup_key source toolName (default [] (out_metadata output))).

Hypothesis Hobserved : observed toolName = true.
Hypothesis Hfree : lock ∉ held w.
Hypothesis Hnone : texts (data w) !! path = None.
Hypothesis Hfiltered :
  always_captured toolName = false
  ∧ String.length (out_output output) < MIN_OUTPUT_LENGTH
  ∨ skipped (out_output output) = true.

Lemma filtered_run :
  CrossCapture.handleToolCapture env cwd t_dup t_sid random oid t_obs input output
    getMind directory w
  = (Ok tt,
     World (held w ∖ {[lock]}) ({[lock]} ∪ lockfiles w)
           (trace w ++ [Acquired lock; Released lock])
           (Host (<[path := entry_line t_dup hash source]> (texts (data w)))
                 (proc (data w)))).
Proof.
  unfold CrossCapture.handleToolCapture. fold toolName dir source.
  rewrite Hobserved. cbn [negb]. unfold bind at 1, on_texts, zoom.
  rewrite (DedupFacts.first_check t_dup dir source toolName
             (default [] (out_metadata output))
             (World (held w) (lockfiles w) (trace w) (texts (data w)))) by done.
  cbn [held lockfiles trace data]. fold path lock hash.
  rewrite CaptureFacts.or_else_empty.
  destruct Hfiltered as [[Halways Hshort] | Hskip].
  - rewrite Halways. cbn [negb andb].
    by destruct (Nat.ltb_spec (String.length (out_output output)) MIN_OUTPUT_LENGTH);
      [| lia].
  - rewrite Hskip. by destruct (negb (always_captured toolName) && _).
Qed.

Lemma blocked_run (t_dup' t_sid' : Z) (random' id' : string) (t_obs' : Z)
    (input' : ToolInput) (output' : ToolOutput) (getMind' : M host Mind)
    (w1 : world host) :
  toLowerCase (tool input') = toolName →
  out_metadata output' = out_metadata output →
  (t_dup' - t_dup < Dedup.DEDUP_WINDOW_MS)%Z →
  lock ∉ held w1 →
  texts (data w1) !! path = Some (entry_line t_dup hash source) →
  CrossCapture.handleToolCapture env cwd t_dup' t_sid' random' id' t_obs' input' output'
    getMind' directory w1
  = (Ok tt,
     World (held w1 ∖ {[lock]}) ({[lock]} ∪ lockfiles w1)
           (trace w1 ++ [Acquired lock; Released lock]) (data w1)).
Proof.
  clear Hfiltered Hfree Hnone. intros Htool Hmeta Hsoon Hfree1 Hlog.
  unfold CrossCapture.handleToolCapture. rewrite Htool, Hmeta. fold dir source.
  rewrite Hobserved. cbn [negb]. unfold bind at 1, on_texts, zoom.
  rewrite (DedupFacts.check_run t_dup' dir source toolName
             (default [] (out_metadata output))
             (World (held w1) (lockfiles w1) (trace w1) (texts (data w1)))
             [new_entry t_dup hash source]).
  - fold hash. cbn [existsb]. rewrite DedupFacts.has_hash_entry.
    rewrite bool_decide_eq_true_2 by done. cbn [orb held lockfiles trace data].
    fold path lock. unfold ret. by destruct w1 as [h lf t [tx p]].
  - done.
  - cbn [data]. fold path. rewrite Hlog. cbn [default id].
    rewrite DedupFacts.survivors_entry.
    by destruct (Z.ltb_spec (t_dup' - t_dup) Dedup.DEDUP_WINDOW_MS); [| lia].
Qed.

End Filtered.

(** X29.  In this revision the duplicate check comes before the filters.
    A first call for an observed tool whose output is filtered out (too
    short, or holding a skip pattern) stores no frame but does write its
    hash to the log.  A call made less than 60 seconds later for the same
    tool with the same metadata is then dropped as a duplicate whatever
    its output: [getMind] is not called and no frame is stored. *)
Theorem filtered_call_blocks_next (env : Env) (cwd : string) (t_dup t_sid : Z)
    (random id : string) (t_obs : Z) (input : ToolInput) (output : ToolOutput)
    (getMind : M host Mind) (directory : option string) (w : world host)
    (t_dup' t_sid' : Z) (random' id' : string) (t_obs' : Z)
    (input' : ToolInput) (output' : ToolOutput) (getMind' : M host Mind) :
  let toolName := toLowerCase (tool input) in
  let dir := or_else (default "" directory)
               (or_else (default "" (OPENCODE_DIR env)) cwd) in
  let path := getDedupPath dir in
  let hash := Md5.digest (dedup_key (detectSource env) toolName
                            (default [] (out_metadata output))) in
  let first := CrossCapture.handleToolCapture env cwd t_dup t_sid random id t_obs
                 input output getMind directory w in
  let second := CrossCapture.handleToolCapture env cwd t_dup' t_sid' random' id' t_obs'
                  input' output' getMind' directory first.2 in
  observed toolName = true →
  path +:+ ".lock" +:+ ".lock" ∉ held w →
  texts (data w) !! path = None →
  always_captured toolName = false
  ∧ String.length (out_output output) < MIN_OUTPUT_LENGTH
  ∨ skipped (out_output output) = true →
  toLowerCase (tool input') = toolName →
  out_metadata output' = out_metadata output →
  (t_dup' - t_dup < Dedup.DEDUP_WINDOW_MS)%Z →
  first.1 = Ok tt
  ∧ proc (data first.2) = proc (data w)
  ∧ texts (data first.2)
    = <[path := entry_line t_dup hash (detectSource env)]> (texts (data w))
  ∧ second.1 = Ok tt
  ∧ data second.2 = data first.2.
Proof.
  intros toolName dir path hash first second Hobs Hfree Hnone Hfiltered Htool Hmeta
    Hsoon.
  subst second first.
  rewrite (filtered_run env cwd t_dup t_sid random id t_obs input output getMind
             directory w) by done.
  cbn [fst snd data texts proc]. fold toolName dir path hash.
  split; [done |]. split; [done |]. split; [done |].
  rewrite (blocked_run env cwd t_dup input output directory Hobs
             t_dup' t_sid' random' id' t_obs' input' output' getMind').
  - done.
  - done.
  - done.
  - done.
  - cbn [held]. fold dir path. set_solver.
  - cbn [data texts]. fold dir path. by rewrite lookup_insert_eq.
Qed.

Lemma filtered_call_blocks_next_witness :
  let env := {| OPENCODE_SESSION_ID := Some "ses_1"; OPENCODE_DIR := None;
                CLAUDE_PROJECT_DIR := None |} in
  let input := {| tool := "Read"; sessionID := "ses_1"; callID := "call_1" |} in
  let metadata := Some [("filePath", VStr "/p/src/a.ts")] in
  let output := {| out_title := "a.ts"; out_output := "short";
                   out_metadata := metadata |} in
  let output' := {| out_title := "a.ts"; out_output := repeat_char "x" 400;
                    out_metadata := metadata |} in
  let w := World ∅ ∅ [] (Host ∅ (State None ∅ None ∅)) in
  let getMind := on_proc (getMind 1000 "00ff" "/p" DEFAULT_CONFIG) in
  let path := getDedupPath "/p" in
  let hash := Md5.digest (dedup_key "opencode" "read" (default [] metadata)) in
  let first := CrossCapture.handleToolCapture env "/p" 1000 1001 "0.4fzyo82mvyr" "00ff"
                 1002 input output getMind None w in
  let second := CrossCapture.handleToolCapture env "/p" 2000 2001 "0.4fzyo82mvyr" "00fe"
                  2002 input output' getMind None first.2 in
  first.1 = Ok tt
  ∧ proc (data first.2) = proc (data w)
  ∧ texts (data first.2) = <[path := entry_line 1000 hash "opencode"]> (texts (data w))
  ∧ second.1 = Ok tt
  ∧ data second.2 = data first.2.
Proof.
  intros env input metadata output output' w getMind path hash.
  apply (filtered_call_blocks_next env "/p" 1000 1001 "0.4fzyo82mvyr" "00ff" 1002
           input output getMind None w 2000 2001 "0.4fzyo82mvyr" "00fe" 2002
           input output' getMind).
  - reflexivity.
  - simpl. apply not_elem_of_empty.
  - reflexivity.
  - left. split; [reflexivity | vm_compute; lia].
  - reflexivity.
  - reflexivity.
  - vm_compute. reflexivity.
Defined.

(** *** A call that stores a frame *)

Lemma detectSource_valid (env : Env) :
  effectiveSource
    {| input_type := discovery; input_summary := ""; input_content := "";
       input_tool := None;
       input_metadata := Some [("source", VStr (detectSource env))] |}
  = detectSource env.
Proof.
  unfold detectSource.
  by destruct (is_set (OPENCODE_SESSION_ID env)), (is_set (OPENCODE_DIR env)),
    (is_set (CLAUDE_PROJECT_DIR env)).
Qed.

Lemma capture_metadata (toolName : string) (output : ToolOutput)
    (c : CompressionResult) (sessionId : value) (source : string) (k : string) :
  NoDup (default [] (out_metadata output)).*1 →
  k = "sessionId" ∨ k = "source" →
  opt_get k (input_metadata (capture_input toolName output c sessionId source))
  = if decide (k = "sessionId") then sessionId else VStr source.
Proof.
  intros Hnd Hk. cbn [capture_input input_metadata opt_get].
  rewrite MindFacts.get_spread; [| done |].
  2: { cbn. repeat (apply NoDup_cons; split; [set_solver |]). apply NoDup_nil_2. }
  destruct Hk as [-> | ->]; rewrite decide_True by set_solver; reflexivity.
Qed.

Lemma capture_source (env : Env) (toolName : string) (output : ToolOutput)
    (c : CompressionResult) (sessionId : value) :
  NoDup (default [] (out_metadata output)).*1 →
  effectiveSource (capture_input toolName output c sessionId (detectSource env))
  = detectSource env.
Proof.
  intros Hnd. rewrite <- (detectSource_valid env) at 2. unfold effectiveSource.
  rewrite (capture_metadata _ _ _ _ _ "source") by auto.
  by rewrite decide_False.
Qed.

Section Stored.
Context (env : Env) (cwd : string) (t_dup t_sid : Z) (random oid : string) (t_obs : Z).
Context (input : ToolInput) (output : ToolOutput) (getMind : M host Mind).
Context (directory : option string) (w w1 w2 w3 : world host).
Context (mind : Mind) (effectiveOutput : string) (sid : value) (c : CompressionResult).
Context (size : N) (frames : list Frame).

Let toolName := toLowerCase (tool input).
Let dir := or_else (default "" directory) (or_else (default "" (OPENCODE_DIR env)) cwd).
Let source := detectSource env.
Let lock := getMemoryPath mind +:+ ".lock".
Let frame := frame_of mind (capture_input toolName output c sid source) oid t_obs.

Hypothesis Hobserved : observed toolName = true.
Hypothesis Hnew :
  on_texts (isDuplicateAcrossProcesses t_dup dir source toolName
              (default [] (out_metadata output))) w
  = (Ok false, w1).
Hypothesis Hlong :
  always_captured toolName = true ∨ MIN_OUTPUT_LENGTH ≤ String.length (out_output output).
Hypothesis Hkept : skipped (out_output output) = false.
Hypothesis Heffective :
  effective_output toolName (out_output output) (out_metadata output)
  = Ok effectiveOutput.
Hypothesis HgetMind : getMind w1 = (Ok mind, w2).
Hypothesis Hsession :
  on_texts (getSessionId env t_sid random dir (Some (sessionID input))) w2
  = (Ok sid, w3).
Hypothesis Hcompress :
  compressToolOutput toolName (out_metadata output) effectiveOutput
                     (autoCompress (config mind))
  = Ok c.
Hypothesis Hfree : lock ∉ held w3.
Hypothesis Hstore :
  disk (proc (data w3)) !! getMemoryPath mind = Some (File size (Valid frames)).

Lemma stored_run :
  CrossCapture.handleToolCapture env cwd t_dup t_sid random oid t_obs input output
    getMind directory w
  = (Ok tt,
     World (held w3 ∖ {[lock]}) ({[lock]} ∪ lockfiles w3)
           (trace w3 ++ [Acquired lock; Released lock])
           (Host (texts (data w3))
                 (State (mindInstance (proc (data w3)))
                        (recentObservations (proc (data w3)))
                        (pluginMind (proc (data w3)))
                        (<[getMemoryPath mind := File size (Valid (frames ++ [frame]))]>
                           (disk (proc (data w3))))))).
Proof.
  unfold CrossCapture.handleToolCapture. fold toolName dir source.
  rewrite Hobserved. cbn [negb]. unfold bind at 1. rewrite Hnew.
  rewrite CaptureFacts.or_else_empty, Hkept.
  assert (Hpass : negb (always_captured toolName)
                  && (String.length (out_output output) <? MIN_OUTPUT_LENGTH) = false).
  { destruct Hlong as [-> | Hlen]; [done |].
    destruct (Nat.ltb_spec (String.length (out_output output)) MIN_OUTPUT_LENGTH);
      [lia | apply andb_false_r]. }
  rewrite Hpass. unfold bind, lift. rewrite Heffective, HgetMind, Hsession, Hcompress.
  unfold on_proc, on_disk, zoom, ret. cbn [data held lockfiles trace proc].
  rewrite (CaptureFacts.remember_run mind _ oid t_obs _ size frames) by done.
  reflexivity.
Qed.

End Stored.

(** X30.  For a call of this revision that passes the duplicate check and
    the filters and reaches a store that opens, the one frame appended to
    the store carries in its metadata the source that [detectSource] finds
    in the environment, and as [sessionId] the value [getSessionId]
    returned when that is truthy (the mind's own session id otherwise),
    whatever [source] and [sessionId] the tool's metadata held. *)
Theorem cross_capture_attributes (env : Env) (cwd : string) (t_dup t_sid : Z)
    (random oid : string) (t_obs : Z) (input : ToolInput) (output : ToolOutput)
    (getMind : M host Mind) (directory : option string) (w w1 w2 w3 : world host)
    (mind : Mind) (effectiveOutput : string) (sid : value) (c : CompressionResult)
    (size : N) (frames : list Frame) :
  let toolName := toLowerCase (tool input) in
  let dir := or_else (default "" directory)
               (or_else (default "" (OPENCODE_DIR env)) cwd) in
  let source := detectSource env in
  let path := getMemoryPath mind in
  let frame := frame_of mind (capture_input toolName output c sid source) oid t_obs in
  let run := CrossCapture.handleToolCapture env cwd t_dup t_sid random oid t_obs
               input output getMind directory w in
  NoDup (default [] (out_metadata output)).*1 →
  observed toolName = true →
  on_texts (isDuplicateAcrossProcesses t_dup dir source toolName
              (default [] (out_metadata output))) w
  = (Ok false, w1) →
  always_captured toolName = true
  ∨ MIN_OUTPUT_LENGTH ≤ String.length (out_output output) →
  skipped (out_output output) = false →
  effective_output toolName (out_output output) (out_metadata output)
  = Ok effectiveOutput →
  getMind w1 = (Ok mind, w2) →
  on_texts (getSessionId env t_sid random dir (Some (sessionID input))) w2
  = (Ok sid, w3) →
  compressToolOutput toolName (out_metadata output) effectiveOutput
                     (autoCompress (config mind))
  = Ok c →
  path +:+ ".lock" ∉ held w3 →
  disk (proc (data w3)) !! path = Some (File size (Valid frames)) →
  run.1 = Ok tt
  ∧ disk (proc (data run.2)) !! path = Some (File size (Valid (frames ++ [frame])))
  ∧ get "source" (metadata frame) = VStr source
  ∧ get "sessionId" (metadata frame)
    = (if truthy sid then sid else VStr (sessionId mind)).
Proof.
  intros toolName dir source path frame run Hnd Hobs Hnew Hlong Hkept Heff Hmind
    Hsid Hcomp Hfree Hstore. subst run.
  rewrite (stored_run env cwd t_dup t_sid random oid t_obs input output getMind
             directory w w1 w2 w3 mind effectiveOutput sid c size frames) by done.
  cbn [fst snd data proc disk]. split; [done |].
  split; [by rewrite lookup_insert_eq |].
  assert (Hkeys : NoDup (default [] (input_metadata
                    (capture_input toolName output c sid source))).*1).
  { cbn [capture_input input_metadata default]. by apply MindFacts.spread_NoDup. }
  subst frame. split.
  - rewrite MindFacts.frame_metadata by done.
    rewrite decide_False by done. rewrite decide_True by done.
    f_equal. by apply capture_source.
  - rewrite MindFacts.frame_metadata by done. rewrite decide_True by done.
    pose proof (capture_metadata toolName output c sid source "sessionId" Hnd
                  (or_introl eq_refl)) as Hget.
    cbn [capture_input input_metadata opt_get] in Hget.
    rewrite decide_True in Hget by done.
    cbn [capture_input input_metadata default id]. by rewrite Hget.
Qed.

Lemma cross_capture_attributes_witness :
  let env := {| OPENCODE_SESSION_ID := None; OPENCODE_DIR := None;
                CLAUDE_PROJECT_DIR := Some "/p" |} in
  let mind := mind_of 900 "0123456789abcdef" "/p" DEFAULT_CONFIG
                      {| handle_path := "/p/.claude/mind.mv2" |} in
  let input := {| tool := "Edit"; sessionID := "ses_9"; callID := "call_7" |} in
  let output := {| out_title := "src/a.ts"; out_output := "ok";
                   out_metadata := Some [("filePath", VStr "/p/src/a.ts");
                                         ("source", VStr "cursor")] |} in
  let c := {| compressed := "File modified: a.ts" +:+ nl +:+ "Path: /p/src/a.ts"
                            +:+ nl +:+ "Tool: edit";
              wasCompressed := false; originalSize := 48 |} in
  let w := World ∅ ∅ []
             (Host ∅ (State (Some mind) ∅ None
                            {["/p/.claude/mind.mv2" := File 0 (Valid [])]})) in
  let frame := frame_of mind (capture_input "edit" output c (VStr "ses_9") "claude-code")
                        "00ff" 1002 in
  let run := CrossCapture.handleToolCapture env "/p" 1000 1001 "0.4fzyo82mvyr" "00ff"
               1002 input output (on_proc (getMind 1000 "00ff" "/p" DEFAULT_CONFIG))
               None w in
  run.1 = Ok tt
  ∧ disk (proc (data run.2)) !! getMemoryPath mind = Some (File 0 (Valid ([] ++ [frame])))
  ∧ get "source" (metadata frame) = VStr "claude-code"
  ∧ get "sessionId" (metadata frame)
    = (if truthy (VStr "ses_9") then VStr "ses_9" else VStr (sessionId mind)).
Proof.
  intros env mind input output c w frame.
  set (w1 := (on_texts (isDuplicateAcrossProcesses 1000 "/p" "claude-code" "edit"
                          (default [] (out_metadata output))) w).2).
  apply (cross_capture_attributes env "/p" 1000 1001 "0.4fzyo82mvyr" "00ff" 1002
           input output (on_proc (getMind 1000 "00ff" "/p" DEFAULT_CONFIG)) None
           w w1 w1 w1 mind (compressed c) (VStr "ses_9") c 0 []).
  - cbn. repeat (apply NoDup_cons; split; [set_solver |]). apply NoDup_nil_2.
  - reflexivity.
  - vm_compute. reflexivity.
  - left. reflexivity.
  - reflexivity.
  - reflexivity.
  - vm_compute. reflexivity.
  - vm_compute. reflexivity.
  - reflexivity.
  - vm_compute. discriminate.
  - reflexivity.
Defined.

End CrossCaptureFacts.
